(** * Garden: provider resolution, test tasks and the exec plugin

    A shallow embedding of
      - garden-service/src/tasks/resolve-provider.ts (ResolveProviderTask,
        getPluginBases, getPluginBaseNames, getPluginDependencies),
      - garden-service/src/tasks/test.ts (TestTask, getTestTasks,
        getTestVersion),
      - garden-service/src/plugins/exec.ts (configureExecModule,
        getExecModuleBuildStatus, buildExecModule, testExecModule,
        runExecTask),
      - garden-service/src/plugins/kubernetes/init.ts (getEnvironmentStatus,
        prepareEnvironment, prepareSystem, cleanupEnvironment,
        checkCertManagerStatus, installCertManager),
    followed by the properties the specification states about them and by
    further properties of the embedded code.

    Asynchronous functions are embedded as computations that either raise a
    [GardenError] or return a value ([Exc]); the ones that call plugin
    handlers or the logger also produce the ordered list of those calls
    ([Eff]), so that "the handler is (not) invoked" is a statement about that
    list.  Functions imported from modules that are not part of the embedded
    sources are fields of an [Imports] record or of the [Garden] object. *)

From Stdlib Require Import Ascii String ZArith.
From stdpp Require Import base option list strings gmap sorting.

Local Open Scope string_scope.
Local Open Scope list_scope.

(** ** Errors *)

(** The error classes of [exceptions.ts] that the embedded code raises, plus
    the JavaScript runtime errors it can run into. *)
Inductive ErrorKind :=
| ConfigurationError
| PluginError
| RuntimeError
| TestError
| TypeError
| RangeError
| OtherError.

#[global] Instance ErrorKind_eq_dec : EqDecision ErrorKind.
Proof. solve_decision. Defined.

Record GardenError := mkError { kind : ErrorKind; message : string }.

#[global] Instance GardenError_eq_dec : EqDecision GardenError.
Proof. solve_decision. Defined.

(** A computation that may raise. *)
Inductive Exc (A : Type) :=
| Throw (e : GardenError)
| Ok (a : A).
Arguments Throw {A} e.
Arguments Ok {A} a.

#[global] Instance Exc_ret : MRet Exc := fun _ a => Ok a.
#[global] Instance Exc_bind : MBind Exc := fun _ _ f m =>
  match m with
  | Throw e => Throw e
  | Ok a => f a
  end.
#[global] Instance Exc_fmap : FMap Exc := fun _ _ f m =>
  match m with
  | Throw e => Throw e
  | Ok a => Ok (f a)
  end.

Definition is_Ok {A} (m : Exc A) : bool :=
  match m with Ok _ => true | Throw _ => false end.

(** A computation that performs observable calls (of type [Ev]) in order and
    then raises or returns. *)
Definition Eff (Ev A : Type) : Type := (list Ev * Exc A)%type.

Definition trace {Ev A} (m : Eff Ev A) : list Ev := m.1.
Definition outcome {Ev A} (m : Eff Ev A) : Exc A := m.2.

#[global] Instance Eff_ret {Ev} : MRet (Eff Ev) := fun _ a => ([], Ok a).
#[global] Instance Eff_bind {Ev} : MBind (Eff Ev) := fun _ _ f m =>
  match m.2 with
  | Throw e => (m.1, Throw e)
  | Ok a => (m.1 ++ (f a).1, (f a).2)
  end.

Definition lift {Ev A} (m : Exc A) : Eff Ev A := ([], m).
Definition throw {Ev A} (e : GardenError) : Eff Ev A := ([], Throw e).
Definition emit {Ev} (ev : Ev) : Eff Ev unit := ([ev], Ok tt).
(** [call ev r]: a call recorded as [ev] whose callee raised or returned [r]. *)
Definition call {Ev A} (ev : Ev) (r : Exc A) : Eff Ev A := ([ev], r).
(** [try ... catch (err) { h; throw err }]. *)
Definition rethrowing {Ev A} (m : Eff Ev A) (h : list Ev) : Eff Ev A :=
  match m.2 with
  | Throw e => (m.1 ++ h, Throw e)
  | Ok a => m
  end.

(** Sequential [for ... of] with an accumulator. *)
Fixpoint foldM {M : Type → Type} `{!MRet M, !MBind M} {A B}
    (f : A → B → M A) (a : A) (l : list B) : M A :=
  match l with
  | [] => mret a
  | b :: l => a' ← f a b; foldM f a' l
  end.

(** [Array.prototype.filter] with a predicate that may raise. *)
Fixpoint filterM {A} (p : A → Exc bool) (l : list A) : Exc (list A) :=
  match l with
  | [] => Ok []
  | x :: l =>
      b ← p x;
      r ← filterM p l;
      mret (if b : bool then x :: r else r)
  end.

(** ** Configuration values *)

Inductive Value :=
| VStr (s : string)
| VNum (n : Z)
| VBool (b : bool).

#[global] Instance Value_eq_dec : EqDecision Value.
Proof. solve_decision. Defined.

(** [ProviderConfig]: [{ name: string, path?: string, [key: string]: any }]. *)
Record ProviderConfig := mkProviderConfig {
  pc_name : string;
  pc_path : option string;
  pc_fields : gmap string Value;
}.

(** lodash [omit(config, "path")]. *)
Definition omit_path (c : ProviderConfig) : ProviderConfig :=
  {| pc_name := pc_name c; pc_path := None; pc_fields := pc_fields c |}.

(** [config.path = root]. *)
Definition set_path (root : string) (c : ProviderConfig) : ProviderConfig :=
  {| pc_name := pc_name c; pc_path := Some root; pc_fields := pc_fields c |}.

(** [EnvironmentStatus]: [{ ready: boolean, outputs: {...} }]. *)
Record EnvironmentStatus := mkStatus {
  ready : bool;
  outputs : gmap string Value;
}.

(** A module config as handed back by a [configureProvider] handler; only its
    name is looked at here. *)
Record ModuleConfigRef := { mc_name : string }.

(** [Provider] (config/provider.ts). *)
#[warnings="-register-all"]
Inductive Provider := mkProvider {
  p_name : string;
  p_dependencies : list (option Provider);
  p_moduleConfigs : list ModuleConfigRef;
  p_config : ProviderConfig;
  p_status : EnvironmentStatus;
}.

(** Modelled from the spec: [providerFromConfig] of config/provider.ts is not
    among the embedded sources; the data model gives a provider as
    [{ name, config, dependencies, moduleConfigs, status }], the name being
    the one of its config. *)
Definition providerFromConfig (config : ProviderConfig)
    (dependencies : list (option Provider))
    (moduleConfigs : list ModuleConfigRef)
    (status : EnvironmentStatus) : Provider :=
  {| p_name := pc_name config;
     p_dependencies := dependencies;
     p_moduleConfigs := moduleConfigs;
     p_config := config;
     p_status := status |}.

(** ** Schemas and validation *)

(** The declarative schemas of section 4.2 of the specification, as far as
    they describe the free-form keys of a provider config: a type per key,
    with [required], [default] and [allowed]. *)
Inductive ValueType := TString | TNumber | TBoolean.

Record KeyRule := mkRule {
  kr_key : string;
  kr_type : ValueType;
  kr_required : bool;
  kr_default : option Value;
  kr_allowed : option (list Value);
}.

Record Schema := mkSchema {
  sc_keys : list KeyRule;
  sc_unknown : bool;
}.

(** [joi.object()]: no key is described and every key is let through. *)
Definition joi_object : Schema := {| sc_keys := []; sc_unknown := true |}.

Definition has_type (t : ValueType) (v : Value) : bool :=
  match t, v with
  | TString, VStr _ | TNumber, VNum _ | TBoolean, VBool _ => true
  | _, _ => false
  end.

Definition apply_default (m : gmap string Value) (r : KeyRule) : gmap string Value :=
  match m !! kr_key r, kr_default r with
  | None, Some v => <[kr_key r := v]> m
  | _, _ => m
  end.

Definition rule_ok (m : gmap string Value) (r : KeyRule) : bool :=
  match m !! kr_key r with
  | None => negb (kr_required r)
  | Some v =>
      has_type (kr_type r) v &&
      match kr_allowed r with
      | None => true
      | Some vs => bool_decide (v ∈ vs)
      end
  end.

Definition known_ok (s : Schema) (m : gmap string Value) : bool :=
  sc_unknown s ||
  forallb (fun k => bool_decide (k ∈ map kr_key (sc_keys s))) (map fst (map_to_list m)).

(** The validator, on the free-form keys. *)
Definition validate_fields (s : Schema) (m : gmap string Value) : option (gmap string Value) :=
  let m' := foldl apply_default m (sc_keys s) in
  if forallb (rule_ok m') (sc_keys s) && known_ok s m' then Some m' else None.

(** Modelled from the spec: [validateWithPath] of config/common.ts (a wrapper
    around joi) is not among the embedded sources.  By section 4.2 validation
    "applies defaults top-down, then validates", and its output is the config
    with the defaults filled in; a config that fails is an error of the class
    asked for. *)
Definition validateWithPath_model (config : ProviderConfig) (schema : Schema)
    (path projectRoot configType : string) (ErrorClass : ErrorKind) : Exc ProviderConfig :=
  match validate_fields schema (pc_fields config) with
  | Some m =>
      Ok {| pc_name := pc_name config; pc_path := pc_path config; pc_fields := m |}
  | None => Throw (mkError ErrorClass ("Error validating " +:+ configType))
  end.

(** A config satisfies a schema when validating it succeeds. *)
Definition satisfies (validate : ProviderConfig → Schema → string → string → string →
                                  ErrorKind → Exc ProviderConfig)
    (root : string) (s : Schema) (c : ProviderConfig) : Prop :=
  ∃ c', validate (omit_path c) s root root "provider configuration" ConfigurationError = Ok c'.

(** ** Plugins *)

Record ConfigureProviderParams := {
  cpp_config : ProviderConfig;
  cpp_projectName : string;
  cpp_projectRoot : string;
  cpp_dependencies : list (option Provider);
}.

Record ConfigureProviderResult := {
  cpr_config : ProviderConfig;
  cpr_moduleConfigs : option (list ModuleConfigRef);
}.

Record PluginHandlers := {
  configureProvider : option (ConfigureProviderParams → Exc ConfigureProviderResult);
}.

(** [GardenPlugin], with the fields resolve-provider.ts reads. *)
Record GardenPlugin := mkPlugin {
  plugin_name : string;
  plugin_base : option string;
  plugin_dependencies : option (list string);
  plugin_configSchema : option Schema;
  plugin_handlers : option PluginHandlers;
}.

(** [PluginMap]: [{ [name: string]: GardenPlugin }], a JavaScript object used
    as a map from plugin names.  The map holds the object's own properties,
    the plugins; what the object inherits from [Object.prototype] is not in
    it, and [readsOwn] below names the reads for which that makes no
    difference. *)
Abbreviation PluginMap := (gmap string GardenPlugin).

(** lodash [keyBy(plugins, "name")]: a later plugin of the same name replaces
    an earlier one. *)
Definition keyBy (plugins : list GardenPlugin) : PluginMap :=
  foldl (fun m p => <[plugin_name p := p]> m) ∅ plugins.

(** [plugin.base] where it names a base: [if (!plugin.base)] takes an empty
    name like an absent one. *)
Definition namedBase (plugin : GardenPlugin) : option string :=
  match plugin_base plugin with
  | Some baseName => if bool_decide (baseName = "") then None else Some baseName
  | None => None
  end.

(** [getPluginBases].  The recursion follows [base] names through the map and
    ends at a plugin without base; on a cyclic chain the source recurses until
    the call stack overflows.  A chain that is not cyclic visits each key of
    the map at most once, so [S (size loadedPlugins)] calls are enough for it,
    and running out of them is the overflow.  [loadedPlugins[plugin.base]] is
    the lookup in the map, which is what the object gives for every base name
    that [readsOwn] below holds of. *)
Fixpoint getPluginBases_rec (depth : nat) (plugin : GardenPlugin)
    (loadedPlugins : PluginMap) : Exc (list GardenPlugin) :=
  match depth with
  | O => Throw (mkError RangeError "Maximum call stack size exceeded")
  | S depth =>
      match namedBase plugin with
      | None => Ok []
      | Some baseName =>
          match loadedPlugins !! baseName with
          | None =>
              Throw (mkError RuntimeError
                ("Unable to find base plugin '" +:+ baseName +:+ "' for plugin '" +:+
                 plugin_name plugin +:+ "'"))
          | Some base =>
              rest ← getPluginBases_rec depth base loadedPlugins;
              mret (base :: rest)
          end
      end
  end.

Definition getPluginBases (plugin : GardenPlugin) (loadedPlugins : PluginMap)
    : Exc (list GardenPlugin) :=
  getPluginBases_rec (S (size loadedPlugins)) plugin loadedPlugins.

(** [getPluginBaseNames]; reading [.base] of a plugin that is not loaded is a
    TypeError. *)
Definition getPluginBaseNames (name : string) (loadedPlugins : PluginMap)
    : Exc (list string) :=
  match loadedPlugins !! name with
  | None => Throw (mkError TypeError "Cannot read property 'base' of undefined")
  | Some plugin => map plugin_name <$> getPluginBases plugin loadedPlugins
  end.

(** ** Modules, tests and versions *)

(** [ModuleVersion] (vcs/vcs.ts). *)
Record ModuleVersion := mkVersion {
  versionString : string;
  dependencyVersions : gmap string string;
  files : list string;
}.

Record BuildCopySpec := { copy_source : string; copy_target : string }.

(** [BuildDependencyConfig]: [{ name: string, copy: BuildCopySpec[] }]. *)
Record BuildDependencyConfig := mkBuildDep {
  bd_name : string;
  bd_copy : list BuildCopySpec;
}.

(** [ExecTestSpec] and [ExecTaskSpec]: the base spec plus [command], [env]. *)
Record ExecTestSpec := mkTestSpec {
  ts_name : string;
  ts_dependencies : list string;
  ts_timeout : option Z;
  ts_command : list string;
  ts_env : gmap string string;
}.

Record ExecTaskSpec := mkTaskSpec {
  tk_name : string;
  tk_dependencies : list string;
  tk_timeout : option Z;
  tk_command : list string;
  tk_env : gmap string string;
}.

Record ExecBuildSpec := {
  bs_command : list string;
  bs_dependencies : list BuildDependencyConfig;
}.

(** [ExecModuleSpec]; [local] is optional ([local?: boolean]). *)
Record ExecModuleSpec := mkSpec {
  spec_local : option bool;
  spec_build : ExecBuildSpec;
  spec_env : gmap string string;
  spec_tasks : list ExecTaskSpec;
  spec_tests : list ExecTestSpec;
}.

(** [TestConfig] and [TaskConfig] (config/test.ts, config/task.ts). *)
Record TestConfig := mkTestConfig {
  tc_name : string;
  tc_dependencies : list string;
  tc_spec : ExecTestSpec;
  tc_timeout : option Z;
}.

Record TaskConfig := mkTaskConfig {
  tkc_name : string;
  tkc_dependencies : list string;
  tkc_timeout : option Z;
  tkc_spec : ExecTaskSpec;
}.

(** [ModuleConfig<ExecModuleSpec>]. *)
Record ExecModuleConfig := mkModuleConfig {
  cfg_name : string;
  cfg_path : string;
  cfg_build_dependencies : list BuildDependencyConfig;
  cfg_spec : ExecModuleSpec;
  cfg_taskConfigs : list TaskConfig;
  cfg_testConfigs : list TestConfig;
}.

(** [Module] (types/module.ts), at the exec plugin's spec types, the only
    module type embedded here; test.ts never reads [spec]. *)
Record Module := mkModule {
  m_name : string;
  m_path : string;
  m_buildPath : string;
  m_buildMetadataPath : string;
  m_version : ModuleVersion;
  m_build_dependencies : list BuildDependencyConfig;
  m_spec : ExecModuleSpec;
  m_testConfigs : list TestConfig;
}.

(** [TestResult] (types/plugin/module/getTestResult.ts). *)
Record TestResult := mkTestResult {
  res_moduleName : string;
  res_command : list string;
  res_testName : string;
  res_version : string;
  res_success : bool;
  res_startedAt : Z;
  res_completedAt : Z;
  res_log : string;
}.

(** [RunTaskResult] (types/plugin/task/runTask.ts). *)
Record RunTaskResult := mkRunTaskResult {
  rt_moduleName : string;
  rt_taskName : string;
  rt_command : list string;
  rt_version : string;
  rt_success : bool;
  rt_log : string;
  rt_outputs : gmap string string;
  rt_startedAt : Z;
  rt_completedAt : Z;
}.

(** [BuildStatus] and [BuildResult]. *)
Record BuildStatus := { bst_ready : bool }.

Record BuildResult := mkBuildResult {
  br_fresh : option bool;
  br_buildLog : option string;
}.

(** [RuntimeContext] (runtime-context.ts) and what it is built from. *)
Record RuntimeContext := {
  rc_envVars : gmap string string;
  rc_serviceStatuses : gmap string Value;
  rc_taskResults : gmap string Value;
}.

Record DependencyRelations := {
  dr_build : list string;
  dr_service : list string;
  dr_task : list string;
  dr_test : list string;
}.

Record GetTestResultParams := {
  gtr_module : Module;
  gtr_testName : string;
  gtr_testVersion : ModuleVersion;
}.

Record TestModuleParams := {
  tm_interactive : bool;
  tm_module : Module;
  tm_runtimeContext : RuntimeContext;
  tm_silent : bool;
  tm_testConfig : TestConfig;
  tm_testVersion : ModuleVersion;
}.

(** ** The Garden object, as far as the tasks use it *)

Record PluginContext := {
  ctx_projectName : string;
  ctx_projectRoot : string;
  ctx_provider : Provider;
}.

Record PrepareEnvironmentParams := {
  pe_ctx : PluginContext;
  pe_force : bool;
  pe_status : EnvironmentStatus;
}.

Record PrepareEnvironmentResult := { pe_result_status : EnvironmentStatus }.

(** The action helper (actions.ts).  [getActionHandler] looks a provider
    handler up by action type and plugin name, and the caller's
    [defaultHandler] stands in when there is none; [actions.getTestResult] and
    [actions.testModule] route to the handlers of the module's type.  A
    handler is given by what it answers to its parameters; a run of a task
    method calls each of them at most once, and the properties below speak of
    the answers within one run. *)
Record ActionHelper := {
  getEnvironmentStatusHandler : string → option (PluginContext → Exc EnvironmentStatus);
  prepareEnvironmentHandler :
    string → option (PrepareEnvironmentParams → Exc PrepareEnvironmentResult);
  actions_getTestResult : GetTestResultParams → Exc (option TestResult);
  actions_testModule : TestModuleParams → Exc TestResult;
}.

(** Modelled from the spec: [actions.getActionHandler({ actionType,
    pluginName, defaultHandler })] of actions.ts is not among the embedded
    sources.  By section 4.8 the handler of the provider's plugin (or of its
    bases) is used, and "if nothing is found and the caller provided a
    defaultHandler, use it"; [handlers] is the table of the action type after
    inheritance. *)
Definition getActionHandler {P R} (handlers : string → option (P → Exc R))
    (pluginName : string) (defaultHandler : P → Exc R) : P → Exc R :=
  default defaultHandler (handlers pluginName).

Record Garden := {
  environmentName : string;
  projectName : string;
  projectRoot : string;
  getRawProviderConfigs : list ProviderConfig;
  getPlugins : Exc (list GardenPlugin);
  getActionHelper : Exc ActionHelper;
  getPluginContext : Provider → PluginContext;
  resolveVersion : string → list Module → Exc ModuleVersion;
}.

(** [ConfigGraph] (config-graph.ts), the two queries test.ts makes. *)
Record ConfigGraph := {
  graph_getDependencies : string → string → bool → Exc DependencyRelations;
  resolveDependencyModules :
    list BuildDependencyConfig → list string → Exc (list Module);
}.

(** [ProviderConfigContext] (config/config-context.ts). *)
Record ProviderConfigContext := {
  pcc_environmentName : string;
  pcc_projectName : string;
  pcc_resolvedProviders : list (option Provider);
}.

(** What resolve-provider.ts imports from modules outside the embedded
    sources. *)
Record Imports := {
  getAllProviderDependencyNames : option GardenPlugin → ProviderConfig → Exc (list string);
  resolveTemplateStrings : ProviderConfig → ProviderConfigContext → Exc ProviderConfig;
  validateWithPath :
    ProviderConfig → Schema → string → string → string → ErrorKind → Exc ProviderConfig;
  defaultEnvironmentStatus : EnvironmentStatus;
}.

(** A finished dependency task, [TaskResult | null] keyed by task name. *)
Record TaskResult := { tr_output : Provider }.
Abbreviation TaskResults := (list (string * option TaskResult)).

(** The calls [ResolveProviderTask] makes, in the order it makes them. *)
Inductive RPEvent :=
| Log (msg : string)
| Validate (schema : Schema) (config : ProviderConfig) (configType : string)
| CallConfigureProvider (config : ProviderConfig)
| CallGetEnvironmentStatus (pluginName : string)
| CallPrepareEnvironment (pluginName : string) (force : bool) (status : EnvironmentStatus).

Module ResolveProviderTask.

(** The task object ([this]).  [plugin] is what the constructor was given:
    [getDependencies] passes [plugins[depName]], which is undefined when no
    plugin of that name is loaded. *)
Record t := mk {
  garden : Garden;
  plugin : option GardenPlugin;
  config : ProviderConfig;
  version : ModuleVersion;
  forceInit : bool;
}.

Definition getName (this : t) : string := pc_name (config this).

Section Methods.
Variable I : Imports.
Variable this : t.

(** The filter predicate of [getDependencies]: the name matches directly, or
    the provider inherits from a base named [depName]. *)
Definition matches (plugins : PluginMap) (depName : string) (c : ProviderConfig) : Exc bool :=
  if bool_decide (pc_name c = depName) then Ok true
  else
    names ← getPluginBaseNames (pc_name c) plugins;
    mret (bool_decide (depName ∈ names)).

Definition missingDependency (depName : string) : GardenError :=
  mkError ConfigurationError
    ("Missing provider dependency '" +:+ depName +:+ "' in configuration for provider '" +:+
     pc_name (config this) +:+ "'. Are you missing a provider configuration?").

Definition dependencyTasks (plugins : PluginMap) (depName : string) : Exc (list t) :=
  matched ← filterM (matches plugins depName) (getRawProviderConfigs (garden this));
  if bool_decide (length matched = 0%nat) then Throw (missingDependency depName)
  else
    mret (map (fun c =>
      {| garden := garden this;
         plugin := plugins !! depName;
         config := c;
         version := version this;
         forceInit := forceInit this |}) matched).

Definition getDependencies : Exc (list t) :=
  depNames ← getAllProviderDependencyNames I (plugin this) (config this);
  let rawProviderConfigs := getRawProviderConfigs (garden this) in
  plugins ← keyBy <$> getPlugins (garden this);
  mjoin <$> mapM (dependencyTasks plugins) depNames.

(** [this.plugin.configSchema], [this.plugin.handlers]: a property of an
    undefined plugin cannot be read, and the TypeError names the property. *)
Definition thePlugin (property : string) : Exc GardenPlugin :=
  match plugin this with
  | Some p => Ok p
  | None =>
      Throw (mkError TypeError ("Cannot read property '" +:+ property +:+ "' of undefined"))
  end.

Definition validateConfig (c : ProviderConfig) : Eff RPEvent ProviderConfig :=
  p ← lift (thePlugin "configSchema");
  let schema := default joi_object (plugin_configSchema p) in
  let root := projectRoot (garden this) in
  call (Validate schema (omit_path c) "provider configuration")
       (validateWithPath I (omit_path c) schema root root "provider configuration"
          ConfigurationError).

(** The body of the loop over the bases. *)
Definition validateAgainstBase (providerName : string) (resolvedConfig : ProviderConfig)
    (base : GardenPlugin) : Eff RPEvent ProviderConfig :=
  match plugin_configSchema base with
  | None => mret resolvedConfig
  | Some schema =>
      let root := projectRoot (garden this) in
      let configType :=
        "provider configuration (base schema from '" +:+ plugin_name base +:+ "' plugin)" in
      _ ← emit (Log ("Validating '" +:+ providerName +:+ "' config against '" +:+
                     plugin_name base +:+ "' schema"));
      call (Validate schema (omit_path resolvedConfig) configType)
           (validateWithPath I (omit_path resolvedConfig) schema root root configType
              ConfigurationError)
  end.

Definition ensurePrepared (tmpProvider : Provider) : Eff RPEvent EnvironmentStatus :=
  let pluginName := p_name tmpProvider in
  actions ← lift (getActionHelper (garden this));
  let ctx := getPluginContext (garden this) tmpProvider in
  _ ← emit (Log ("Getting status for " +:+ pluginName));
  let handler :=
    getActionHandler (getEnvironmentStatusHandler actions) pluginName
      (fun _ => Ok (defaultEnvironmentStatus I)) in
  status ← call (CallGetEnvironmentStatus pluginName) (handler ctx);
  _ ← emit (Log (pluginName +:+ " status: " +:+
                 (if ready status then "ready" else "not ready")));
  status ←
    (if forceInit this || negb (ready status) then
       _ ← emit (Log "Preparing environment...");
       _ ← emit (Log "Configuring...");
       let prepareHandler :=
         getActionHandler (prepareEnvironmentHandler actions) pluginName
           (fun _ => Ok {| pe_result_status := status |}) in
       result ← call (CallPrepareEnvironment pluginName (forceInit this) status)
                     (prepareHandler {| pe_ctx := ctx; pe_force := forceInit this;
                                        pe_status := status |});
       _ ← emit (Log "Ready");
       mret (pe_result_status result)
     else mret status);
  if negb (ready status) then
    throw (mkError PluginError
      ("Provider " +:+ pluginName +:+
       " reports status as not ready and could not prepare the configured environment."))
  else mret status.

Definition process (dependencyResults : TaskResults) : Eff RPEvent Provider :=
  let resolvedProviders := map (fun r => tr_output <$> r.2) dependencyResults in
  let context :=
    {| pcc_environmentName := environmentName (garden this);
       pcc_projectName := projectName (garden this);
       pcc_resolvedProviders := resolvedProviders |} in
  _ ← emit (Log ("Resolving template strings for plugin " +:+ pc_name (config this)));
  resolvedConfig ← lift (resolveTemplateStrings I (config this) context);
  let providerName := pc_name resolvedConfig in
  _ ← emit (Log ("Validating " +:+ providerName +:+ " config"));
  resolvedConfig ← validateConfig resolvedConfig;
  let resolvedConfig := set_path (projectRoot (garden this)) resolvedConfig in
  p ← lift (thePlugin "handlers");
  let configureHandler := default None (configureProvider <$> plugin_handlers p) in
  '(resolvedConfig, moduleConfigs) ←
    match configureHandler with
    | Some handler =>
        _ ← emit (Log ("Calling configureProvider on " +:+ providerName));
        configureOutput ← call (CallConfigureProvider resolvedConfig)
          (handler {| cpp_config := resolvedConfig;
                      cpp_projectName := projectName (garden this);
                      cpp_projectRoot := projectRoot (garden this);
                      cpp_dependencies := resolvedProviders |});
        _ ← emit (Log ("Validating " +:+ providerName +:+
                       " config returned from configureProvider handler"));
        resolvedConfig ← validateConfig (cpr_config configureOutput);
        let resolvedConfig := set_path (projectRoot (garden this)) resolvedConfig in
        mret (resolvedConfig, default [] (cpr_moduleConfigs configureOutput))
    | None => mret (resolvedConfig, [])
    end;
  plugins ← lift (getPlugins (garden this));
  let pluginsByName := keyBy plugins in
  bases ← lift (getPluginBases p pluginsByName);
  resolvedConfig ← foldM (validateAgainstBase providerName) resolvedConfig bases;
  _ ← emit (Log ("Ensuring " +:+ providerName +:+ " provider is ready"));
  let tmpProvider :=
    providerFromConfig resolvedConfig resolvedProviders moduleConfigs
      (defaultEnvironmentStatus I) in
  status ← ensurePrepared tmpProvider;
  mret (providerFromConfig resolvedConfig resolvedProviders moduleConfigs status).

End Methods.
End ResolveProviderTask.

(** ** tasks/test.ts *)

(** Results of the tasks a test task depends on. *)
Abbreviation TestTaskResults := (list (string * option Value)).

(** What test.ts imports from modules outside the embedded sources;
    [minimatch] is the glob matcher of the npm package of that name. *)
Record TestImports := {
  minimatch : string → string → bool;
  getServiceStatuses : TestTaskResults → gmap string Value;
  getRunTaskResults : TestTaskResults → gmap string Value;
  prepareRuntimeContext :
    Garden → ConfigGraph → DependencyRelations → Module →
    gmap string Value → gmap string Value → Exc RuntimeContext;
}.

(** The calls [TestTask] makes, in the order it makes them. *)
Inductive TestEvent :=
| LogInfo (section msg : string)
| LogSetSuccess (msg : string)
| LogSetError (msg : option string)
| CallGetTestResult (moduleName testName : string) (testVersion : ModuleVersion)
| CallTestModule (moduleName testName : string) (testVersion : ModuleVersion).

(** JavaScript truthiness of [string | undefined]: the empty string and
    undefined are falsy. *)
Definition truthy (o : option string) : bool :=
  match o with
  | Some s => negb (bool_decide (s = ""))
  | None => false
  end.

Module TestTask.

Record t := mk {
  garden : Garden;
  graph : ConfigGraph;
  module : Module;
  testConfig : TestConfig;
  force : bool;
  forceBuild : bool;
  version : ModuleVersion;
}.

Section Methods.
Variable I : TestImports.

Definition getTestResult (this : t) : Eff TestEvent (option TestResult) :=
  if force this then mret None
  else
    actions ← lift (getActionHelper (garden this));
    call (CallGetTestResult (m_name (module this)) (tc_name (testConfig this)) (version this))
         (actions_getTestResult actions
            {| gtr_module := module this;
               gtr_testName := tc_name (testConfig this);
               gtr_testVersion := version this |}).

(** The part of [process] after the early return (the durations in the two
    closing log messages are left out). *)
Definition run (this : t) (dependencyResults : TestTaskResults) : Eff TestEvent TestResult :=
  _ ← emit (LogInfo (m_name (module this))
             ("Running " +:+ tc_name (testConfig this) +:+ " tests"));
  dependencies ← lift (graph_getDependencies (graph this) "test"
                         (tc_name (testConfig this)) false);
  let serviceStatuses := getServiceStatuses I dependencyResults in
  let taskResults := getRunTaskResults I dependencyResults in
  runtimeContext ← lift (prepareRuntimeContext I (garden this) (graph this) dependencies
                           (module this) serviceStatuses taskResults);
  actions ← lift (getActionHelper (garden this));
  result ← rethrowing
    (call (CallTestModule (m_name (module this)) (tc_name (testConfig this)) (version this))
          (actions_testModule actions
             {| tm_interactive := false;
                tm_module := module this;
                tm_runtimeContext := runtimeContext;
                tm_silent := true;
                tm_testConfig := testConfig this;
                tm_testVersion := version this |}))
    [LogSetError None];
  if res_success result then
    _ ← emit (LogSetSuccess "Success");
    mret result
  else
    _ ← emit (LogSetError (Some "Failed!"));
    throw (mkError TestError (res_log result)).

Definition process (this : t) (dependencyResults : TestTaskResults)
    : Eff TestEvent TestResult :=
  testResult ← getTestResult this;
  match testResult with
  | Some r =>
      if res_success r then
        _ ← emit (LogInfo (m_name (module this)) (tc_name (testConfig this) +:+ " tests"));
        _ ← emit (LogSetSuccess "Already passed");
        mret r
      else run this dependencyResults
  | None => run this dependencyResults
  end.

End Methods.
End TestTask.

(** [getTestVersion]. *)
Definition getTestVersion (garden : Garden) (graph : ConfigGraph) (module : Module)
    (testConfig : TestConfig) : Exc ModuleVersion :=
  resolved ← resolveDependencyModules graph (m_build_dependencies module)
                (tc_dependencies testConfig);
  let moduleDeps := filter (fun m => m_name m ≠ m_name module) resolved in
  resolveVersion garden (m_name module) moduleDeps.

(** [TestTask.factory]. *)
Definition factory (garden : Garden) (graph : ConfigGraph) (module : Module)
    (testConfig : TestConfig) (force forceBuild : bool) : Exc TestTask.t :=
  version ← getTestVersion garden graph module testConfig;
  mret (TestTask.mk garden graph module testConfig force forceBuild version).

(** The filter predicate of [getTestTasks]:
    [!filterNames || filterNames.length === 0 || find(filterNames, ...)],
    the last disjunct being the pattern that lodash [find] returns. *)
Definition selectedBy (I : TestImports) (filterNames : option (list string))
    (test : TestConfig) : bool :=
  match filterNames with
  | None => true
  | Some names =>
      bool_decide (length names = 0%nat) ||
      truthy (List.find (fun n => minimatch I (tc_name test) n) names)
  end.

(** [getTestTasks]; [force] and [forceBuild] default to false. *)
Definition getTestTasks (I : TestImports) (garden : Garden) (graph : ConfigGraph)
    (module : Module) (filterNames : option (list string))
    (force forceBuild : option bool) : Exc (list TestTask.t) :=
  let configs := List.filter (selectedBy I filterNames) (m_testConfigs module) in
  mapM (fun test =>
          factory garden graph module test (default false force) (default false forceBuild))
       configs.

(** ** plugins/exec.ts *)

(** The world the exec handlers act on: the files on disk (path to content)
    and the wall clock read by [new Date()]. *)
Record World := mkWorld {
  fs : gmap string string;
  clock : Z;
}.

(** A handler is a computation on the world that raises or returns. *)
Definition IO (A : Type) : Type := World → Exc A * World.

#[global] Instance IO_ret : MRet IO := fun _ a w => (Ok a, w).
#[global] Instance IO_bind : MBind IO := fun _ _ f m w =>
  match m w with
  | (Throw e, w') => (Throw e, w')
  | (Ok a, w') => f a w'
  end.

(** [new Date()]. *)
Definition now : IO Z := fun w => (Ok (clock w), w).

(** [try { ... } catch (_) { }] around a computation whose value is kept in
    a variable initialised to [d]. *)
Definition ignoringErrors {A} (d : A) (m : IO A) : IO A := fun w =>
  match m w with
  | (Throw _, w') => (Ok d, w')
  | (Ok a, w') => (Ok a, w')
  end.

(** [SpawnOpts] and [SpawnOutput] (util/util.ts); [ignoreError] is optional. *)
Record SpawnOpts := mkSpawnOpts {
  so_cwd : string;
  so_env : gmap string string;
  so_ignoreError : option bool;
}.

Record SpawnOutput := mkSpawnOutput {
  so_code : Z;
  so_stdout : option string;
  so_stderr : option string;
}.

(** What exec.ts imports from modules outside the embedded sources.
    [validateSpec] is [validateWithPath] at [execModuleSpecSchema], given the
    module's name and path and the project root; [process_env] is the
    environment of the running process. *)
Record ExecImports := {
  spawn : option string → list string → SpawnOpts → IO SpawnOutput;
  readModuleVersionFile : string → IO (option ModuleVersion);
  writeModuleVersionFile : string → ModuleVersion → IO unit;
  validateSpec : ExecModuleSpec → string → string → string → Exc ExecModuleSpec;
  join : string → string → string;
  GARDEN_BUILD_VERSION_FILENAME : string;
  process_env : gmap string string;
}.

(** [{ ...a, ...b }]: the keys of [b] win. *)
Definition spread (a b : gmap string string) : gmap string string := b ∪ a.

(** JavaScript truthiness of an array: every array is truthy, the empty one
    too. *)
Definition truthy_array {A} (l : list A) : bool := true.

(** [s || ""] for [s: string | undefined]. *)
Definition orEmpty (s : option string) : string := default "" s.

Definition newline : string := String "010"%char "".

(** A running task: [{ name, module, spec }]. *)
Record ExecTask := mkExecTask {
  task_name : string;
  task_module : Module;
  task_spec : ExecTaskSpec;
}.

Section Exec.
Variable I : ExecImports.

Definition getCwd (module : Module) : string :=
  if default false (spec_local (m_spec module)) then m_path module else m_buildPath module.

Definition copyError (moduleConfig : ExecModuleConfig)
    (buildDependenciesWithCopySpec : string) : GardenError :=
  mkError ConfigurationError
    ("Invalid exec module configuration: Module " +:+ cfg_name moduleConfig +:+ " copies " +:+
     buildDependenciesWithCopySpec +:+ newline +:+ newline +:+
     "A local exec module cannot have a build dependency with a copy spec.").

Definition configureExecModule (projectRoot : string) (moduleConfig : ExecModuleConfig)
    : Exc ExecModuleConfig :=
  let buildDeps := cfg_build_dependencies moduleConfig in
  if default false (spec_local (cfg_spec moduleConfig)) &&
     existsb (fun d => bool_decide (0 < length (bd_copy d))%nat) buildDeps
  then
    let buildDependenciesWithCopySpec :=
      String.concat ", "
        (map bd_name (List.filter (fun d => negb (negb (truthy_array (bd_copy d)))) buildDeps)) in
    Throw (copyError moduleConfig buildDependenciesWithCopySpec)
  else
    spec ← validateSpec I (cfg_spec moduleConfig) (cfg_name moduleConfig)
             (cfg_path moduleConfig) projectRoot;
    mret {| cfg_name := cfg_name moduleConfig;
            cfg_path := cfg_path moduleConfig;
            cfg_build_dependencies := cfg_build_dependencies moduleConfig;
            cfg_spec := spec;
            cfg_taskConfigs :=
              map (fun t => {| tkc_name := tk_name t;
                               tkc_dependencies := tk_dependencies t;
                               tkc_timeout := tk_timeout t;
                               tkc_spec := t |}) (spec_tasks spec);
            cfg_testConfigs :=
              map (fun t => {| tc_name := ts_name t;
                               tc_dependencies := ts_dependencies t;
                               tc_spec := t;
                               tc_timeout := ts_timeout t |}) (spec_tests spec) |}.

Definition getExecModuleBuildStatus (module : Module) : IO BuildStatus :=
  let buildVersionFilePath :=
    join I (m_buildMetadataPath module) (GARDEN_BUILD_VERSION_FILENAME I) in
  builtVersion ← ignoringErrors None (readModuleVersionFile I buildVersionFilePath);
  match builtVersion with
  | Some v =>
      if bool_decide (versionString v = versionString (m_version module))
      then mret {| bst_ready := true |}
      else mret {| bst_ready := false |}
  | None => mret {| bst_ready := false |}
  end.

Definition buildExecModule (module : Module) : IO BuildResult :=
  let command := bs_command (spec_build (m_spec module)) in
  output ←
    (if bool_decide (length command ≠ 0%nat) then
       res ← spawn I (head command) (tail command)
               {| so_cwd := getCwd module;
                  so_env := spread (process_env I) (spec_env (m_spec module));
                  so_ignoreError := None |};
       mret {| br_fresh := Some true;
               br_buildLog := Some (orEmpty (so_stdout res) +:+ orEmpty (so_stderr res)) |}
     else mret {| br_fresh := None; br_buildLog := None |});
  let buildVersionFilePath :=
    join I (m_buildMetadataPath module) (GARDEN_BUILD_VERSION_FILENAME I) in
  _ ← writeModuleVersionFile I buildVersionFilePath (m_version module);
  mret output.

(** The options [testExecModule] spawns with. *)
Definition testSpawnOpts (module : Module) (testConfig : TestConfig) : SpawnOpts :=
  {| so_cwd := getCwd module;
     so_env := spread (spread (process_env I) (spec_env (m_spec module)))
                      (ts_env (tc_spec testConfig));
     so_ignoreError := Some true |}.

Definition testExecModule (module : Module) (testConfig : TestConfig) : IO TestResult :=
  startedAt ← now;
  let command := ts_command (tc_spec testConfig) in
  result ← spawn I (head command) (tail command) (testSpawnOpts module testConfig);
  completedAt ← now;
  mret {| res_moduleName := m_name module;
          res_command := command;
          res_testName := tc_name testConfig;
          res_version := versionString (m_version module);
          res_success := bool_decide (so_code result = 0%Z);
          res_startedAt := startedAt;
          res_completedAt := completedAt;
          res_log := orEmpty (so_stdout result) +:+ orEmpty (so_stderr result) |}.

(** The options [runExecTask] spawns with: no [ignoreError]. *)
Definition taskSpawnOpts (task : ExecTask) : SpawnOpts :=
  {| so_cwd := getCwd (task_module task);
     so_env := spread (spread (process_env I) (spec_env (m_spec (task_module task))))
                      (tk_env (task_spec task));
     so_ignoreError := None |}.

Definition runExecTask (task : ExecTask) : IO RunTaskResult :=
  let module := task_module task in
  let command := tk_command (task_spec task) in
  startedAt ← now;
  result ← spawn I (head command) (tail command) (taskSpawnOpts task);
  completedAt ← now;
  let output := orEmpty (so_stdout result) +:+ orEmpty (so_stderr result) in
  mret {| rt_moduleName := m_name module;
          rt_taskName := task_name task;
          rt_command := command;
          rt_version := versionString (m_version module);
          rt_success := true;
          rt_log := output;
          rt_outputs := {[ "log" := output ]};
          rt_startedAt := startedAt;
          rt_completedAt := completedAt |}.

End Exec.

(** ** The build-version file (vcs/vcs.ts)

    [writeModuleVersionFile] and [readModuleVersionFile] of vcs/vcs.ts are
    not among the embedded sources.  The specification gives the file as
    "UTF-8 JSON, sorted keys, [{ versionString: string, dependencyVersions:
    { [name]: string }, files: string[] }]", read back exactly, and a file of
    another (stale) format as a parse error of the reader.  The model writes
    the JSON text without white space, the keys of both objects in ascending
    order, and reads JSON text of that shape, white space and any key order
    allowed.  Strings are the bytes of their UTF-8 encoding. *)
Module Vcs.

Inductive Token :=
| LBrace | RBrace | LBracket | RBracket | Colon | Comma
| Str (s : string).

Definition quote : ascii := "034"%char.
Definition backslash : ascii := "092"%char.

(** *** Writing *)

Definition hexDigit (n : N) : ascii :=
  if (n <? 10)%N then ascii_of_N (48 + n) else ascii_of_N (87 + n).

(** JSON string escapes, as [JSON.stringify] writes them: the quote, the
    backslash and the control characters are escaped, every other byte
    stands for itself. *)
Definition escapeChar (c : ascii) : string :=
  let n := N_of_ascii c in
  if Ascii.eqb c quote then String backslash (String quote "")
  else if Ascii.eqb c backslash then String backslash (String backslash "")
  else if (n =? 8)%N then String backslash "b"
  else if (n =? 9)%N then String backslash "t"
  else if (n =? 10)%N then String backslash "n"
  else if (n =? 12)%N then String backslash "f"
  else if (n =? 13)%N then String backslash "r"
  else if (n <? 32)%N then
    String backslash
      ("u00" +:+ String (hexDigit (n / 16)) (String (hexDigit (n mod 16)) ""))
  else String c "".

Fixpoint escape (s : string) : string :=
  match s with
  | EmptyString => ""
  | String c s' => escapeChar c +:+ escape s'
  end.

Definition printToken (t : Token) : string :=
  match t with
  | LBrace => "{"
  | RBrace => "}"
  | LBracket => "["
  | RBracket => "]"
  | Colon => ":"
  | Comma => ","
  | Str s => String quote (escape s +:+ String quote "")
  end.

Fixpoint printTokens (ts : list Token) : string :=
  match ts with
  | [] => ""
  | t :: ts => printToken t +:+ printTokens ts
  end.

Fixpoint commaSep (items : list (list Token)) : list Token :=
  match items with
  | [] => []
  | [x] => x
  | x :: xs => x ++ Comma :: commaSep xs
  end.

Definition arrayTokens (l : list string) : list Token :=
  LBracket :: commaSep (map (fun s => [Str s]) l) ++ [RBracket].

Definition objectTokens (entries : list (string * string)) : list Token :=
  LBrace :: commaSep (map (fun e => [Str e.1; Colon; Str e.2]) entries) ++ [RBrace].

Definition keyLe (a b : string * string) : Prop := String.leb a.1 b.1 = true.

#[global] Instance keyLe_dec a b : Decision (keyLe a b).
Proof. unfold keyLe. apply _. Defined.

(** The entries of a map, keys ascending. *)
Definition sortedEntries (m : gmap string string) : list (string * string) :=
  merge_sort keyLe (map_to_list m).

Definition versionTokens (v : ModuleVersion) : list Token :=
  [LBrace; Str "dependencyVersions"; Colon] ++
  objectTokens (sortedEntries (dependencyVersions v)) ++
  [Comma; Str "files"; Colon] ++
  arrayTokens (files v) ++
  [Comma; Str "versionString"; Colon; Str (versionString v); RBrace].

Definition serialize (v : ModuleVersion) : string := printTokens (versionTokens v).

(** *** Reading *)

Definition hexValue (c : ascii) : option N :=
  let n := N_of_ascii c in
  if (48 <=? n)%N && (n <=? 57)%N then Some (n - 48)%N
  else if (97 <=? n)%N && (n <=? 102)%N then Some (n - 87)%N
  else if (65 <=? n)%N && (n <=? 70)%N then Some (n - 55)%N
  else None.

(** The scanner is in one of four places: between tokens, within a string
    (the bytes read so far, last first), after a backslash, or within the
    four hex digits of a [\u] escape (digits still to come, value so far). *)
Inductive LexState :=
| Outside
| InString (buf : list ascii)
| Escaped (buf : list ascii)
| Unicode (buf : list ascii) (todo : nat) (value : N).

Definition isSpace (c : ascii) : bool :=
  let n := N_of_ascii c in
  (n =? 32)%N || (n =? 9)%N || (n =? 10)%N || (n =? 13)%N.

Definition punctuation (c : ascii) : option Token :=
  if Ascii.eqb c "{" then Some LBrace
  else if Ascii.eqb c "}" then Some RBrace
  else if Ascii.eqb c "[" then Some LBracket
  else if Ascii.eqb c "]" then Some RBracket
  else if Ascii.eqb c ":" then Some Colon
  else if Ascii.eqb c "," then Some Comma
  else None.

Definition unescape (c : ascii) : option ascii :=
  if Ascii.eqb c quote then Some quote
  else if Ascii.eqb c backslash then Some backslash
  else if Ascii.eqb c "/" then Some "/"%char
  else if Ascii.eqb c "b" then Some "008"%char
  else if Ascii.eqb c "t" then Some "009"%char
  else if Ascii.eqb c "n" then Some "010"%char
  else if Ascii.eqb c "f" then Some "012"%char
  else if Ascii.eqb c "r" then Some "013"%char
  else None.

(** Strings, arrays and objects are the only values of the format, so a
    number, [true], [false] or [null] is refused here already; so is a [\u]
    escape of a character beyond ASCII, which the writer never produces. *)
Fixpoint lex (st : LexState) (acc : list Token) (s : string) : option (list Token) :=
  match s with
  | EmptyString =>
      match st with
      | Outside => Some (rev acc)
      | _ => None
      end
  | String c s' =>
      match st with
      | Outside =>
          if isSpace c then lex Outside acc s'
          else if Ascii.eqb c quote then lex (InString []) acc s'
          else
            match punctuation c with
            | Some t => lex Outside (t :: acc) s'
            | None => None
            end
      | InString buf =>
          if Ascii.eqb c quote then
            lex Outside (Str (string_of_list_ascii (rev buf)) :: acc) s'
          else if Ascii.eqb c backslash then lex (Escaped buf) acc s'
          else if (N_of_ascii c <? 32)%N then None
          else lex (InString (c :: buf)) acc s'
      | Escaped buf =>
          if Ascii.eqb c "u" then lex (Unicode buf 4 0) acc s'
          else
            match unescape c with
            | Some d => lex (InString (d :: buf)) acc s'
            | None => None
            end
      | Unicode buf todo value =>
          match hexValue c with
          | None => None
          | Some d =>
              let value := (16 * value + d)%N in
              match todo with
              | 1%nat =>
                  if (value <? 128)%N then lex (InString (ascii_of_N value :: buf)) acc s'
                  else None
              | _ => lex (Unicode buf (pred todo) value) acc s'
              end
          end
      end
  end.

(** The elements of an array of strings, after its first bracket. *)
Fixpoint parseElems (ts : list Token) : option (list string * list Token) :=
  match ts with
  | Str s :: RBracket :: rest => Some ([s], rest)
  | Str s :: Comma :: ts' =>
      match parseElems ts' with
      | Some (l, rest) => Some (s :: l, rest)
      | None => None
      end
  | _ => None
  end.

Definition parseArray (ts : list Token) : option (list string * list Token) :=
  match ts with
  | LBracket :: RBracket :: rest => Some ([], rest)
  | LBracket :: ts' => parseElems ts'
  | _ => None
  end.

(** The entries of an object of strings, after its first brace. *)
Fixpoint parseEntries (ts : list Token) : option (list (string * string) * list Token) :=
  match ts with
  | Str k :: Colon :: Str v :: RBrace :: rest => Some ([(k, v)], rest)
  | Str k :: Colon :: Str v :: Comma :: ts' =>
      match parseEntries ts' with
      | Some (l, rest) => Some ((k, v) :: l, rest)
      | None => None
      end
  | _ => None
  end.

Definition parseObject (ts : list Token) : option (list (string * string) * list Token) :=
  match ts with
  | LBrace :: RBrace :: rest => Some ([], rest)
  | LBrace :: ts' => parseEntries ts'
  | _ => None
  end.

Inductive Field :=
| FVersionString (s : string)
| FFiles (l : list string)
| FDependencyVersions (entries : list (string * string)).

(** One [key: value] of the document; the schema has the three keys and no
    other. *)
Definition parseField (ts : list Token) : option (Field * list Token) :=
  match ts with
  | Str key :: Colon :: ts' =>
      if String.eqb key "versionString" then
        match ts' with
        | Str s :: rest => Some (FVersionString s, rest)
        | _ => None
        end
      else if String.eqb key "files" then
        match parseArray ts' with
        | Some (l, rest) => Some (FFiles l, rest)
        | None => None
        end
      else if String.eqb key "dependencyVersions" then
        match parseObject ts' with
        | Some (es, rest) => Some (FDependencyVersions es, rest)
        | None => None
        end
      else None
  | _ => None
  end.

(** The fields of the document up to its closing brace; every field takes at
    least one token, so the number of tokens bounds the number of fields. *)
Fixpoint parseFields (n : nat) (ts : list Token) : option (list Field) :=
  match n with
  | O => None
  | S n =>
      match parseField ts with
      | Some (f, [RBrace]) => Some [f]
      | Some (f, Comma :: ts') =>
          match parseFields n ts' with
          | Some fs => Some (f :: fs)
          | None => None
          end
      | _ => None
      end
  end.

(** The last occurrence of a key is the one that counts, as in [JSON.parse]. *)
Definition lastVersionString (fs : list Field) : option string :=
  last (omap (fun f => match f with FVersionString s => Some s | _ => None end) fs).

Definition lastFiles (fs : list Field) : option (list string) :=
  last (omap (fun f => match f with FFiles l => Some l | _ => None end) fs).

Definition lastDependencyVersions (fs : list Field) : option (list (string * string)) :=
  last (omap (fun f => match f with FDependencyVersions es => Some es | _ => None end) fs).

Definition parseDocument (ts : list Token) : option ModuleVersion :=
  match ts with
  | LBrace :: ts' =>
      fs ← parseFields (length ts') ts';
      v ← lastVersionString fs;
      l ← lastFiles fs;
      es ← lastDependencyVersions fs;
      Some {| versionString := v;
              dependencyVersions := list_to_map (reverse es);
              files := l |}
  | _ => None
  end.

Definition parse (text : string) : option ModuleVersion :=
  lex Outside [] text ≫= parseDocument.

(** *** The two file operations *)

(** Modelled from the spec: [writeModuleVersionFile] is not among the
    embedded sources; it leaves the JSON text of the version at the path. *)
Definition writeModuleVersionFile (path : string) (version : ModuleVersion) : IO unit :=
  fun w => (Ok tt, {| fs := <[path := serialize version]> (fs w); clock := clock w |}).

(** Modelled from the spec: [readModuleVersionFile] is not among the
    embedded sources; it returns the version the file holds, null when there
    is no file, and raises when the file is not of the format. *)
Definition readModuleVersionFile (path : string) : IO (option ModuleVersion) :=
  fun w =>
    match fs w !! path with
    | None => (Ok None, w)
    | Some text =>
        match parse text with
        | Some v => (Ok (Some v), w)
        | None =>
            (Throw (mkError ConfigurationError
                      ("Unable to parse " +:+ path +:+ " as valid version file")), w)
        end
    end.

End Vcs.

(** ** Running a command (util/util.ts) *)

(** How a child process ends: it could not be run at all, or it exited with
    a code and its two output streams. *)
Inductive ProcessOutcome :=
| ProcessFailed (e : GardenError)
| ProcessExited (code : Z) (stdout stderr : option string).

(** The operating system's side of a spawn: command, arguments, working
    directory and environment, acting on the world. *)
Definition Runner : Type :=
  option string → list string → string → gmap string string → World →
  ProcessOutcome * World.

(** Modelled from the spec: [spawn] of util/util.ts is not among the embedded
    sources.  The specification lists "subprocess nonzero exit outside
    ignore-error" among the runtime errors, and runExecTask notes that "the
    spawn call throws on error"; so a nonzero exit code raises unless
    [ignoreError] is set, and every other exit returns code and output. *)
Definition spawn_model (run : Runner) (cmd : option string) (args : list string)
    (opts : SpawnOpts) : IO SpawnOutput := fun w =>
  match run cmd args (so_cwd opts) (so_env opts) w with
  | (ProcessFailed e, w') => (Throw e, w')
  | (ProcessExited code out err, w') =>
      if bool_decide (code = 0%Z) || default false (so_ignoreError opts) then
        (Ok {| so_code := code; so_stdout := out; so_stderr := err |}, w')
      else (Throw (mkError RuntimeError "Process exited with a nonzero code"), w')
  end.

(** ** Reading the calls of a run *)

Definition isPrepareCall (ev : RPEvent) : bool :=
  match ev with CallPrepareEnvironment _ _ _ => true | _ => false end.

(** The [prepareEnvironment] calls of a run. *)
Definition prepareCalls (tr : list RPEvent) : list RPEvent :=
  List.filter isPrepareCall tr.

(** The validations of a run: schema, validated config and config type of
    each [validateWithPath] call, in order. *)
Definition validations (tr : list RPEvent) : list (Schema * ProviderConfig * string) :=
  omap (fun ev => match ev with
                  | Validate s c t => Some (s, c, t)
                  | _ => None
                  end) tr.

Definition isTestModuleCall (ev : TestEvent) : bool :=
  match ev with CallTestModule _ _ _ => true | _ => false end.

(** The [testModule] handler calls of a run. *)
Definition testModuleCalls (tr : list TestEvent) : list TestEvent :=
  List.filter isTestModuleCall tr.

Definition isGetTestResultCall (ev : TestEvent) : bool :=
  match ev with CallGetTestResult _ _ _ => true | _ => false end.

(** The [getTestResult] handler calls of a run. *)
Definition getTestResultCalls (tr : list TestEvent) : list TestEvent :=
  List.filter isGetTestResultCall tr.

(** ** A glob matcher for [minimatch] *)

(** Modelled from the spec: [minimatch] is the npm package the filter of
    [getTestTasks] calls, not code of this repository, and the specification
    calls the filter a glob.  The model covers patterns made of literal
    characters, [*] (any run of characters) and [?] (any one character),
    matched against a whole name; the empty pattern matches the empty name
    only, as in the package. *)
Fixpoint glob (pattern name : string) : bool :=
  match pattern with
  | EmptyString => bool_decide (name = EmptyString)
  | String c pattern' =>
      if bool_decide (c = "*"%char) then
        (fix star (name : string) : bool :=
           glob pattern' name ||
           match name with
           | EmptyString => false
           | String _ name' => star name'
           end) name
      else
        match name with
        | EmptyString => false
        | String d name' =>
            (bool_decide (c = "?"%char) || bool_decide (c = d)) && glob pattern' name'
        end
  end.

Definition minimatch_glob (name pattern : string) : bool := glob pattern name.

(** ** Base chains, as the specification words them *)

(** The base chain of a plugin: its base, the base of its base, and so on up
    to a plugin without base, each looked up by name among the loaded
    plugins. *)
Inductive baseChain (plugins : PluginMap) : GardenPlugin → list GardenPlugin → Prop :=
| baseChain_nil plugin :
    namedBase plugin = None → baseChain plugins plugin []
| baseChain_cons plugin baseName base bases :
    namedBase plugin = Some baseName →
    plugins !! baseName = Some base →
    baseChain plugins base bases →
    baseChain plugins plugin (base :: bases).

(** A configured provider answers to a dependency name when it has that name
    or when the base chain of its plugin contains a plugin of that name. *)
Definition inherits (plugins : PluginMap) (c : ProviderConfig) (depName : string) : Prop :=
  pc_name c = depName ∨
  ∃ plugin bases,
    plugins !! pc_name c = Some plugin ∧ baseChain plugins plugin bases ∧
    depName ∈ map plugin_name bases.

(** What [ResolveProviderTask.matches] answers where it answers: the name is
    the dependency name, or the bases [getPluginBases] returns for the
    provider's plugin have a plugin of that name among them. *)
Definition selects (plugins : PluginMap) (depName : string) (c : ProviderConfig) : bool :=
  bool_decide (pc_name c = depName) ||
  match plugins !! pc_name c with
  | Some plugin =>
      match getPluginBases plugin plugins with
      | Ok bases => bool_decide (depName ∈ map plugin_name bases)
      | Throw _ => false
      end
  | None => false
  end.

(** ** Validation in sequence, as the specification words it *)

(** [chained validate root c vs c']: starting from the config [c], the
    validations [vs] were made one after the other, each of the output of
    the one before it with its path omitted, each accepted, and [c'] is the
    output of the last one (or [c] itself when there was none). *)
Inductive chained
    (validate : ProviderConfig → Schema → string → string → string → ErrorKind →
                Exc ProviderConfig) (root : string)
    : ProviderConfig → list (Schema * ProviderConfig * string) → ProviderConfig → Prop :=
| chained_nil c : chained validate root c [] c
| chained_cons c schema configType out vs c' :
    validate (omit_path c) schema root root configType ConfigurationError = Ok out →
    chained validate root out vs c' →
    chained validate root c ((schema, omit_path c, configType) :: vs) c'.

(** ** The test filter, as the specification words it *)

(** A test is wanted when its name glob-matches at least one pattern of the
    filter; without a filter, or with an empty one, every test is. *)
Definition globMatchesAny (I : TestImports) (names : list string) (test : TestConfig) : bool :=
  existsb (fun n => minimatch I (tc_name test) n) names.

Definition wantedTests (I : TestImports) (filterNames : option (list string))
    (module : Module) : list TestConfig :=
  match filterNames with
  | None | Some [] => m_testConfigs module
  | Some names => List.filter (globMatchesAny I names) (m_testConfigs module)
  end.

(** ** A sample project

    The provider-inheritance scenario of the specification: plugin [base-a]
    reports a ready environment with an output, [test-a] has [base-a] as its
    base, [test-b] declares a dependency on [base-a]; the project configures
    [test-a] and [test-b]. *)
Module Sample.

Definition readyStatus : EnvironmentStatus :=
  {| ready := true; outputs := {[ "foo" := VStr "bar" ]} |}.

Definition baseA : GardenPlugin :=
  {| plugin_name := "base-a"; plugin_base := None; plugin_dependencies := None;
     plugin_configSchema := None; plugin_handlers := None |}.

Definition testA : GardenPlugin :=
  {| plugin_name := "test-a"; plugin_base := Some "base-a"; plugin_dependencies := None;
     plugin_configSchema := None; plugin_handlers := None |}.

Definition testB : GardenPlugin :=
  {| plugin_name := "test-b"; plugin_base := None;
     plugin_dependencies := Some ["base-a"];
     plugin_configSchema := None; plugin_handlers := None |}.

Definition configA : ProviderConfig :=
  {| pc_name := "test-a"; pc_path := None; pc_fields := ∅ |}.

Definition configB : ProviderConfig :=
  {| pc_name := "test-b"; pc_path := None; pc_fields := ∅ |}.

(** The handler tables after inheritance: [test-a] answers
    [getEnvironmentStatus] with the handler of its base. *)
Definition actions : ActionHelper :=
  {| getEnvironmentStatusHandler := fun name =>
       if bool_decide (name = "test-a") || bool_decide (name = "base-a")
       then Some (fun _ => Ok readyStatus) else None;
     prepareEnvironmentHandler := fun _ => None;
     actions_getTestResult := fun _ => Ok None;
     actions_testModule := fun _ =>
       Throw (mkError OtherError "no test handler") |}.

Definition garden : Garden :=
  {| environmentName := "default";
     projectName := "test";
     projectRoot := "/project";
     getRawProviderConfigs := [configA; configB];
     getPlugins := Ok [baseA; testA; testB];
     getActionHelper := Ok actions;
     getPluginContext := fun p =>
       {| ctx_projectName := "test"; ctx_projectRoot := "/project"; ctx_provider := p |};
     resolveVersion := fun _ _ =>
       Ok {| versionString := "v-1"; dependencyVersions := ∅; files := [] |} |}.

(** Imports for the sample: the dependency names are the declared ones (the
    sample configs have no template strings), template resolution leaves a
    config without templates as it is, and validation is the model above. *)
Definition imports : Imports :=
  {| getAllProviderDependencyNames := fun p _ =>
       Ok (default [] (p ≫= plugin_dependencies));
     resolveTemplateStrings := fun c _ => Ok c;
     validateWithPath := validateWithPath_model;
     defaultEnvironmentStatus := {| ready := true; outputs := ∅ |} |}.

Definition version0 : ModuleVersion :=
  {| versionString := "v-0"; dependencyVersions := ∅; files := [] |}.

Definition taskB (forceInit : bool) : ResolveProviderTask.t :=
  ResolveProviderTask.mk garden (Some testB) configB version0 forceInit.

(** [test-b] as it would be with a dependency on a plugin, [postgres], that
    no configured provider answers to. *)
Definition testB' : GardenPlugin :=
  {| plugin_name := "test-b"; plugin_base := None;
     plugin_dependencies := Some ["postgres"];
     plugin_configSchema := None; plugin_handlers := None |}.

Definition taskB' : ResolveProviderTask.t :=
  ResolveProviderTask.mk garden (Some testB') configB version0 false.

Definition tmpB : Provider :=
  providerFromConfig (set_path "/project" configB) [] [] (defaultEnvironmentStatus imports).

(** Module [module-a] of the sample with its tests [unit], [integration]
    and [integ]; a stored result for [unit] that failed, and the handler's
    fresh, passing run. *)
Definition echoOK (name : string) : TestConfig :=
  {| tc_name := name; tc_dependencies := [];
     tc_spec := {| ts_name := name; ts_dependencies := []; ts_timeout := None;
                   ts_command := ["echo"; "OK"]; ts_env := ∅ |};
     tc_timeout := None |}.

Definition moduleA : Module :=
  {| m_name := "module-a"; m_path := "/project/module-a";
     m_buildPath := "/project/.garden/build/module-a";
     m_buildMetadataPath := "/project/.garden/build-metadata/module-a";
     m_version := version0;
     m_build_dependencies := [];
     m_spec := {| spec_local := Some false;
                  spec_build := {| bs_command := ["echo"; "A"]; bs_dependencies := [] |};
                  spec_env := ∅; spec_tasks := []; spec_tests := [] |};
     m_testConfigs := [echoOK "unit"; echoOK "integration"; echoOK "integ"] |}.

Definition storedFailure : TestResult :=
  {| res_moduleName := "module-a"; res_command := ["echo"; "OK"]; res_testName := "unit";
     res_version := "v-1"; res_success := false; res_startedAt := 0; res_completedAt := 1;
     res_log := "FAILED" |}.

Definition storedSuccess : TestResult :=
  {| res_moduleName := "module-a"; res_command := ["echo"; "OK"]; res_testName := "unit";
     res_version := "v-1"; res_success := true; res_startedAt := 0; res_completedAt := 1;
     res_log := "OK" |}.

Definition freshSuccess : TestResult :=
  {| res_moduleName := "module-a"; res_command := ["echo"; "OK"]; res_testName := "unit";
     res_version := "v-1"; res_success := true; res_startedAt := 5; res_completedAt := 6;
     res_log := "OK" |}.

Definition testActions (stored : option TestResult) : ActionHelper :=
  {| getEnvironmentStatusHandler := fun _ => None;
     prepareEnvironmentHandler := fun _ => None;
     actions_getTestResult := fun _ => Ok stored;
     actions_testModule := fun _ => Ok freshSuccess |}.

Definition testGarden (stored : option TestResult) : Garden :=
  {| environmentName := "default";
     projectName := "test";
     projectRoot := "/project";
     getRawProviderConfigs := [];
     getPlugins := Ok [];
     getActionHelper := Ok (testActions stored);
     getPluginContext := fun p =>
       {| ctx_projectName := "test"; ctx_projectRoot := "/project"; ctx_provider := p |};
     resolveVersion := fun _ deps =>
       Ok {| versionString := "v-1";
             dependencyVersions := list_to_map (map (fun m => (m_name m, "v-0")) deps);
             files := [] |} |}.

Definition noDependencies : DependencyRelations :=
  {| dr_build := []; dr_service := []; dr_task := []; dr_test := [] |}.

Definition moduleLib : Module :=
  {| m_name := "module-lib"; m_path := "/project/module-lib";
     m_buildPath := "/project/.garden/build/module-lib";
     m_buildMetadataPath := "/project/.garden/build-metadata/module-lib";
     m_version := version0;
     m_build_dependencies := [];
     m_spec := {| spec_local := Some false;
                  spec_build := {| bs_command := []; bs_dependencies := [] |};
                  spec_env := ∅; spec_tasks := []; spec_tests := [] |};
     m_testConfigs := [] |}.

(** A graph in which the dependencies of every test of [module-a] resolve to
    [module-a] itself (through a service or task of the module) and
    [module-lib]. *)
Definition testGraph : ConfigGraph :=
  {| graph_getDependencies := fun _ _ _ => Ok noDependencies;
     resolveDependencyModules := fun _ _ => Ok [moduleA; moduleLib] |}.

Definition testTask (stored : option TestResult) (force : bool) : TestTask.t :=
  TestTask.mk (testGarden stored) testGraph moduleA (echoOK "unit") force false
    {| versionString := "v-1"; dependencyVersions := ∅; files := [] |}.

Definition testImports : TestImports :=
  {| minimatch := minimatch_glob;
     getServiceStatuses := fun _ => ∅;
     getRunTaskResults := fun _ => ∅;
     prepareRuntimeContext := fun _ _ _ _ statuses results =>
       Ok {| rc_envVars := ∅; rc_serviceStatuses := statuses; rc_taskResults := results |} |}.

(** The exec plugin in the sample: [echo] prints its arguments and exits
    with 0, [false] exits with 1, nothing else can be run; each run takes one
    tick of the clock. *)
Definition tick (w : World) : World := {| fs := fs w; clock := (clock w + 1)%Z |}.

Definition runner : Runner := fun cmd args _ _ w =>
  match cmd with
  | Some c =>
      if bool_decide (c = "echo") then
        (ProcessExited 0 (Some (String.concat " " args +:+ newline)) None, tick w)
      else if bool_decide (c = "false") then
        (ProcessExited 1 None (Some "failed"), tick w)
      else (ProcessFailed (mkError OtherError ("spawn " +:+ c +:+ " ENOENT")), w)
  | None => (ProcessFailed (mkError TypeError "The file argument must be of type string"), w)
  end.

Definition execImports : ExecImports :=
  {| spawn := spawn_model runner;
     readModuleVersionFile := Vcs.readModuleVersionFile;
     writeModuleVersionFile := Vcs.writeModuleVersionFile;
     validateSpec := fun spec _ _ _ =>
       Ok {| spec_local := Some (default false (spec_local spec));
             spec_build := spec_build spec;
             spec_env := spec_env spec;
             spec_tasks := spec_tasks spec;
             spec_tests := spec_tests spec |};
     join := fun a b => a +:+ "/" +:+ b;
     GARDEN_BUILD_VERSION_FILENAME := "garden-build-version";
     process_env := ∅ |}.

Definition emptyWorld : World := {| fs := ∅; clock := 0 |}.

(** A local module with two build dependencies, of which only [dep-b] has a
    copy spec. *)
Definition localConfig : ExecModuleConfig :=
  {| cfg_name := "module-local";
     cfg_path := "/project/module-local";
     cfg_build_dependencies :=
       [ {| bd_name := "dep-a"; bd_copy := [] |};
         {| bd_name := "dep-b";
            bd_copy := [ {| copy_source := "out"; copy_target := "in" |} ] |} ];
     cfg_spec := {| spec_local := Some true;
                    spec_build := {| bs_command := []; bs_dependencies := [] |};
                    spec_env := ∅; spec_tasks := []; spec_tests := [] |};
     cfg_taskConfigs := [];
     cfg_testConfigs := [] |}.

(** A test whose command exits with 1, and a task with the same command. *)
Definition failingTest : TestConfig :=
  {| tc_name := "unit"; tc_dependencies := [];
     tc_spec := {| ts_name := "unit"; ts_dependencies := []; ts_timeout := None;
                   ts_command := ["false"]; ts_env := ∅ |};
     tc_timeout := None |}.

Definition failingTask : ExecTask :=
  {| task_name := "banana"; task_module := moduleA;
     task_spec := {| tk_name := "banana"; tk_dependencies := []; tk_timeout := None;
                     tk_command := ["false"]; tk_env := ∅ |} |}.

(** A plugin with a base, each with a config schema: the plugin lets [mode]
    be ["fast"] only, the base fills in ["safe"] where [mode] is not set. *)
Definition schemaC : Schema :=
  {| sc_keys := [ {| kr_key := "mode"; kr_type := TString; kr_required := false;
                     kr_default := None; kr_allowed := Some [VStr "fast"] |} ];
     sc_unknown := true |}.

Definition schemaBaseC : Schema :=
  {| sc_keys := [ {| kr_key := "mode"; kr_type := TString; kr_required := false;
                     kr_default := Some (VStr "safe"); kr_allowed := None |} ];
     sc_unknown := true |}.

Definition baseC : GardenPlugin :=
  {| plugin_name := "base-c"; plugin_base := None; plugin_dependencies := None;
     plugin_configSchema := Some schemaBaseC; plugin_handlers := None |}.

Definition testC : GardenPlugin :=
  {| plugin_name := "test-c"; plugin_base := Some "base-c"; plugin_dependencies := None;
     plugin_configSchema := Some schemaC; plugin_handlers := None |}.

Definition configC : ProviderConfig :=
  {| pc_name := "test-c"; pc_path := None; pc_fields := ∅ |}.

Definition gardenC : Garden :=
  {| environmentName := "default";
     projectName := "test";
     projectRoot := "/project";
     getRawProviderConfigs := [configC];
     getPlugins := Ok [baseC; testC];
     getActionHelper := Ok actions;
     getPluginContext := fun p =>
       {| ctx_projectName := "test"; ctx_projectRoot := "/project"; ctx_provider := p |};
     resolveVersion := fun _ _ => Ok version0 |}.

Definition taskC : ResolveProviderTask.t :=
  ResolveProviderTask.mk gardenC (Some testC) configC version0 false.

(** The config [process] publishes for [test-c]. *)
Definition publishedC : ProviderConfig :=
  {| pc_name := "test-c"; pc_path := None; pc_fields := {[ "mode" := VStr "safe" ]} |}.

End Sample.

(** ** Plain objects read as maps *)

(** The names of the properties that every plain object inherits from
    [Object.prototype]. *)
Definition objectPrototypeNames : list string :=
  ["constructor"; "__defineGetter__"; "__defineSetter__"; "hasOwnProperty";
   "__lookupGetter__"; "__lookupSetter__"; "isPrototypeOf"; "propertyIsEnumerable";
   "toString"; "valueOf"; "__proto__"; "toLocaleString"].

(** [keyBy] returns a plain object, and [loadedPlugins[name]] reads it: it
    gives the plugin keyed by [name] if there is one, else what the object
    inherits under [name] (the function [Object] for [constructor], say),
    else undefined.  A [PluginMap] holds the plugins only, so a lookup in it
    agrees with the read unless the name is not a key and is inherited.
    [readsOwn plugins name]: reading [name] gives what the map has, a plugin
    or nothing. *)
Definition readsOwn (plugins : PluginMap) (name : string) : Prop :=
  is_Some (plugins !! name) ∨ name ∉ objectPrototypeNames.

#[global] Instance readsOwn_dec plugins name : Decision (readsOwn plugins name).
Proof. unfold readsOwn. apply _. Defined.

(** The base that a plugin names is read as the map has it. *)
Definition baseReadsOwn (plugins : PluginMap) (plugin : GardenPlugin) : Prop :=
  from_option (readsOwn plugins) True (namedBase plugin).

#[global] Instance baseReadsOwn_dec plugins plugin : Decision (baseReadsOwn plugins plugin).
Proof. unfold baseReadsOwn. destruct (namedBase plugin); apply _. Defined.

(** So is the base of every plugin of the map: following base names from a
    plugin of the map, every read is answered from the map. *)
Definition basesReadOwn (plugins : PluginMap) : Prop :=
  map_Forall (fun _ plugin => baseReadsOwn plugins plugin) plugins.

#[global] Instance basesReadOwn_dec plugins : Decision (basesReadOwn plugins).
Proof. unfold basesReadOwn. apply _. Defined.

(** Every read that [ResolveProviderTask.getDependencies] makes of the object
    of loaded plugins is answered as the map has it: the base names, the
    dependency names and the names of the configured providers. *)
Definition providersReadOwn (plugins : PluginMap) (depNames : list string)
    (raw : list ProviderConfig) : Prop :=
  basesReadOwn plugins ∧ Forall (readsOwn plugins) depNames ∧
  Forall (fun c => readsOwn plugins (pc_name c)) raw.

#[global] Instance providersReadOwn_dec plugins depNames raw :
  Decision (providersReadOwn plugins depNames raw).
Proof. unfold providersReadOwn. apply _. Defined.

(** ** resolve-provider.ts: bases that are not loaded; dependencies of plugins *)

(** The error [getPluginBases] raises for a base that is not loaded. *)
Definition baseNotFound (baseName : string) (plugin : GardenPlugin) : GardenError :=
  mkError RuntimeError
    ("Unable to find base plugin '" +:+ baseName +:+ "' for plugin '" +:+
     plugin_name plugin +:+ "'").

(** A base chain that breaks off: following [base] names from [plugin] leads
    through the loaded plugins [bases] to a plugin whose base, [missing], is
    not loaded. *)
Inductive brokenChain (plugins : PluginMap) : GardenPlugin → list GardenPlugin → string → Prop :=
| brokenChain_here plugin missing :
    namedBase plugin = Some missing →
    plugins !! missing = None →
    brokenChain plugins plugin [] missing
| brokenChain_later plugin baseName base bases missing :
    namedBase plugin = Some baseName →
    plugins !! baseName = Some base →
    brokenChain plugins base bases missing →
    brokenChain plugins plugin (base :: bases) missing.

(** lodash [uniq] on plugins: the entries are gone through in order and an
    entry is kept unless the same plugin was kept before.  lodash compares
    the entries as objects; the entries are values of [loadedPlugins], and in
    a map that holds every plugin under its own name (such as [keyBy] builds)
    two of them are the same object exactly when they have the same name,
    which is how they are compared here. *)
Definition uniq (plugins : list GardenPlugin) : list GardenPlugin :=
  foldl (fun seen p =>
           if bool_decide (plugin_name p ∈ map plugin_name seen) then seen else seen ++ [p])
        [] plugins.

(** A map that holds every plugin under its own name. *)
Definition keyedByName (plugins : PluginMap) : Prop :=
  ∀ k p, plugins !! k = Some p → plugin_name p = k.

(** [plugin.dependencies || []]. *)
Definition declaredDependencies (plugin : GardenPlugin) : list string :=
  default [] (plugin_dependencies plugin).

(** The dependencies that a plugin declares are read as the map has them,
    and so are those of every plugin of the map. *)
Definition dependenciesReadOwn (plugins : PluginMap) (plugin : GardenPlugin) : Prop :=
  Forall (readsOwn plugins) (declaredDependencies plugin).

#[global] Instance dependenciesReadOwn_dec plugins plugin :
  Decision (dependenciesReadOwn plugins plugin).
Proof. unfold dependenciesReadOwn. apply _. Defined.

Definition allDependenciesReadOwn (plugins : PluginMap) : Prop :=
  map_Forall (fun _ plugin => dependenciesReadOwn plugins plugin) plugins.

#[global] Instance allDependenciesReadOwn_dec plugins :
  Decision (allDependenciesReadOwn plugins).
Proof. unfold allDependenciesReadOwn. apply _. Defined.

(** The error [getPluginDependencies] raises for a dependency that is not
    loaded (the quote after the dependency's name is not closed in the
    source either). *)
Definition dependencyNotFound (depName : string) (plugin : GardenPlugin) : GardenError :=
  mkError RuntimeError
    ("Unable to find dependency '" +:+ depName +:+ " for plugin '" +:+
     plugin_name plugin +:+ "'").

(** [getPluginDependencies].  The recursion follows the declared dependencies
    through the map, depth first; on a cyclic dependency the source recurses
    until the call stack overflows.  A path of calls that is not cyclic
    looks up each key of the map at most once, so [S (size loadedPlugins)]
    nested calls are enough for it, and running out of them is the
    overflow.  [loadedPlugins[depName]] is the lookup in the map, which is
    what the object gives for every dependency name that [readsOwn] holds
    of. *)
Fixpoint getPluginDependencies_rec (depth : nat) (plugin : GardenPlugin)
    (loadedPlugins : PluginMap) : Exc (list GardenPlugin) :=
  match depth with
  | O => Throw (mkError RangeError "Maximum call stack size exceeded")
  | S depth =>
      rows ← mapM (fun depName =>
                     match loadedPlugins !! depName with
                     | None => Throw (dependencyNotFound depName plugin)
                     | Some depPlugin =>
                         rest ← getPluginDependencies_rec depth depPlugin loadedPlugins;
                         mret (depPlugin :: rest)
                     end)
                  (declaredDependencies plugin);
      mret (uniq (mjoin rows))
  end.

Definition getPluginDependencies (plugin : GardenPlugin) (loadedPlugins : PluginMap)
    : Exc (list GardenPlugin) :=
  getPluginDependencies_rec (S (size loadedPlugins)) plugin loadedPlugins.

(** [dependsOn plugins plugin dep]: [dep] is the loaded plugin of a declared
    dependency of [plugin], or of a declared dependency of such a plugin, and
    so on. *)
Inductive dependsOn (plugins : PluginMap) : GardenPlugin → GardenPlugin → Prop :=
| dependsOn_direct plugin depName dep :
    depName ∈ declaredDependencies plugin →
    plugins !! depName = Some dep →
    dependsOn plugins plugin dep
| dependsOn_indirect plugin depName dep dep' :
    depName ∈ declaredDependencies plugin →
    plugins !! depName = Some dep →
    dependsOn plugins dep dep' →
    dependsOn plugins plugin dep'.

Module SampleDeps.

Definition plugin (name : string) (dependencies : list string) : GardenPlugin :=
  {| plugin_name := name; plugin_base := None; plugin_dependencies := Some dependencies;
     plugin_configSchema := None; plugin_handlers := None |}.

(** [app] needs [db] and [cache], both of which need [net]. *)
Definition net : GardenPlugin := plugin "net" [].
Definition db : GardenPlugin := plugin "db" ["net"].
Definition cache : GardenPlugin := plugin "cache" ["net"].
Definition app : GardenPlugin := plugin "app" ["db"; "cache"].

Definition loaded : PluginMap := keyBy [net; db; cache; app].

(** [ping] and [pong] need each other; [lonely] needs a plugin that is not
    loaded. *)
Definition ping : GardenPlugin := plugin "ping" ["pong"].
Definition pong : GardenPlugin := plugin "pong" ["ping"].
Definition lonely : GardenPlugin := plugin "lonely" ["net"; "ghost"].

Definition tangled : PluginMap := keyBy [net; ping; pong; lonely].

End SampleDeps.

(** ** Reading the calls of [ResolveProviderTask.process] *)

(** Whether the validation recorded by a [Validate] call was accepted; every
    other call counts as passed. *)
Definition validationPassed (I : Imports) (root : string) (ev : RPEvent) : Prop :=
  match ev with
  | Validate schema config configType =>
      is_Ok (validateWithPath I config schema root root configType ConfigurationError) = true
  | _ => True
  end.

(** The calls of plugin handlers. *)
Definition isHandlerCall (ev : RPEvent) : bool :=
  match ev with
  | CallConfigureProvider _ | CallGetEnvironmentStatus _ | CallPrepareEnvironment _ _ _ => true
  | _ => false
  end.

Definition configureCalls (tr : list RPEvent) : list ProviderConfig :=
  omap (fun ev => match ev with CallConfigureProvider c => Some c | _ => None end) tr.

(** ** The tasks a test task depends on *)

(** What the constructors of [BuildTask] and [DeployTask] and the factory of
    [TaskTask] (tasks/build.ts, tasks/deploy.ts, tasks/task.ts) are given; a
    service or task of the graph is written by its name. *)
Record BuildTaskParams := {
  bt_garden : Garden;
  bt_module : Module;
  bt_force : bool;
}.

Record DeployTaskParams := {
  dt_garden : Garden;
  dt_graph : ConfigGraph;
  dt_service : string;
  dt_force : bool;
  dt_forceBuild : bool;
}.

Record TaskTaskParams := {
  tt_task : string;
  tt_garden : Garden;
  tt_graph : ConfigGraph;
  tt_force : bool;
  tt_forceBuild : bool;
}.

(** A dependency of a test task: a [BuildTask] or [DeployTask] as
    constructed, or the [TaskTask] its factory returned. *)
Inductive DependencyTask (TaskTask : Type) :=
| BuildTask (params : BuildTaskParams)
| DeployTask (params : DeployTaskParams)
| TaskTaskOf (task : TaskTask).
Arguments BuildTask {TaskTask} params.
Arguments DeployTask {TaskTask} params.
Arguments TaskTaskOf {TaskTask} task.

(** What [TestTask.getDependencies] and [getName] import from modules outside
    the embedded sources. *)
Record TestDependencyImports (TaskTask : Type) := {
  makeTestTaskName : string → string → string;
  TaskTask_factory : TaskTaskParams → Exc TaskTask;
}.
Arguments makeTestTaskName {TaskTask} _ _ _.
Arguments TaskTask_factory {TaskTask} _ _.

Module TestTaskDependencies.
Section Methods.
Context {TaskTask : Type}.
Variable J : TestDependencyImports TaskTask.

Definition getName (this : TestTask.t) : string :=
  makeTestTaskName J (m_name (TestTask.module this)) (tc_name (TestTask.testConfig this)).

Definition getDescription (this : TestTask.t) : string :=
  "running " +:+ tc_name (TestTask.testConfig this) +:+ " tests in module " +:+
  m_name (TestTask.module this).

(** [testResult && testResult.success]. *)
Definition passedBefore (testResult : option TestResult) : bool :=
  match testResult with
  | Some r => res_success r
  | None => false
  end.

Definition getDependencies (this : TestTask.t) : Eff TestEvent (list (DependencyTask TaskTask)) :=
  testResult ← TestTask.getTestResult this;
  if passedBefore testResult then mret []
  else
    let dg := TestTask.graph this in
    deps ← lift (graph_getDependencies dg "test" (getName this) false);
    let buildTask :=
      BuildTask {| bt_garden := TestTask.garden this;
                   bt_module := TestTask.module this;
                   bt_force := TestTask.forceBuild this |} in
    taskTasks ← lift (mapM (fun task =>
                   TaskTask_factory J
                     {| tt_task := task;
                        tt_garden := TestTask.garden this;
                        tt_graph := TestTask.graph this;
                        tt_force := TestTask.force this;
                        tt_forceBuild := TestTask.forceBuild this |})
                 (dr_task deps));
    let serviceTasks :=
      map (fun service =>
             DeployTask {| dt_garden := TestTask.garden this;
                           dt_graph := TestTask.graph this;
                           dt_service := service;
                           dt_force := false;
                           dt_forceBuild := TestTask.forceBuild this |})
          (dr_service deps) in
    mret (buildTask :: serviceTasks ++ map TaskTaskOf taskTasks).

End Methods.
End TestTaskDependencies.

(** ** plugins/kubernetes/init.ts

    The environment handlers of the kubernetes provider.  Everything they do
    to the cluster goes through helpers of other modules (the Kubernetes API,
    helm, the system Garden), whose answers depend on the state of the
    cluster and change it.  A handler is therefore a computation on a state
    [W] of which nothing is known, that calls helpers given as functions on
    that state, raises or returns, and leaves the list of the calls it made
    ([Act]). *)

(** A pod as far as [checkCertManagerStatus] reads and writes it. *)
Record Pod := mkPod {
  pod_name : string;
  pod_apiVersion : option string;
  pod_kind : option string;
}.

(** [ResourceStatus] (status/status.ts); a state is one of the strings of
    [ServiceState]. *)
Record ResourceStatus := {
  rs_state : string;
  rs_resource : Pod;
}.

(** [KubernetesConfig] (config.ts), with the fields init.ts reads. *)
Record ResourceAmounts := { ra_cpu : Z; ra_memory : Z }.
Record ResourceRange := { rr_limits : ResourceAmounts; rr_requests : ResourceAmounts }.
Record KubernetesResources := {
  kres_builder : ResourceRange;
  kres_registry : ResourceRange;
  kres_sync : ResourceRange;
}.
Record StorageSize := { ss_size : Z; ss_storageClass : option string }.
Record KubernetesStorage := {
  ks_builder : StorageSize;
  ks_registry : StorageSize;
  ks_sync : StorageSize;
}.

Record KubernetesConfig := {
  kc_buildMode : string;
  kc_defaultHostname : option string;
  kc_namespace : option string;
  kc_resources : KubernetesResources;
  kc_storage : KubernetesStorage;
  kc_tlsManager : option string;
  kc_systemServices : list string;
}.

Record KubernetesProvider := {
  kp_name : string;
  kp_config : KubernetesConfig;
}.

Record CommandInfo := { ci_name : string }.

Record KubernetesPluginContext := {
  kx_provider : KubernetesProvider;
  kx_environmentName : string;
  kx_command : option CommandInfo;
}.

(** [ServiceStatus] and [ServiceStatusMap] (types/service.ts): an object from
    service names to statuses, in the order of its keys. *)
Record ServiceStatus := { sst_state : option string }.
Abbreviation ServiceStatusMap := (list (string * option ServiceStatus)).

Record DashboardPage := { dp_title : string; dp_url : string }.

(** The [detail] the provider attaches to its environment status. *)
Record StatusDetail := {
  projectReady : bool;
  serviceStatuses : ServiceStatusMap;
  systemReady : bool;
  systemServiceState : string;
  systemTillerReady : bool;
  systemCertManagerReady : bool;
}.

(** [EnvironmentStatus], with the optional [detail] and [dashboardPages];
    an output is a string or null. *)
Record KubernetesStatus := {
  kst_ready : bool;
  kst_detail : option StatusDetail;
  kst_dashboardPages : option (list DashboardPage);
  kst_outputs : gmap string (option string);
}.

(** What [getSystemServiceStatus] (system.ts) returns. *)
Record SystemServiceStatus := {
  sys_state : string;
  sys_serviceStatuses : ServiceStatusMap;
  sys_dashboardPages : list DashboardPage;
}.

(** The calls of helpers and of the logger that the handlers make. *)
Inductive K8sCall :=
| CallPrepareNamespaces (ctx : KubernetesPluginContext)
| CallCheckTillerStatus (ctx : KubernetesPluginContext)
| CallInstallTiller (ctx : KubernetesPluginContext) (force : bool)
| CallGetSystemGarden (ctx : KubernetesPluginContext)
| CallResolveProvider (name : string)
| CallGetPluginContext (provider : KubernetesProvider)
| CallKubeApiFactory (provider : KubernetesProvider)
| CallListNamespacedPod (namespace : string)
| CallCheckResourceStatuses (namespace : string) (pods : list Pod)
| CallSystemNamespaceUpToDate (namespace contextForLog : string)
| CallGetSystemServiceStatus (namespace : string) (serviceNames : list string)
| CallPrepareSystemServices (namespace : string) (force : bool) (serviceNames : list string)
| CallGetAppNamespace
| CallDeleteNamespaces (namespaces : list string)
| CallReadFile (path : string)
| CallSafeLoadAll
| CallApply (namespace : string)
| CallPatchNamespace (namespace : string)
| CallHelm (namespace : string) (args : list string)
| LogWarn (msg : string)
| LogEntry (section msg : string)
| ConsoleLog (msg : string)
| SystemLogSetSuccess.

(** A handler run from a state: the calls made, the error raised or the
    value returned, and the state left. *)
Definition Act (W A : Type) : Type := W → list K8sCall * Exc A * W.

#[global] Instance Act_ret {W} : MRet (Act W) := fun _ a w => ([], Ok a, w).
#[global] Instance Act_bind {W} : MBind (Act W) := fun _ _ f m w =>
  match m w with
  | (tr, Throw e, w') => (tr, Throw e, w')
  | (tr, Ok a, w') =>
      match f a w' with
      | (tr', r, w'') => (tr ++ tr', r, w'')
      end
  end.

(** A call of a helper, recorded. *)
Definition invoke {W A} (c : K8sCall) (helper : W → Exc A * W) : Act W A := fun w =>
  match helper w with
  | (r, w') => ([c], r, w')
  end.

(** A call of the logger. *)
Definition logged {W} (c : K8sCall) : Act W unit := fun w => ([c], Ok tt, w).

(** A synchronous step that may raise. *)
Definition evaluate {W A} (r : Exc A) : Act W A := fun w => ([], r, w).

Definition callsOf {W A} (r : list K8sCall * Exc A * W) : list K8sCall := r.1.1.
Definition resultOf {W A} (r : list K8sCall * Exc A * W) : Exc A := r.1.2.

(** [String.prototype.includes]. *)
Fixpoint includes (s sub : string) : bool :=
  String.prefix sub s ||
  match s with
  | EmptyString => false
  | String _ s' => includes s' sub
  end.

Module KubernetesInit.

(** The API client ([KubeApi], api.ts), with the two calls made here. *)
Record KubeApi (W : Type) := {
  listNamespacedPod : string → W → Exc (list Pod) * W;
  patchNamespace : string → W → Exc unit * W;
}.
Arguments listNamespacedPod {W} _.
Arguments patchNamespace {W} _.

(** The Garden instance of the system namespace ([getSystemGarden],
    system.ts), with the two methods called here. *)
Record SystemGarden (W : Type) := {
  resolveProvider : string → W → Exc KubernetesProvider * W;
  sg_getPluginContext : KubernetesProvider → W → Exc KubernetesPluginContext * W;
}.
Arguments resolveProvider {W} _.
Arguments sg_getPluginContext {W} _.

(** What init.ts imports from modules outside the embedded sources.  The
    manifests that [safeLoadAll] reads are kept as their text, an empty
    document being null. *)
Record Imports (W : Type) := {
  systemNamespace : string;
  STATIC_DIR : string;
  join : list string → string;
  millicpuToString : Z → string;
  megabytesToString : Z → string;
  combineStates : list string → string;
  prepareNamespaces : KubernetesPluginContext → W → Exc (gmap string string) * W;
  getAppNamespace : KubernetesPluginContext → KubernetesProvider → W → Exc string * W;
  deleteNamespaces : list string → KubeApi W → W → Exc unit * W;
  checkTillerStatus : KubernetesPluginContext → W → Exc string * W;
  installTiller : KubernetesPluginContext → KubernetesProvider → bool → W → Exc unit * W;
  getSystemGarden :
    KubernetesPluginContext → gmap string (option string) → W → Exc (SystemGarden W) * W;
  getSystemServiceStatus :
    KubernetesPluginContext → SystemGarden W → string → list string →
    W → Exc SystemServiceStatus * W;
  prepareSystemServices :
    SystemGarden W → string → bool → KubernetesPluginContext → list string → W → Exc unit * W;
  systemNamespaceUpToDate : KubeApi W → string → string → W → Exc bool * W;
  KubeApi_factory : KubernetesProvider → W → Exc (KubeApi W) * W;
  checkResourceStatuses : KubeApi W → string → list Pod → W → Exc (list ResourceStatus) * W;
  readFile : string → W → Exc string * W;
  safeLoadAll : string → Exc (list (option string));
  apply : KubernetesProvider → list string → string → W → Exc unit * W;
  helm : KubernetesPluginContext → string → list string → W → Exc string * W;
}.
Arguments systemNamespace {W} _.
Arguments STATIC_DIR {W} _.
Arguments join {W} _.
Arguments millicpuToString {W} _.
Arguments megabytesToString {W} _.
Arguments combineStates {W} _.
Arguments prepareNamespaces {W} _.
Arguments getAppNamespace {W} _.
Arguments deleteNamespaces {W} _.
Arguments checkTillerStatus {W} _.
Arguments installTiller {W} _.
Arguments getSystemGarden {W} _.
Arguments getSystemServiceStatus {W} _.
Arguments prepareSystemServices {W} _.
Arguments systemNamespaceUpToDate {W} _.
Arguments KubeApi_factory {W} _.
Arguments checkResourceStatuses {W} _.
Arguments readFile {W} _.
Arguments safeLoadAll {W} _.
Arguments apply {W} _.
Arguments helm {W} _.

Section Handlers.
Context {W : Type}.
Variable K : Imports W.

Definition nfsStorageClass : string := "garden-system-nfs".

Definition getRegistryHostname : string :=
  "garden-docker-registry." +:+ systemNamespace K +:+ ".svc.cluster.local".

(** [s || d] for [s: string | null]. *)
Definition orElse (s : option string) (d : string) : string :=
  if truthy s then default d s else d.

Definition getKubernetesSystemVariables (config : KubernetesConfig)
    : gmap string (option string) :=
  let cpu := fun amounts => Some (millicpuToString K (ra_cpu amounts)) in
  let memory := fun amounts => Some (megabytesToString K (ra_memory amounts)) in
  let size := fun storage => Some (megabytesToString K (ss_size storage)) in
  let resources := kc_resources config in
  let storage := kc_storage config in
  list_to_map
    [ ("namespace", Some (systemNamespace K));
      ("registry-hostname", Some getRegistryHostname);
      ("builder-mode", Some (kc_buildMode config));
      ("builder-limits-cpu", cpu (rr_limits (kres_builder resources)));
      ("builder-limits-memory", memory (rr_limits (kres_builder resources)));
      ("builder-requests-cpu", cpu (rr_requests (kres_builder resources)));
      ("builder-requests-memory", memory (rr_requests (kres_builder resources)));
      ("builder-storage-size", size (ks_builder storage));
      ("builder-storage-class", ss_storageClass (ks_builder storage));
      ("registry-limits-cpu", cpu (rr_limits (kres_registry resources)));
      ("registry-limits-memory", memory (rr_limits (kres_registry resources)));
      ("registry-requests-cpu", cpu (rr_requests (kres_registry resources)));
      ("registry-requests-memory", memory (rr_requests (kres_registry resources)));
      ("registry-storage-size", size (ks_registry storage));
      ("registry-storage-class", ss_storageClass (ks_registry storage));
      ("sync-limits-cpu", cpu (rr_limits (kres_sync resources)));
      ("sync-limits-memory", memory (rr_limits (kres_sync resources)));
      ("sync-requests-cpu", cpu (rr_requests (kres_sync resources)));
      ("sync-requests-memory", memory (rr_requests (kres_sync resources)));
      ("sync-storage-size", size (ks_sync storage));
      ("sync-storage-class",
       Some (orElse (ss_storageClass (ks_sync storage)) nfsStorageClass)) ].

(** [checkCertManagerStatus]: the pods of the system namespace with
    "cert-manager" in their name are marked as v1 Pods and, if there are
    three of them, checked. *)
Definition checkCertManagerStatus (provider : KubernetesProvider) : Act W string :=
  api ← invoke (CallKubeApiFactory provider) (KubeApi_factory K provider);
  systemPods ← invoke (CallListNamespacedPod (systemNamespace K))
                  (listNamespacedPod api (systemNamespace K));
  let certManagerPods :=
    map (fun pod => {| pod_name := pod_name pod;
                       pod_apiVersion := Some "v1";
                       pod_kind := Some "Pod" |})
        (List.filter (fun pod => includes (pod_name pod) "cert-manager") systemPods) in
  if bool_decide (length certManagerPods ≠ 3%nat) then mret "missing"
  else
    podsStatuses ← invoke (CallCheckResourceStatuses (systemNamespace K) certManagerPods)
                     (checkResourceStatuses K api (systemNamespace K) certManagerPods);
    let notReady := List.filter (fun p => negb (bool_decide (rs_state p = "ready")))
                      podsStatuses in
    match notReady with
    | p :: _ => mret (rs_state p)
    | [] => mret "ready"
    end.

Definition installCertManager (ctx : KubernetesPluginContext) (provider : KubernetesProvider)
    : Act W string :=
  api ← invoke (CallKubeApiFactory provider) (KubeApi_factory K provider);
  let customResourcesPath :=
    join K [STATIC_DIR K; "kubernetes"; "system"; "cert-manager"; "cert-manager-crd.yaml"] in
  text ← invoke (CallReadFile customResourcesPath) (readFile K customResourcesPath);
  documents ← invoke CallSafeLoadAll (fun w => (safeLoadAll K text, w));
  let crd := omap id documents in
  _ ← logged (ConsoleLog "Installing CRD");
  _ ← invoke (CallApply (systemNamespace K)) (apply K provider crd (systemNamespace K));
  _ ← invoke (CallPatchNamespace (systemNamespace K)) (patchNamespace api (systemNamespace K));
  let addRepoParams := ["repo"; "add"; "jetstack"; "https://charts.jetstack.io"] in
  _ ← invoke (CallHelm (systemNamespace K) addRepoParams)
         (helm K ctx (systemNamespace K) addRepoParams);
  _ ← invoke (CallHelm (systemNamespace K) ["repo"; "update"])
         (helm K ctx (systemNamespace K) ["repo"; "update"]);
  let installArgs :=
    ["install"; "--name"; "cert-manager"; "--namespace"; systemNamespace K;
     "--version"; "v0.10.1"; "jetstack/cert-manager"] in
  _ ← invoke (CallHelm (systemNamespace K) installArgs)
         (helm K ctx (systemNamespace K) installArgs);
  _ ← logged (ConsoleLog "Success?");
  mret "".

(** The state of a service of a status map: [(s && s.state) || "unknown"]. *)
Definition stateOf (s : option ServiceStatus) : string :=
  match s with
  | Some status => orElse (sst_state status) "unknown"
  | None => "unknown"
  end.

Definition outdatedWarning (ctx : KubernetesPluginContext) : string :=
  "One or more cluster-wide system services are outdated or their configuration does not " +:+
  "match your current configuration. You may want to run `garden --env=" +:+
  kx_environmentName ctx +:+
  " plugins kubernetes cluster-init` to update them, or contact a cluster admin to do so.".

Definition notReadyError (ctx : KubernetesPluginContext) : GardenError :=
  mkError OtherError
    ("One or more cluster-wide system services are missing or not ready. You need to run " +:+
     "`garden --env=" +:+ kx_environmentName ctx +:+
     " plugins kubernetes cluster-init` to initialize them, or contact a cluster admin " +:+
     "to do so, before deploying services to this cluster.").

(** [prepareSystem]; the error it raises is a KubernetesError, a class of the
    plugin. *)
Definition prepareSystem (ctx : KubernetesPluginContext) (force : bool)
    (status : KubernetesStatus) (clusterInit : bool) : Act W unit :=
  let provider := kx_provider ctx in
  let variables := getKubernetesSystemVariables (kp_config provider) in
  let systemReady :=
    match kst_detail status with
    | Some detail => systemReady detail && negb force
    | None => false
    end in
  let systemServiceNames := kc_systemServices (kp_config (kx_provider ctx)) in
  if bool_decide (length systemServiceNames = 0%nat) || systemReady then mret tt
  else
    let serviceStatuses :=
      match kst_detail status with
      | Some detail => serviceStatuses detail
      | None => []
      end in
    let serviceStates := map (fun entry => stateOf entry.2) serviceStatuses in
    let combinedState := combineStates K serviceStates in
    let remoteCluster := negb (bool_decide (kp_name provider = "local-kubernetes")) in
    if negb clusterInit && remoteCluster then
      _ ← (if bool_decide (combinedState = "outdated") &&
              negb (bool_decide ("missing" ∈ serviceStates))
           then logged (LogWarn (outdatedWarning ctx))
           else mret tt);
      mret tt
    else if negb clusterInit && remoteCluster && negb systemReady then
      let initCommandName := "plugins " +:+ kp_name (kx_provider ctx) +:+ " cluster-init" in
      if match kx_command ctx with
         | Some command => bool_decide (ci_name command = initCommandName)
         | None => false
         end
      then mret tt
      else evaluate (Throw (notReadyError ctx))
    else
      sysGarden ← invoke (CallGetSystemGarden ctx) (getSystemGarden K ctx variables);
      sysProvider ← invoke (CallResolveProvider (kp_name (kx_provider ctx)))
                      (resolveProvider sysGarden (kp_name (kx_provider ctx)));
      sysCtx ← invoke (CallGetPluginContext sysProvider)
                 (sg_getPluginContext sysGarden sysProvider);
      _ ← invoke (CallInstallTiller sysCtx force)
             (installTiller K sysCtx (kx_provider sysCtx) force);
      _ ← invoke (CallPrepareSystemServices (systemNamespace K) force systemServiceNames)
             (prepareSystemServices K sysGarden (systemNamespace K) force ctx
                systemServiceNames);
      _ ← logged SystemLogSetSuccess;
      mret tt.

Definition prepareEnvironment (ctx : KubernetesPluginContext) (force : bool)
    (status : KubernetesStatus) : Act W KubernetesStatus :=
  _ ← invoke (CallInstallTiller ctx force) (installTiller K ctx (kx_provider ctx) force);
  _ ← installCertManager ctx (kx_provider ctx);
  _ ← prepareSystem ctx force status false;
  mret {| kst_ready := true; kst_detail := None; kst_dashboardPages := None;
          kst_outputs := kst_outputs status |}.

Definition cleanupEnvironment (ctx : KubernetesPluginContext) : Act W unit :=
  api ← invoke (CallKubeApiFactory (kx_provider ctx)) (KubeApi_factory K (kx_provider ctx));
  namespace ← invoke CallGetAppNamespace (getAppNamespace K ctx (kx_provider ctx));
  _ ← logged (LogEntry "kubernetes"
                ("Deleting namespace " +:+ namespace +:+ " (this may take a while)"));
  _ ← invoke (CallDeleteNamespaces [namespace]) (deleteNamespaces K [namespace] api);
  mret tt.

(** The assignments to fields of [detail]. *)
Definition setSystemTillerReady (b : bool) (detail : StatusDetail) : StatusDetail :=
  {| projectReady := projectReady detail; serviceStatuses := serviceStatuses detail;
     systemReady := systemReady detail; systemServiceState := systemServiceState detail;
     systemTillerReady := b; systemCertManagerReady := systemCertManagerReady detail |}.

Definition setSystemCertManagerReady (b : bool) (detail : StatusDetail) : StatusDetail :=
  {| projectReady := projectReady detail; serviceStatuses := serviceStatuses detail;
     systemReady := systemReady detail; systemServiceState := systemServiceState detail;
     systemTillerReady := systemTillerReady detail; systemCertManagerReady := b |}.

Definition setSystemReady (b : bool) (detail : StatusDetail) : StatusDetail :=
  {| projectReady := projectReady detail; serviceStatuses := serviceStatuses detail;
     systemReady := b; systemServiceState := systemServiceState detail;
     systemTillerReady := systemTillerReady detail;
     systemCertManagerReady := systemCertManagerReady detail |}.

Definition setServiceStatuses (statuses : ServiceStatusMap) (detail : StatusDetail)
    : StatusDetail :=
  {| projectReady := projectReady detail; serviceStatuses := statuses;
     systemReady := systemReady detail; systemServiceState := systemServiceState detail;
     systemTillerReady := systemTillerReady detail;
     systemCertManagerReady := systemCertManagerReady detail |}.

Definition setSystemServiceState (state : string) (detail : StatusDetail) : StatusDetail :=
  {| projectReady := projectReady detail; serviceStatuses := serviceStatuses detail;
     systemReady := systemReady detail; systemServiceState := state;
     systemTillerReady := systemTillerReady detail;
     systemCertManagerReady := systemCertManagerReady detail |}.

(** [getEnvironmentStatus].  [result] holds the object [detail], and the
    source assigns to fields of both as it goes; here [ready] and [detail]
    are the values of [result.ready] and of the one [detail] object after
    each assignment, and the status returned has the last of them. *)
Definition getEnvironmentStatus (ctx : KubernetesPluginContext) : Act W KubernetesStatus :=
  let provider := kx_provider ctx in
  namespaces ← invoke (CallPrepareNamespaces ctx) (prepareNamespaces K ctx);
  projectTiller ← invoke (CallCheckTillerStatus ctx) (checkTillerStatus K ctx);
  let projectReady := if negb (bool_decide (projectTiller = "ready")) then false else true in
  let systemServiceNames := kc_systemServices (kp_config (kx_provider ctx)) in
  let detail :=
    {| projectReady := projectReady; serviceStatuses := []; systemReady := true;
       systemServiceState := "unknown"; systemTillerReady := true;
       systemCertManagerReady := true |} in
  let ready := projectReady in
  let dashboardPages : list DashboardPage := [] in
  let defaultHostname := kc_defaultHostname (kp_config provider) in
  let outputs :=
    <["default-hostname" := if truthy defaultHostname then defaultHostname else None]>
      (Some <$> namespaces) in
  if bool_decide (length systemServiceNames = 0%nat) ||
     bool_decide (kc_namespace (kp_config provider) = Some (systemNamespace K))
  then
    mret {| kst_ready := ready; kst_detail := Some detail;
            kst_dashboardPages := Some dashboardPages; kst_outputs := outputs |}
  else
    let variables := getKubernetesSystemVariables (kp_config provider) in
    sysGarden ← invoke (CallGetSystemGarden ctx) (getSystemGarden K ctx variables);
    sysProvider ← invoke (CallResolveProvider (kp_name provider))
                    (resolveProvider sysGarden (kp_name provider));
    sysCtx ← invoke (CallGetPluginContext sysProvider)
               (sg_getPluginContext sysGarden sysProvider);
    tillerStatus ← invoke (CallCheckTillerStatus sysCtx) (checkTillerStatus K sysCtx);
    let '(ready, detail) :=
      if negb (bool_decide (tillerStatus = "ready"))
      then (false, setSystemTillerReady false detail)
      else (ready, detail) in
    '(ready, detail) ←
      (if bool_decide (kc_tlsManager (kp_config provider) = Some "cert-manager") then
         certManagerStatus ← checkCertManagerStatus provider;
         if negb (bool_decide (certManagerStatus = "ready")) then
           _ ← logged (ConsoleLog "not ready, will trigger an install of cert-manager");
           mret (false, setSystemCertManagerReady false detail)
         else mret (ready, detail)
       else mret (ready, detail));
    api ← invoke (CallKubeApiFactory provider) (KubeApi_factory K provider);
    let contextForLog :=
      "Checking Garden system service status for plugin " +:+
      String "034"%char (kp_name (kx_provider ctx) +:+ String "034"%char "") in
    sysNamespaceUpToDate ←
      invoke (CallSystemNamespaceUpToDate (systemNamespace K) contextForLog)
        (systemNamespaceUpToDate K api (systemNamespace K) contextForLog);
    systemServiceStatus ←
      invoke (CallGetSystemServiceStatus (systemNamespace K) systemServiceNames)
        (getSystemServiceStatus K ctx sysGarden (systemNamespace K) systemServiceNames);
    let '(ready, detail) :=
      if negb sysNamespaceUpToDate ||
         negb (bool_decide (sys_state systemServiceStatus = "ready"))
      then (false, setSystemReady false detail)
      else (ready, detail) in
    let dashboardPages := dashboardPages ++ sys_dashboardPages systemServiceStatus in
    let detail := setServiceStatuses (sys_serviceStatuses systemServiceStatus) detail in
    let detail := setSystemServiceState (sys_state systemServiceStatus) detail in
    _ ← logged SystemLogSetSuccess;
    mret {| kst_ready := ready; kst_detail := Some detail;
            kst_dashboardPages := Some dashboardPages; kst_outputs := outputs |}.

End Handlers.
End KubernetesInit.

(** The calls that set up the system services of a cluster. *)
Definition isSystemSetup (c : K8sCall) : bool :=
  match c with
  | CallGetSystemGarden _ | CallPrepareSystemServices _ _ _ => true
  | _ => false
  end.

(** A cluster with a ready Tiller and two pods, one of them of
    cert-manager; the state is the number of helper calls made. *)
Module SampleCluster.

Definition amounts : ResourceAmounts := {| ra_cpu := 1000; ra_memory := 1024 |}.
Definition range : ResourceRange := {| rr_limits := amounts; rr_requests := amounts |}.
Definition disk : StorageSize := {| ss_size := 2048; ss_storageClass := None |}.

Definition config (tlsManager : option string) (systemServices : list string)
    : KubernetesConfig :=
  {| kc_buildMode := "local-docker";
     kc_defaultHostname := None;
     kc_namespace := None;
     kc_resources := {| kres_builder := range; kres_registry := range; kres_sync := range |};
     kc_storage := {| ks_builder := disk; ks_registry := disk; ks_sync := disk |};
     kc_tlsManager := tlsManager;
     kc_systemServices := systemServices |}.

Definition provider (name : string) (systemServices : list string) : KubernetesProvider :=
  {| kp_name := name; kp_config := config (Some "cert-manager") systemServices |}.

Definition ctx (name : string) (systemServices : list string) : KubernetesPluginContext :=
  {| kx_provider := provider name systemServices;
     kx_environmentName := "dev";
     kx_command := None |}.

Definition pods : list Pod :=
  [ {| pod_name := "cert-manager-7d4b5"; pod_apiVersion := None; pod_kind := None |};
    {| pod_name := "garden-nginx-1"; pod_apiVersion := None; pod_kind := None |} ].

Definition api : KubernetesInit.KubeApi nat :=
  {| KubernetesInit.listNamespacedPod := fun _ n => (Ok pods, S n);
     KubernetesInit.patchNamespace := fun _ n => (Ok tt, S n) |}.

Definition systemGarden : KubernetesInit.SystemGarden nat :=
  {| KubernetesInit.resolveProvider := fun name n => (Ok (provider name []), S n);
     KubernetesInit.sg_getPluginContext := fun p n =>
       (Ok {| kx_provider := p; kx_environmentName := "dev"; kx_command := None |}, S n) |}.

Definition imports : KubernetesInit.Imports nat :=
  {| KubernetesInit.systemNamespace := "garden-system";
     KubernetesInit.STATIC_DIR := "/static";
     KubernetesInit.join := String.concat "/";
     KubernetesInit.millicpuToString := fun _ => "1";
     KubernetesInit.megabytesToString := fun _ => "1Gi";
     KubernetesInit.combineStates := fun states =>
       if bool_decide ("missing" ∈ states) then "missing"
       else if bool_decide ("outdated" ∈ states) then "outdated" else "ready";
     KubernetesInit.prepareNamespaces := fun _ n =>
       (Ok {[ "app-namespace" := "project"; "metadata-namespace" := "project--metadata" ]},
        S n);
     KubernetesInit.getAppNamespace := fun _ _ n => (Ok "project", S n);
     KubernetesInit.deleteNamespaces := fun _ _ n => (Ok tt, S n);
     KubernetesInit.checkTillerStatus := fun _ n => (Ok "ready", S n);
     KubernetesInit.installTiller := fun _ _ _ n => (Ok tt, S n);
     KubernetesInit.getSystemGarden := fun _ _ n => (Ok systemGarden, S n);
     KubernetesInit.getSystemServiceStatus := fun _ _ _ _ n =>
       (Ok {| sys_state := "ready"; sys_serviceStatuses := []; sys_dashboardPages := [] |},
        S n);
     KubernetesInit.prepareSystemServices := fun _ _ _ _ _ n => (Ok tt, S n);
     KubernetesInit.systemNamespaceUpToDate := fun _ _ _ n => (Ok true, S n);
     KubernetesInit.KubeApi_factory := fun _ n => (Ok api, S n);
     KubernetesInit.checkResourceStatuses := fun _ _ pods n =>
       (Ok (map (fun pod => {| rs_state := "ready"; rs_resource := pod |}) pods), S n);
     KubernetesInit.readFile := fun _ n => (Ok "kind: CustomResourceDefinition", S n);
     KubernetesInit.safeLoadAll := fun text => Ok [Some text; None];
     KubernetesInit.apply := fun _ _ _ n => (Ok tt, S n);
     KubernetesInit.helm := fun _ _ _ n => (Ok "", S n) |}.

(** A status that reports the system services of the cluster as missing. *)
Definition missingServices : KubernetesStatus :=
  {| kst_ready := false;
     kst_detail :=
       Some {| projectReady := true;
               serviceStatuses := [("ingress-controller", Some {| sst_state := Some "missing" |})];
               systemReady := false; systemServiceState := "missing";
               systemTillerReady := true; systemCertManagerReady := true |};
     kst_dashboardPages := Some [];
     kst_outputs := {[ "app-namespace" := Some "project" ]} |}.

End SampleCluster.

(** ** More of the sample project *)

Module SampleMore.

(** A config for [test-c] that the plugin's schema rejects. *)
Definition configSlow : ProviderConfig :=
  {| pc_name := "test-c"; pc_path := None; pc_fields := {[ "mode" := VStr "slow" ]} |}.

Definition taskSlow : ResolveProviderTask.t :=
  ResolveProviderTask.mk Sample.gardenC (Some Sample.testC) configSlow Sample.version0 false.

(** A plugin whose [configureProvider] handler sets a region and adds a
    module. *)
Definition configureD (params : ConfigureProviderParams) : Exc ConfigureProviderResult :=
  Ok {| cpr_config :=
          {| pc_name := pc_name (cpp_config params);
             pc_path := pc_path (cpp_config params);
             pc_fields := <["region" := VStr "eu"]> (pc_fields (cpp_config params)) |};
        cpr_moduleConfigs := Some [ {| mc_name := "registry" |} ] |}.

Definition testD : GardenPlugin :=
  {| plugin_name := "test-d"; plugin_base := None; plugin_dependencies := None;
     plugin_configSchema := None;
     plugin_handlers := Some {| configureProvider := Some configureD |} |}.

Definition configD : ProviderConfig :=
  {| pc_name := "test-d"; pc_path := None; pc_fields := ∅ |}.

Definition gardenD : Garden :=
  {| environmentName := "default";
     projectName := "test";
     projectRoot := "/project";
     getRawProviderConfigs := [configD];
     getPlugins := Ok [testD];
     getActionHelper := Ok Sample.actions;
     getPluginContext := fun p =>
       {| ctx_projectName := "test"; ctx_projectRoot := "/project"; ctx_provider := p |};
     resolveVersion := fun _ _ => Ok Sample.version0 |}.

Definition taskD : ResolveProviderTask.t :=
  ResolveProviderTask.mk gardenD (Some testD) configD Sample.version0 false.

(** [grandchild] has [child] as its base, whose base [ghost] is not
    loaded. *)
Definition child : GardenPlugin :=
  {| plugin_name := "child"; plugin_base := Some "ghost"; plugin_dependencies := None;
     plugin_configSchema := None; plugin_handlers := None |}.

Definition grandchild : GardenPlugin :=
  {| plugin_name := "grandchild"; plugin_base := Some "child"; plugin_dependencies := None;
     plugin_configSchema := None; plugin_handlers := None |}.

(** A graph in which the tests of [module-a] depend on the service [api] and
    the task [migrate]. *)
Definition graphWithDependencies : ConfigGraph :=
  {| graph_getDependencies := fun _ _ _ =>
       Ok {| dr_build := []; dr_service := ["api"]; dr_task := ["migrate"]; dr_test := [] |};
     resolveDependencyModules := fun _ _ => Ok [] |}.

Definition taskWithDependencies (stored : option TestResult) : TestTask.t :=
  TestTask.mk (Sample.testGarden stored) graphWithDependencies Sample.moduleA
    (Sample.echoOK "unit") false true
    {| versionString := "v-1"; dependencyVersions := ∅; files := [] |}.

(** Task tasks stand for themselves by what their factory was given. *)
Definition dependencyImports : TestDependencyImports TaskTaskParams :=
  {| makeTestTaskName := fun moduleName testName => moduleName +:+ "." +:+ testName;
     TaskTask_factory := fun params => Ok params |}.

End SampleMore.

Module SampleUnloaded.

(** A project that configures [test-b] and [extra], with no plugin loaded for
    [extra] and none for [test-b]'s dependency [base-a] either. *)
Definition configExtra : ProviderConfig :=
  {| pc_name := "extra"; pc_path := None; pc_fields := ∅ |}.

Definition configBaseA : ProviderConfig :=
  {| pc_name := "base-a"; pc_path := None; pc_fields := ∅ |}.

Definition garden (raw : list ProviderConfig) : Garden :=
  {| environmentName := "default";
     projectName := "test";
     projectRoot := "/project";
     getRawProviderConfigs := raw;
     getPlugins := Ok [Sample.testB];
     getActionHelper := Ok Sample.actions;
     getPluginContext := fun p =>
       {| ctx_projectName := "test"; ctx_projectRoot := "/project"; ctx_provider := p |};
     resolveVersion := fun _ _ => Ok Sample.version0 |}.

Definition taskB (raw : list ProviderConfig) : ResolveProviderTask.t :=
  ResolveProviderTask.mk (garden raw) (Some Sample.testB) Sample.configB Sample.version0 false.

End SampleUnloaded.

(** * Properties *)

(** ** Laws of the effect monads *)

Section EffLaws.
Context {Ev : Type}.
Implicit Types (ev : Ev) (e : GardenError).

Lemma eff_eta {A} (m : Eff Ev A) : (m.1, m.2) = m.
Proof. by destruct m. Qed.

Lemma bind_ret {A B} (a : A) (f : A → Eff Ev B) : mret a ≫= f = f a.
Proof. unfold mbind, Eff_bind, mret, Eff_ret; simpl. apply eff_eta. Qed.

Lemma bind_lift_ok {A B} (a : A) (f : A → Eff Ev B) : lift (Ok a) ≫= f = f a.
Proof. unfold mbind, Eff_bind, lift; simpl. apply eff_eta. Qed.

Lemma bind_lift_throw {A B} e (f : A → Eff Ev B) : lift (Throw e) ≫= f = ([], Throw e).
Proof. reflexivity. Qed.

Lemma bind_emit {B} ev (f : unit → Eff Ev B) :
  emit ev ≫= f = (ev :: (f tt).1, (f tt).2).
Proof. reflexivity. Qed.

Lemma bind_call_ok {A B} ev (a : A) (f : A → Eff Ev B) :
  call ev (Ok a) ≫= f = (ev :: (f a).1, (f a).2).
Proof. reflexivity. Qed.

Lemma bind_call_throw {A B} ev e (f : A → Eff Ev B) :
  call ev (Throw e : Exc A) ≫= f = ([ev], Throw e).
Proof. reflexivity. Qed.

(** A bind returns only if both halves do, and its calls are those of the
    first half followed by those of the second. *)
Lemma bind_ok_inv {A B} (m : Eff Ev A) (f : A → Eff Ev B) (b : B) :
  outcome (m ≫= f) = Ok b →
  ∃ a, outcome m = Ok a ∧ outcome (f a) = Ok b ∧
       trace (m ≫= f) = trace m ++ trace (f a).
Proof.
  destruct m as [tr [e|a]]; unfold mbind, Eff_bind, outcome, trace; simpl; [done|].
  intros Hb. by exists a.
Qed.



(** The same, for a run given with its calls. *)
Lemma bind_returns {A B} (m : Eff Ev A) (f : A → Eff Ev B) (tr : list Ev) (b : B) :
  m ≫= f = (tr, Ok b) →
  ∃ a tr1 tr2, m = (tr1, Ok a) ∧ f a = (tr2, Ok b) ∧ tr = tr1 ++ tr2.
Proof.
  destruct m as [tr1 [e|a]]; unfold mbind, Eff_bind; simpl; [done|].
  destruct (f a) as [tr2 o] eqn:Hf. simpl. intros [= <- ->]. by exists a, tr1, tr2.
Qed.

End EffLaws.

Lemma exc_bind_ok_inv {A B} (m : Exc A) (f : A → Exc B) (b : B) :
  m ≫= f = Ok b → ∃ a, m = Ok a ∧ f a = Ok b.
Proof. destruct m as [e|a]; [done|]. intros ?. by exists a. Qed.


(** ** ResolveProviderTask.ensurePrepared *)

Section EnsurePrepared.
Import ResolveProviderTask.
Variable I : Imports.
Variable this : ResolveProviderTask.t.

(** Whatever [ensurePrepared] returns is a ready status. *)
Lemma ensurePrepared_ready tmp st :
  outcome (ensurePrepared I this tmp) = Ok st → ready st = true.
Proof.
  unfold ensurePrepared. intros H.
  apply bind_ok_inv in H as (actions & _ & H & _).
  apply bind_ok_inv in H as ([] & _ & H & _).
  apply bind_ok_inv in H as (s & _ & H & _).
  apply bind_ok_inv in H as ([] & _ & H & _).
  apply bind_ok_inv in H as (s' & _ & H & _).
  destruct (ready s') eqn:Hr; simpl in H; [by injection H as <-|done].
Qed.

(** The loop over the bases prepares nothing. *)
Lemma validateBases_prepare_nothing providerName bases c tr c' :
  foldM (validateAgainstBase I this providerName) c bases = (tr, Ok c') →
  prepareCalls tr = [].
Proof.
  revert c tr. induction bases as [|base bases IH]; intros c tr; simpl.
  - by intros [= <- <-].
  - intros H. apply bind_returns in H as (out & tr1 & tr2 & Hout & Hrest & ->).
    unfold prepareCalls in *. rewrite List.filter_app, (IH out tr2 Hrest), app_nil_r.
    unfold validateAgainstBase in Hout.
    destruct (plugin_configSchema base) as [schema|].
    + rewrite bind_emit in Hout. by injection Hout as <- _.
    + by injection Hout as <- _.
Qed.

(** The provider [process] returns carries the status that [ensurePrepared]
    returned for the provider with the default status; the calls of that
    [ensurePrepared] are the last calls of the run, and nothing was prepared
    before them. *)
Lemma process_status deps prov :
  outcome (process I this deps) = Ok prov →
  let tmp :=
    providerFromConfig (p_config prov) (p_dependencies prov) (p_moduleConfigs prov)
      (defaultEnvironmentStatus I) in
  outcome (ensurePrepared I this tmp) = Ok (p_status prov) ∧
  ∃ before,
    trace (process I this deps) = before ++ trace (ensurePrepared I this tmp) ∧
    prepareCalls before = [].
Proof.
  intros Hp. destruct (process I this deps) as [tr o] eqn:Hrun.
  simpl in Hp. subst o. unfold trace at 1. simpl.
  unfold process in Hrun.
  apply bind_returns in Hrun as ([] & ? & ? & [= <-] & Hrun & ->).
  apply bind_returns in Hrun as (resolved & ? & ? & [= <- _] & Hrun & ->).
  apply bind_returns in Hrun as ([] & ? & ? & [= <-] & Hrun & ->).
  apply bind_returns in Hrun as (rc1 & tr1 & ? & Hv1 & Hrun & ->).
  assert (∀ c tr0 out, validateConfig I this c = (tr0, Ok out) → prepareCalls tr0 = [])
    as Hvalidate.
  { intros c tr0 out. unfold validateConfig, thePlugin.
    destruct (plugin this) as [p|]; [|done]. rewrite bind_lift_ok. by intros [= <- _]. }
  apply Hvalidate in Hv1.
  apply bind_returns in Hrun as (p & ? & ? & [= <- _] & Hrun & ->).
  apply bind_returns in Hrun as ([rc2 mcs] & trc & ? & Hconf & Hrun & ->).
  apply bind_returns in Hrun as (loaded & ? & ? & [= <- _] & Hrun & ->).
  apply bind_returns in Hrun as (bases & ? & ? & [= <- _] & Hrun & ->).
  apply bind_returns in Hrun as (rc3 & trb & ? & Hfold & Hrun & ->).
  apply bind_returns in Hrun as ([] & ? & ? & [= <-] & Hrun & ->).
  apply bind_returns in Hrun as (status & tre & ? & Hens & [= <- <-] & ->).
  apply validateBases_prepare_nothing in Hfold.
  assert (prepareCalls trc = []) as Hconfigure.
  { destruct (default None (configureProvider <$> plugin_handlers p)) as [handler|].
    - apply bind_returns in Hconf as ([] & ? & ? & [= <-] & Hconf & ->).
      apply bind_returns in Hconf as (output & ? & ? & [= <- _] & Hconf & ->).
      apply bind_returns in Hconf as ([] & ? & ? & [= <-] & Hconf & ->).
      apply bind_returns in Hconf as (rc2' & ? & ? & Hv2 & [= <- _ _] & ->).
      apply Hvalidate in Hv2. unfold prepareCalls in *.
      rewrite !List.filter_app, Hv2. done.
    - by injection Hconf as <- _ _. }
  simpl. unfold providerFromConfig at 1 2. simpl.
  fold (providerFromConfig rc3
          (map (fun r : string * option TaskResult => tr_output <$> r.2) deps) mcs
          (defaultEnvironmentStatus I)).
  rewrite Hens. split; [done|].
  eexists (_ :: _ :: tr1 ++ trc ++ trb ++ [_]). split.
  - unfold trace. simpl. rewrite <- !app_assoc, app_nil_r. simpl. reflexivity.
  - unfold prepareCalls in *. simpl. rewrite !List.filter_app, Hv1, Hconfigure, Hfold. done.
Qed.

End EnsurePrepared.

Section EnsurePreparedCalls.
Import ResolveProviderTask.
Variable I : Imports.
Variable this : ResolveProviderTask.t.
Variable tmp : Provider.
Variable actions : ActionHelper.
Variable s : EnvironmentStatus.
Hypothesis Hactions : getActionHelper (garden this) = Ok actions.
Hypothesis Hstatus :
  getActionHandler (getEnvironmentStatusHandler actions) (p_name tmp)
    (fun _ => Ok (defaultEnvironmentStatus I)) (getPluginContext (garden this) tmp) = Ok s.

Local Abbreviation prepared :=
  (getActionHandler (prepareEnvironmentHandler actions) (p_name tmp)
     (fun _ => Ok {| pe_result_status := s |})
     {| pe_ctx := getPluginContext (garden this) tmp;
        pe_force := forceInit this;
        pe_status := s |}).

Lemma ensurePrepared_not_needed :
  forceInit this = false → ready s = true →
  prepareCalls (trace (ensurePrepared I this tmp)) = [] ∧
  outcome (ensurePrepared I this tmp) = Ok s.
Proof.
  intros Hf Hr. unfold ensurePrepared.
  rewrite Hactions, bind_lift_ok. cbv zeta.
  rewrite bind_emit, Hstatus, bind_call_ok, Hf, Hr. simpl.
  by rewrite Hr.
Qed.

Lemma ensurePrepared_needed :
  forceInit this = true ∨ ready s = false →
  prepareCalls (trace (ensurePrepared I this tmp)) =
    [CallPrepareEnvironment (p_name tmp) (forceInit this) s] ∧
  outcome (ensurePrepared I this tmp) =
    match prepared with
    | Throw e => Throw e
    | Ok res =>
        if ready (pe_result_status res) then Ok (pe_result_status res)
        else Throw (mkError PluginError
               ("Provider " +:+ p_name tmp +:+
                " reports status as not ready and could not prepare the configured environment."))
    end.
Proof.
  intros Hneed. unfold ensurePrepared.
  rewrite Hactions, bind_lift_ok. cbv zeta.
  rewrite bind_emit, Hstatus, bind_call_ok.
  assert (forceInit this || negb (ready s) = true) as ->
    by (destruct Hneed as [-> | ->]; [done | by rewrite orb_true_r]).
  destruct prepared as [e|res]; simpl; [done|].
  by destruct (ready (pe_result_status res)).
Qed.

End EnsurePreparedCalls.

(** C2.  [ensurePrepared] calls the [prepareEnvironment] handler exactly when
    [forceInit] was requested or the [getEnvironmentStatus] handler returned a
    status that is not ready, and then once, with that status and [force] as
    requested.  When it does not prepare, it returns the status of the
    [getEnvironmentStatus] handler; when it prepares, it returns the status
    the [prepareEnvironment] handler returned if that is ready, raises a
    PluginError if it is not, and raises what the handler raised.  So every
    status [ensurePrepared] returns is ready; and the status of a provider
    that [process] returns is the one [ensurePrepared] returned for that
    provider (with the default status in its place), called at the end of the
    run and the only one to prepare.  When the [getEnvironmentStatus] handler
    raises, nothing is prepared and its error is the outcome. *)
Theorem ensurePrepared_prepares_iff_needed (I : Imports) (this : ResolveProviderTask.t) :
  (∀ tmp actions s,
     getActionHelper (ResolveProviderTask.garden this) = Ok actions →
     getActionHandler (getEnvironmentStatusHandler actions) (p_name tmp)
       (fun _ => Ok (defaultEnvironmentStatus I))
       (getPluginContext (ResolveProviderTask.garden this) tmp) = Ok s →
     let r := ResolveProviderTask.ensurePrepared I this tmp in
     let force := ResolveProviderTask.forceInit this in
     let prepared :=
       getActionHandler (prepareEnvironmentHandler actions) (p_name tmp)
         (fun _ => Ok {| pe_result_status := s |})
         {| pe_ctx := getPluginContext (ResolveProviderTask.garden this) tmp;
            pe_force := force; pe_status := s |} in
     (force = true ∨ ready s = false →
        prepareCalls (trace r) = [CallPrepareEnvironment (p_name tmp) force s] ∧
        outcome r =
          match prepared with
          | Throw e => Throw e
          | Ok res =>
              if ready (pe_result_status res) then Ok (pe_result_status res)
              else Throw (mkError PluginError
                     ("Provider " +:+ p_name tmp +:+
                      " reports status as not ready and could not prepare the configured environment."))
          end) ∧
     (force = false ∧ ready s = true →
        prepareCalls (trace r) = [] ∧ outcome r = Ok s) ∧
     (∀ res,
        force = true ∨ ready s = false →
        prepared = Ok res →
        ready (pe_result_status res) = false →
        ∃ e, outcome r = Throw e ∧ kind e = PluginError)) ∧
  (∀ tmp st,
     outcome (ResolveProviderTask.ensurePrepared I this tmp) = Ok st → ready st = true) ∧
  (∀ deps prov,
     outcome (ResolveProviderTask.process I this deps) = Ok prov →
     let tmp :=
       providerFromConfig (p_config prov) (p_dependencies prov) (p_moduleConfigs prov)
         (defaultEnvironmentStatus I) in
     ready (p_status prov) = true ∧
     outcome (ResolveProviderTask.ensurePrepared I this tmp) = Ok (p_status prov) ∧
     ∃ before,
       trace (ResolveProviderTask.process I this deps) =
         before ++ trace (ResolveProviderTask.ensurePrepared I this tmp) ∧
       prepareCalls before = []) ∧
  (∀ tmp actions e,
     getActionHelper (ResolveProviderTask.garden this) = Ok actions →
     getActionHandler (getEnvironmentStatusHandler actions) (p_name tmp)
       (fun _ => Ok (defaultEnvironmentStatus I))
       (getPluginContext (ResolveProviderTask.garden this) tmp) = Throw e →
     prepareCalls (trace (ResolveProviderTask.ensurePrepared I this tmp)) = [] ∧
     outcome (ResolveProviderTask.ensurePrepared I this tmp) = Throw e).
Proof.
  split; [|split; [|split]]; cycle 3.
  { intros tmp actions e Hactions Hstatus. unfold ResolveProviderTask.ensurePrepared.
    rewrite Hactions, bind_lift_ok. cbv zeta. by rewrite bind_emit, Hstatus. }
  - intros tmp actions s Hactions Hstatus r force prepared. subst r force prepared.
    split; [|split].
    + intros Hneed. by apply (ensurePrepared_needed I this tmp actions s).
    + intros [Hf Hr]. by apply (ensurePrepared_not_needed I this tmp actions s).
    + intros res Hneed Hres Hnot.
      destruct (ensurePrepared_needed I this tmp actions s Hactions Hstatus Hneed)
        as [_ Hout].
      rewrite Hout, Hres, Hnot. eauto.
  - apply ensurePrepared_ready.
  - intros deps prov Hp tmp. subst tmp.
    destruct (process_status I this deps prov Hp) as [Hstatus Htrace].
    split; [|done]. by apply ensurePrepared_ready in Hstatus.
Qed.

(** The sample's [test-b] with [forceInit]: no plugin prepares, so the
    default handler is the one called, once, and the ready status it hands
    back is the one returned. *)
Lemma ensurePrepared_prepares_iff_needed_witness :
  (prepareCalls (trace (ResolveProviderTask.ensurePrepared Sample.imports
                          (Sample.taskB true) Sample.tmpB)) =
     [CallPrepareEnvironment "test-b" true (defaultEnvironmentStatus Sample.imports)] ∧
   outcome (ResolveProviderTask.ensurePrepared Sample.imports (Sample.taskB true)
              Sample.tmpB) = Ok (defaultEnvironmentStatus Sample.imports)) ∧
  (∀ prov,
     outcome (ResolveProviderTask.process Sample.imports (Sample.taskB true) []) = Ok prov →
     ready (p_status prov) = true).
Proof.
  destruct (ensurePrepared_prepares_iff_needed Sample.imports (Sample.taskB true))
    as (Hcalls & _ & Hprocess & _).
  split.
  - apply (Hcalls Sample.tmpB Sample.actions (defaultEnvironmentStatus Sample.imports));
      [reflexivity | reflexivity | by left].
  - intros prov Hprov. apply (Hprocess [] prov Hprov).
Defined.

(** ** TestTask.process *)

Section TestProcess.
Import TestTask.
Variable I : TestImports.
Variable this : TestTask.t.
Variable deps : TestTaskResults.

Local Abbreviation params :=
  {| gtr_module := module this;
     gtr_testName := tc_name (testConfig this);
     gtr_testVersion := version this |}.

Local Abbreviation lookupCall :=
  (CallGetTestResult (m_name (module this)) (tc_name (testConfig this)) (version this)).

Local Abbreviation handlerCall :=
  (CallTestModule (m_name (module this)) (tc_name (testConfig this)) (version this)).

Local Abbreviation handlerParams rc :=
  {| tm_interactive := false;
     tm_module := module this;
     tm_runtimeContext := rc;
     tm_silent := true;
     tm_testConfig := testConfig this;
     tm_testVersion := version this |}.

(** With [force], no lookup is made and nothing is found. *)
Lemma getTestResult_forced :
  force this = true → getTestResult this = mret None.
Proof. unfold getTestResult. by intros ->. Qed.

Lemma getTestResult_lookup actions r :
  force this = false → getActionHelper (garden this) = Ok actions →
  actions_getTestResult actions params = r →
  getTestResult this = call lookupCall r.
Proof.
  unfold getTestResult. intros -> -> <-. by rewrite bind_lift_ok.
Qed.

(** Past the early return the handler is called once, as soon as the
    dependencies and the runtime context of the test are there. *)
Lemma run_calls_handler d rc actions :
  graph_getDependencies (graph this) "test" (tc_name (testConfig this)) false = Ok d →
  prepareRuntimeContext I (garden this) (graph this) d (module this)
    (getServiceStatuses I deps) (getRunTaskResults I deps) = Ok rc →
  getActionHelper (garden this) = Ok actions →
  testModuleCalls (trace (run I this deps)) = [handlerCall] ∧
  getTestResultCalls (trace (run I this deps)) = [] ∧
  outcome (run I this deps) =
    match actions_testModule actions (handlerParams rc) with
    | Throw e => Throw e
    | Ok res =>
        if res_success res then Ok res else Throw (mkError TestError (res_log res))
    end.
Proof.
  intros Hd Hrc Ha. unfold run.
  rewrite bind_emit, Hd, bind_lift_ok. cbv zeta.
  rewrite Hrc, bind_lift_ok, Ha, bind_lift_ok.
  destruct (actions_testModule actions (handlerParams rc)) as [e|res]; [done|].
  simpl. by destruct (res_success res).
Qed.

(** The lookup is the only place [getTestResult] is called from. *)
Lemma process_unfold_miss :
  force this = true ∨
  (force this = false ∧ ∃ actions,
     getActionHelper (garden this) = Ok actions ∧
     (actions_getTestResult actions params = Ok None ∨
      ∃ r, actions_getTestResult actions params = Ok (Some r) ∧ res_success r = false)) →
  outcome (process I this deps) = outcome (run I this deps) ∧
  testModuleCalls (trace (process I this deps)) = testModuleCalls (trace (run I this deps)) ∧
  (force this = true →
   getTestResultCalls (trace (process I this deps)) =
     getTestResultCalls (trace (run I this deps))).
Proof.
  unfold process. intros [Hf | (Hf & actions & Ha & Hr)].
  - by rewrite getTestResult_forced, bind_ret.
  - destruct Hr as [Hr | (r & Hr & Hs)];
      rewrite (getTestResult_lookup actions _ Hf Ha Hr), bind_call_ok;
      [by rewrite Hf|].
    by rewrite Hs, Hf.
Qed.

Lemma process_hit actions r :
  force this = false → getActionHelper (garden this) = Ok actions →
  actions_getTestResult actions params = Ok (Some r) → res_success r = true →
  outcome (process I this deps) = Ok r ∧
  testModuleCalls (trace (process I this deps)) = [] ∧
  getTestResultCalls (trace (process I this deps)) = [lookupCall].
Proof.
  intros Hf Ha Hr Hs. unfold process.
  rewrite (getTestResult_lookup actions _ Hf Ha Hr), bind_call_ok.
  by rewrite Hs.
Qed.

End TestProcess.

(** C1, as the code has it.  Without [force], a stored result that passed is
    returned as it is and the [testModule] handler is not called.  A stored
    result that failed is not returned: like a missing one, and like any
    stored result under [force], it leaves the test to be run, and the handler
    is called once, as soon as the dependencies and the runtime context of the
    test are there; the outcome is then the handler's.  With [force] the
    lookup itself is not made. *)
Theorem process_memoizes_passed_results
    (I : TestImports) (this : TestTask.t) (deps : TestTaskResults) :
  let lookup := fun actions =>
    actions_getTestResult actions
      {| gtr_module := TestTask.module this;
         gtr_testName := tc_name (TestTask.testConfig this);
         gtr_testVersion := TestTask.version this |} in
  let handler := fun actions rc =>
    actions_testModule actions
      {| tm_interactive := false;
         tm_module := TestTask.module this;
         tm_runtimeContext := rc;
         tm_silent := true;
         tm_testConfig := TestTask.testConfig this;
         tm_testVersion := TestTask.version this |} in
  let r := TestTask.process I this deps in
  (∀ actions stored,
     TestTask.force this = false →
     getActionHelper (TestTask.garden this) = Ok actions →
     lookup actions = Ok (Some stored) →
     res_success stored = true →
     outcome r = Ok stored ∧ testModuleCalls (trace r) = []) ∧
  (∀ actions d rc,
     getActionHelper (TestTask.garden this) = Ok actions →
     TestTask.force this = true ∨
     TestTask.force this = false ∧
       (lookup actions = Ok None ∨
        ∃ stored, lookup actions = Ok (Some stored) ∧ res_success stored = false) →
     graph_getDependencies (TestTask.graph this) "test"
       (tc_name (TestTask.testConfig this)) false = Ok d →
     prepareRuntimeContext I (TestTask.garden this) (TestTask.graph this) d
       (TestTask.module this) (getServiceStatuses I deps) (getRunTaskResults I deps) = Ok rc →
     testModuleCalls (trace r) =
       [CallTestModule (m_name (TestTask.module this)) (tc_name (TestTask.testConfig this))
          (TestTask.version this)] ∧
     outcome r =
       match handler actions rc with
       | Throw e => Throw e
       | Ok res =>
           if res_success res then Ok res else Throw (mkError TestError (res_log res))
       end ∧
     (TestTask.force this = true → getTestResultCalls (trace r) = [])).
Proof.
  intros lookup handler r. subst lookup handler r. split.
  - intros actions stored Hf Ha Hr Hs.
    destruct (process_hit I this deps actions stored Hf Ha Hr Hs) as (? & ? & _). done.
  - intros actions d rc Ha Hmiss Hd Hrc.
    destruct (run_calls_handler I this deps d rc actions Hd Hrc Ha) as (Hc & Hl & Ho).
    destruct (process_unfold_miss I this deps) as (Ho' & Hc' & Hl').
    { destruct Hmiss as [Hf | [Hf Hr]]; [by left|right]. split; [done|]. by exists actions. }
    rewrite Ho', Hc', Hc, Ho. repeat split. intros Hf. by rewrite Hl'.
Qed.

(** In the sample, a stored passing result for [unit] is returned without a
    run, and under [force] the same stored result is passed over and the
    handler runs the test. *)
Lemma process_memoizes_passed_results_witness :
  (outcome (TestTask.process Sample.testImports
              (Sample.testTask (Some Sample.storedSuccess) false) []) =
     Ok Sample.storedSuccess ∧
   testModuleCalls (trace (TestTask.process Sample.testImports
                             (Sample.testTask (Some Sample.storedSuccess) false) [])) = []) ∧
  testModuleCalls (trace (TestTask.process Sample.testImports
                            (Sample.testTask (Some Sample.storedSuccess) true) [])) =
    [CallTestModule "module-a" "unit"
       {| versionString := "v-1"; dependencyVersions := ∅; files := [] |}].
Proof.
  split.
  - apply (proj1 (process_memoizes_passed_results Sample.testImports
                    (Sample.testTask (Some Sample.storedSuccess) false) [])
             (Sample.testActions (Some Sample.storedSuccess)));
      reflexivity.
  - eapply proj1.
    apply (proj2 (process_memoizes_passed_results Sample.testImports
                    (Sample.testTask (Some Sample.storedSuccess) true) [])
             (Sample.testActions (Some Sample.storedSuccess)) Sample.noDependencies
             {| rc_envVars := ∅; rc_serviceStatuses := ∅; rc_taskResults := ∅ |});
      [reflexivity | by left | reflexivity | reflexivity].
Defined.

(** Against C1 as stated: in the sample, the lookup for [unit] returns a
    stored result (one that failed) and [force] is off, yet [process] does
    not return that result, and the [testModule] handler is called. *)
Lemma process_reruns_stored_failure :
  TestTask.force (Sample.testTask (Some Sample.storedFailure) false) = false ∧
  actions_getTestResult (Sample.testActions (Some Sample.storedFailure))
    {| gtr_module := Sample.moduleA; gtr_testName := "unit";
       gtr_testVersion := {| versionString := "v-1"; dependencyVersions := ∅; files := [] |} |} =
    Ok (Some Sample.storedFailure) ∧
  outcome (TestTask.process Sample.testImports
             (Sample.testTask (Some Sample.storedFailure) false) []) =
    Ok Sample.freshSuccess ∧
  Sample.freshSuccess ≠ Sample.storedFailure ∧
  testModuleCalls (trace (TestTask.process Sample.testImports
                            (Sample.testTask (Some Sample.storedFailure) false) [])) =
    [CallTestModule "module-a" "unit"
       {| versionString := "v-1"; dependencyVersions := ∅; files := [] |}].
Proof. repeat split; done. Qed.

(** ** plugins/exec.ts: build status *)

(** C6.  [getExecModuleBuildStatus] always returns a status, never an error:
    [ready] is true exactly when the build-version file was read and holds
    the module's current version string, and false in every other case, a
    failure of the read included. *)
Theorem getExecModuleBuildStatus_swallows_read_errors (I : ExecImports) (module : Module)
    (w : World) :
  let path := join I (m_buildMetadataPath module) (GARDEN_BUILD_VERSION_FILENAME I) in
  let rd := readModuleVersionFile I path w in
  ∃ b, getExecModuleBuildStatus I module w = (Ok {| bst_ready := b |}, rd.2) ∧
       (b = true ↔
        ∃ v, rd.1 = Ok (Some v) ∧ versionString v = versionString (m_version module)) ∧
       (∀ e, rd.1 = Throw e → b = false).
Proof.
  intros path rd. unfold getExecModuleBuildStatus, mbind, IO_bind, ignoringErrors.
  fold path. fold rd. destruct rd as [[e|[v|]] w']; simpl.
  - exists false. split; [done|]. split; [|done]. split; [done|]. by intros (v & ? & _).
  - case_bool_decide as Hv.
    + exists true. split; [done|]. split; [|done]. split; [|done]. intros _. by exists v.
    + exists false. split; [done|]. split; [|done]. split; [done|].
      intros (v' & [= <-] & ?). done.
  - exists false. split; [done|]. split; [|done]. split; [done|]. by intros (v & ? & _).
Qed.

(** ** plugins/exec.ts: configuration *)

(** The copy-spec error is raised exactly for a local module with a build
    dependency whose copy list is not empty, and its message lists every
    build dependency of the module. *)
Lemma configureExecModule_copy_error (I : ExecImports) (root : string)
    (cfg : ExecModuleConfig) :
  let offending := List.filter (fun d => bool_decide (bd_copy d ≠ []))
                     (cfg_build_dependencies cfg) in
  (spec_local (cfg_spec cfg) = Some true ∧ offending ≠ [] →
   configureExecModule I root cfg =
     Throw (copyError cfg (String.concat ", " (map bd_name (cfg_build_dependencies cfg))))) ∧
  (spec_local (cfg_spec cfg) ≠ Some true ∨ offending = [] →
   ∀ spec, validateSpec I (cfg_spec cfg) (cfg_name cfg) (cfg_path cfg) root = Ok spec →
   ∃ cfg', configureExecModule I root cfg = Ok cfg' ∧ cfg_spec cfg' = spec).
Proof.
  intros offending.
  assert (existsb (fun d => bool_decide (0 < length (bd_copy d))%nat)
            (cfg_build_dependencies cfg) = bool_decide (offending ≠ [])) as Hex.
  { subst offending. induction (cfg_build_dependencies cfg) as [|d ds IH]; [done|].
    simpl. destruct (bd_copy d); simpl; [|done].
    rewrite IH. by repeat case_bool_decide. }
  unfold configureExecModule. rewrite Hex. split.
  - intros [-> Hoff]. rewrite bool_decide_true by done. simpl.
    do 3 f_equal. clear.
    induction (cfg_build_dependencies cfg) as [|d ds IH]; simpl; by f_equal.
  - intros Hno spec Hspec.
    assert (default false (spec_local (cfg_spec cfg)) && bool_decide (offending ≠ []) = false)
      as ->.
    { destruct Hno as [Hl | ->]; [|by rewrite andb_false_r].
      destruct (spec_local (cfg_spec cfg)) as [[]|]; done. }
    rewrite Hspec. simpl. eauto.
Qed.

(** C5, at the input where the code departs from it.  The sample's local
    module has build dependencies [dep-a] (empty copy list) and [dep-b]
    (one copy spec).  Configuring it raises the ConfigurationError, as the
    claim says, but the message names both dependencies, [dep-a] included,
    where the claim has it name the offending ones only, that is [dep-b]. *)
Theorem configureExecModule_names_every_dependency :
  configureExecModule Sample.execImports "/project" Sample.localConfig =
    Throw (copyError Sample.localConfig "dep-a, dep-b") ∧
  map bd_name (List.filter (fun d => bool_decide (bd_copy d ≠ []))
                 (cfg_build_dependencies Sample.localConfig)) = ["dep-b"].
Proof. split; reflexivity. Qed.

(** ** plugins/exec.ts: tests and tasks *)

Section ExecRuns.
Variable I : ExecImports.

(** [testExecModule] is its one spawn, with [ignoreError], followed by the
    packing of the result. *)
Lemma testExecModule_unfold module testConfig w :
  testExecModule I module testConfig w =
    let command := ts_command (tc_spec testConfig) in
    match spawn I (head command) (tail command) (testSpawnOpts I module testConfig) w with
    | (Throw e, w') => (Throw e, w')
    | (Ok out, w') =>
        (Ok {| res_moduleName := m_name module;
               res_command := command;
               res_testName := tc_name testConfig;
               res_version := versionString (m_version module);
               res_success := bool_decide (so_code out = 0%Z);
               res_startedAt := clock w;
               res_completedAt := clock w';
               res_log := orEmpty (so_stdout out) +:+ orEmpty (so_stderr out) |}, w')
    end.
Proof.
  unfold testExecModule, mbind, IO_bind, now. simpl.
  by destruct (spawn I _ _ _ w) as [[e|out] w'].
Qed.

(** [runExecTask] is its one spawn, without [ignoreError], followed by the
    packing of the result. *)
Lemma runExecTask_unfold task w :
  runExecTask I task w =
    let command := tk_command (task_spec task) in
    match spawn I (head command) (tail command) (taskSpawnOpts I task) w with
    | (Throw e, w') => (Throw e, w')
    | (Ok out, w') =>
        let output := orEmpty (so_stdout out) +:+ orEmpty (so_stderr out) in
        (Ok {| rt_moduleName := m_name (task_module task);
               rt_taskName := task_name task;
               rt_command := command;
               rt_version := versionString (m_version (task_module task));
               rt_success := true;
               rt_log := output;
               rt_outputs := {[ "log" := output ]};
               rt_startedAt := clock w;
               rt_completedAt := clock w' |}, w')
    end.
Proof.
  unfold runExecTask, mbind, IO_bind, now. simpl.
  by destruct (spawn I _ _ _ w) as [[e|out] w'].
Qed.

End ExecRuns.



(** ** getTestVersion *)

(** C9.  [getTestVersion] resolves the dependency modules from the module's
    build dependencies and the test's declared dependencies, drops the module
    itself from them, keeping the others in their order, and resolves the
    version of the module against what is left; an error of the resolution is
    passed on.  So when the dependency versions of a resolved version are
    those of the dependency modules it was given, as the version hasher has
    it, the module is not among the dependency versions of its tests. *)
Theorem getTestVersion_excludes_own_module (garden : Garden) (graph : ConfigGraph)
    (module : Module) (testConfig : TestConfig) :
  (∀ resolved,
     resolveDependencyModules graph (m_build_dependencies module)
       (tc_dependencies testConfig) = Ok resolved →
     ∃ moduleDeps,
       getTestVersion garden graph module testConfig =
         resolveVersion garden (m_name module) moduleDeps ∧
       moduleDeps `sublist_of` resolved ∧
       (∀ m, m ∈ moduleDeps ↔ m ∈ resolved ∧ m_name m ≠ m_name module)) ∧
  (∀ e,
     resolveDependencyModules graph (m_build_dependencies module)
       (tc_dependencies testConfig) = Throw e →
     getTestVersion garden graph module testConfig = Throw e) ∧
  ((∀ name deps v,
      resolveVersion garden name deps = Ok v →
      ∀ k, k ∈ dom (dependencyVersions v) → k ∈ map m_name deps) →
   ∀ v, getTestVersion garden graph module testConfig = Ok v →
        m_name module ∉ dom (dependencyVersions v)).
Proof.
  unfold getTestVersion. split; [|split].
  - intros resolved ->. eexists. split; [done|]. split.
    + apply sublist_filter.
    + intros m. rewrite list_elem_of_filter. tauto.
  - by intros e ->.
  - intros Hhasher v Hv.
    apply exc_bind_ok_inv in Hv as (resolved & _ & Hv).
    intros Hin. apply (Hhasher _ _ _ Hv) in Hin.
    apply list_elem_of_fmap in Hin as (m & Hname & Hm).
    apply list_elem_of_filter in Hm as [Hne _]. by apply Hne.
Qed.

(** In the sample the dependencies of [unit] resolve to [module-a] itself
    and [module-lib]; the test version of [unit] has [module-lib] only. *)
Lemma getTestVersion_excludes_own_module_witness :
  getTestVersion (Sample.testGarden None) Sample.testGraph Sample.moduleA
    (Sample.echoOK "unit") =
    Ok {| versionString := "v-1";
          dependencyVersions := {[ "module-lib" := "v-0" ]};
          files := [] |} ∧
  "module-a" ∉ dom (dependencyVersions
                      {| versionString := "v-1";
                         dependencyVersions := {[ "module-lib" := "v-0" ]};
                         files := [] |}).
Proof.
  split; [reflexivity|].
  apply (proj2 (proj2 (getTestVersion_excludes_own_module (Sample.testGarden None)
                         Sample.testGraph Sample.moduleA (Sample.echoOK "unit")))).
  - intros name deps v [= <-] k. simpl.
    rewrite dom_list_to_map_L, elem_of_list_to_set, <- list_fmap_compose. done.
  - reflexivity.
Defined.

(** ** getTestTasks *)

Lemma mapM_Exc_cons {A B} (f : A → Exc B) (x : A) (l : list A) :
  mapM f (x :: l) = y ← f x; k ← mapM f l; mret (y :: k).
Proof. reflexivity. Qed.

(** [Bluebird.map] returns the results in the order of the inputs, and only
    if every call returned. *)
Lemma mapM_Exc_ok {A B} (f : A → Exc B) (l : list A) (k : list B) :
  mapM f l = Ok k ↔ Forall2 (fun x y => f x = Ok y) l k.
Proof.
  revert k. induction l as [|x l IH]; intros k.
  - split.
    + intros [= <-]. constructor.
    + by inversion 1.
  - rewrite mapM_Exc_cons. split.
    + intros H. apply exc_bind_ok_inv in H as (y & Hy & H).
      apply exc_bind_ok_inv in H as (k' & Hk & [= <-]).
      constructor; [done|]. by apply IH.
    + inversion 1 as [|? y ? k' Hy Hk]; subst.
      apply IH in Hk. by rewrite Hy, Hk.
Qed.

Lemma mapM_Exc_total {A B} (f : A → Exc B) (l : list A) :
  (∀ x, x ∈ l → is_Ok (f x) = true) → ∃ k, mapM f l = Ok k.
Proof.
  induction l as [|x l IH]; intros Hall; [by exists []|].
  rewrite mapM_Exc_cons.
  destruct (f x) as [e|y] eqn:Hy.
  - specialize (Hall x (list_elem_of_here _ _)). by rewrite Hy in Hall.
  - destruct IH as [k ->]; [|by exists (y :: k)].
    intros x' Hx'. apply Hall. by constructor.
Qed.

Section TestFilter.
Variable I : TestImports.

(** lodash [find] returns a pattern that matched; it is truthy unless it is
    the empty pattern. *)
Lemma find_truthy name names :
  minimatch I name "" = false →
  truthy (List.find (fun n => minimatch I name n) names) =
    existsb (fun n => minimatch I name n) names.
Proof.
  intros Hblank. induction names as [|n names IH]; [done|]. simpl.
  destruct (minimatch I name n) eqn:Hn; [|done]. simpl.
  rewrite bool_decide_false; [done|]. intros ->. congruence.
Qed.

Lemma selectedBy_wanted filterNames (tests : list TestConfig) :
  (∀ t, t ∈ tests → minimatch I (tc_name t) "" = false) →
  List.filter (selectedBy I filterNames) tests =
    match filterNames with
    | None | Some [] => tests
    | Some names => List.filter (globMatchesAny I names) tests
    end.
Proof.
  intros Hblank. destruct filterNames as [[|n names]|]; simpl.
  - clear Hblank. induction tests; simpl; by f_equal.
  - induction tests as [|t tests IH]; [done|].
    cbn [List.filter]. rewrite IH by (intros; apply Hblank; by constructor).
    unfold selectedBy, globMatchesAny. rewrite find_truthy; [done|].
    apply Hblank. constructor.
  - clear Hblank. induction tests; simpl; by f_equal.
Qed.

End TestFilter.

(** C4.  Provided the empty pattern matches none of the module's test names
    (as minimatch has it for the names tests can have), the tasks
    [getTestTasks] returns are those of the test configs whose name matches
    at least one pattern of the filter, or of all test configs when the
    filter is absent or empty, one task each and in their order; and it does
    return them whenever the version of each of these tests can be resolved.
    With the pattern [int*], tests named [integration] and [integ] are
    selected and a test named [unit] is not. *)
Theorem getTestTasks_selects_by_glob (I : TestImports) (garden : Garden)
    (graph : ConfigGraph) (module : Module) (filterNames : option (list string))
    (force forceBuild : option bool) :
  ((∀ t, t ∈ m_testConfigs module → minimatch I (tc_name t) "" = false) →
   (∀ tasks,
      getTestTasks I garden graph module filterNames force forceBuild = Ok tasks →
      map TestTask.testConfig tasks = wantedTests I filterNames module) ∧
   ((∀ t, t ∈ wantedTests I filterNames module →
          is_Ok (getTestVersion garden graph module t) = true) →
    ∃ tasks, getTestTasks I garden graph module filterNames force forceBuild = Ok tasks)) ∧
  (minimatch I = minimatch_glob →
   ∀ t, (tc_name t = "integration" ∨ tc_name t = "integ" →
         selectedBy I (Some ["int*"]) t = true) ∧
        (tc_name t = "unit" → selectedBy I (Some ["int*"]) t = false)).
Proof.
  split.
  - intros Hblank. unfold getTestTasks.
    rewrite (selectedBy_wanted I filterNames (m_testConfigs module) Hblank).
    fold (wantedTests I filterNames module).
    generalize (wantedTests I filterNames module). intros wanted. split.
    + intros tasks Htasks. apply mapM_Exc_ok in Htasks.
      induction Htasks as [|t task ts tasks Ht _ IH]; [done|].
      simpl. rewrite IH. f_equal.
      unfold factory in Ht. apply exc_bind_ok_inv in Ht as (v & _ & [= <-]). done.
    + intros Hversions. apply mapM_Exc_total. intros t Ht.
      specialize (Hversions t Ht). unfold factory.
      by destruct (getTestVersion garden graph module t).
  - intros Hglob t. unfold selectedBy. cbn [List.find length]. rewrite Hglob. split.
    + by intros [-> | ->].
    + by intros ->.
Qed.

(** In the sample, [module-a] has the tests [unit], [integration] and
    [integ]; the filter [int*] gives the tasks of the last two. *)
Lemma getTestTasks_selects_by_glob_witness :
  ∃ tasks,
    getTestTasks Sample.testImports (Sample.testGarden None) Sample.testGraph
      Sample.moduleA (Some ["int*"]) None None = Ok tasks ∧
    map (fun task => tc_name (TestTask.testConfig task)) tasks = ["integration"; "integ"].
Proof.
  assert (∀ t, t ∈ m_testConfigs Sample.moduleA →
               minimatch Sample.testImports (tc_name t) "" = false) as Hblank.
  { intros t Ht. simpl in Ht.
    repeat (apply elem_of_cons in Ht as [-> | Ht]; [reflexivity|]).
    by apply elem_of_nil in Ht. }
  destruct (proj1 (getTestTasks_selects_by_glob Sample.testImports (Sample.testGarden None)
                     Sample.testGraph Sample.moduleA (Some ["int*"]) None None) Hblank)
    as [Hsel Htotal].
  destruct Htotal as [tasks Htasks]; [done|].
  exists tasks. split; [done|].
  rewrite <- (List.map_map TestTask.testConfig tc_name).
  by rewrite (Hsel tasks Htasks).
Defined.

(** ** getPluginBases *)

Section BaseChains.
Variable plugins : PluginMap.

Lemma getPluginBases_rec_sound n plugin bases :
  getPluginBases_rec n plugin plugins = Ok bases → baseChain plugins plugin bases.
Proof.
  revert plugin bases. induction n as [|n IH]; intros plugin bases; [done|]. simpl.
  destruct (namedBase plugin) as [baseName|] eqn:Hbase.
  - destruct (plugins !! baseName) as [base|] eqn:Hlookup; [|done].
    intros H. apply exc_bind_ok_inv in H as (rest & Hrest & [= <-]).
    eapply baseChain_cons; eauto.
  - intros [= <-]. by constructor.
Qed.

Lemma getPluginBases_rec_complete n plugin bases :
  baseChain plugins plugin bases → (length bases < n)%nat →
  getPluginBases_rec n plugin plugins = Ok bases.
Proof.
  intros Hchain. revert n.
  induction Hchain as [plugin Hbase | plugin baseName base bases Hbase Hlookup _ IH];
    intros [|n] Hn; simpl in *; try lia.
  - by rewrite Hbase.
  - rewrite Hbase, Hlookup, IH by lia. done.
Qed.

(** A plugin has at most one base chain. *)
Lemma baseChain_functional plugin bases bases' :
  baseChain plugins plugin bases → baseChain plugins plugin bases' → bases = bases'.
Proof.
  intros Hchain. revert bases'.
  induction Hchain as [plugin Hbase | plugin baseName base bases Hbase Hlookup _ IH];
    intros bases'; inversion 1; subst; try congruence.
  assert (baseName0 = baseName) as -> by congruence.
  assert (base0 = base) as -> by congruence.
  f_equal. by apply IH.
Qed.

(** Every plugin of a chain has the rest of the chain as its own. *)
Lemma baseChain_at plugin bases i plugin' :
  baseChain plugins plugin bases → (plugin :: bases) !! i = Some plugin' →
  baseChain plugins plugin' (drop i bases).
Proof.
  intros Hchain. revert i.
  induction Hchain as [plugin Hbase | plugin baseName base bases Hbase Hlookup Hrest IH];
    intros [|i] Hi; simpl in *.
  - injection Hi as <-. by constructor.
  - done.
  - injection Hi as <-. by econstructor.
  - by apply IH.
Qed.

End BaseChains.

(** No plugin of a chain leads back to the name the chain was entered by:
    the chain would then be its own proper tail. *)
Lemma baseChain_no_return (plugins : PluginMap) baseName base bases plugin' :
  plugins !! baseName = Some base → baseChain plugins base bases →
  plugin' ∈ base :: bases → namedBase plugin' ≠ Some baseName.
Proof.
  intros Hlookup Hchain Hin Hback.
  apply list_elem_of_lookup in Hin as [i Hi].
  pose proof (baseChain_at plugins base bases i plugin' Hchain Hi) as Hrest.
  remember (drop i bases) as tl eqn:Htl.
  destruct Hrest as [plugin' Hnone | plugin' baseName' base' rest Hbase Hlookup' Hrest'];
    [congruence|].
  assert (baseName' = baseName) as -> by congruence.
  assert (base' = base) as -> by congruence.
  pose proof (baseChain_functional plugins base _ _ Hchain Hrest') as Heq.
  assert (length (drop i bases) = S (length rest)) as Hlen by (by rewrite <- Htl).
  rewrite length_drop in Hlen. rewrite Heq in Hlen at 1. lia.
Qed.

(** A chain that never goes through [k] is a chain without [k] loaded. *)
Lemma baseChain_delete (plugins : PluginMap) k plugin bases :
  baseChain plugins plugin bases →
  (∀ plugin', plugin' ∈ plugin :: bases → namedBase plugin' ≠ Some k) →
  baseChain (delete k plugins) plugin bases.
Proof.
  induction 1 as [plugin Hbase | plugin baseName base bases Hbase Hlookup _ IH];
    intros Hk; [by constructor|].
  eapply baseChain_cons; [done| |].
  - rewrite lookup_delete_ne; [done|]. intros ->.
    by apply (Hk plugin (list_elem_of_here _ _)).
  - apply IH. intros plugin' Hin. apply Hk. by constructor.
Qed.

(** A base chain visits each loaded plugin at most once. *)
Lemma baseChain_length (plugins : PluginMap) plugin bases :
  baseChain plugins plugin bases → (length bases ≤ size plugins)%nat.
Proof.
  intros Hchain. revert plugins plugin Hchain.
  induction bases as [|base bases IH]; intros plugins plugin Hchain; simpl; [lia|].
  inversion Hchain as [|? baseName ? ? Hbase Hlookup Hrest]; subst.
  assert (baseChain (delete baseName plugins) base bases) as Hrest'.
  { apply baseChain_delete; [done|]. intros plugin' Hin.
    by eapply baseChain_no_return. }
  apply IH in Hrest'.
  rewrite map_size_delete, Hlookup in Hrest'.
  assert (size plugins ≠ 0%nat).
  { intros H0. apply map_size_empty_inv in H0. by rewrite H0 in Hlookup. }
  lia.
Qed.

(** [getPluginBases] returns for every plugin that has a base chain, and
    returns that chain: the recursion of the source ends on every chain that
    is not cyclic. *)
Lemma getPluginBases_chain (plugins : PluginMap) plugin bases :
  getPluginBases plugin plugins = Ok bases ↔ baseChain plugins plugin bases.
Proof.
  unfold getPluginBases. split.
  - apply getPluginBases_rec_sound.
  - intros Hchain. apply getPluginBases_rec_complete; [done|].
    apply baseChain_length in Hchain. lia.
Qed.

(** ** ResolveProviderTask.getDependencies *)

Lemma filterM_ok {A} (p : A → Exc bool) (sel : A → bool) (l : list A) :
  (∀ x, x ∈ l → p x = Ok (sel x)) → filterM p l = Ok (List.filter sel l).
Proof.
  induction l as [|x l IH]; intros Hp; [done|]. simpl.
  rewrite (Hp x) by constructor. rewrite IH by (intros; apply Hp; by constructor).
  simpl. by destruct (sel x).
Qed.

(** The first call that raises decides the error of a [Bluebird.map] whose
    calls return or raise at once. *)
Lemma mapM_Exc_throw {A B} (f : A → Exc B) (raises : A → Prop) (err : A → GardenError)
    (l : list A) :
  (∀ x, x ∈ l → is_Ok (f x) = true ∨ raises x ∧ f x = Throw (err x)) →
  (∃ x, x ∈ l ∧ is_Ok (f x) = false) →
  ∃ x, x ∈ l ∧ raises x ∧ mapM f l = Throw (err x).
Proof.
  induction l as [|x l IH]; intros Hall [y [Hy Hthrows]]; [by apply elem_of_nil in Hy|].
  rewrite mapM_Exc_cons.
  destruct (Hall x (list_elem_of_here _ _)) as [Hok | [Hr Herr]].
  - destruct (f x) as [e|b] eqn:Hfx; [done|].
    destruct IH as (x' & Hx' & Hr' & Hm).
    + intros z Hz. apply Hall. by constructor.
    + apply elem_of_cons in Hy as [-> | Hy]; [congruence|]. by exists y.
    + exists x'. split; [by constructor|]. split; [done|]. by rewrite Hm.
  - exists x. split; [constructor|]. split; [done|]. by rewrite Herr.
Qed.

Section GetDependencies.
Import ResolveProviderTask.
Variable I : Imports.
Variable this : ResolveProviderTask.t.
Variable plugins : PluginMap.

(** Every configured provider has a loaded plugin with a base chain. *)
Hypothesis Hloaded :
  ∀ c, c ∈ getRawProviderConfigs (garden this) →
       ∃ plugin bases, plugins !! pc_name c = Some plugin ∧ baseChain plugins plugin bases.

Lemma selects_inherits depName c :
  c ∈ getRawProviderConfigs (garden this) →
  selects plugins depName c = true ↔ inherits plugins c depName.
Proof.
  intros Hc. destruct (Hloaded c Hc) as (plugin & bases & Hplugin & Hchain).
  unfold selects, inherits. rewrite Hplugin.
  rewrite (proj2 (getPluginBases_chain plugins plugin bases) Hchain).
  rewrite orb_true_iff, !bool_decide_eq_true. split.
  - intros [? | ?]; [by left|right]. by exists plugin, bases.
  - intros [? | (plugin' & bases' & [= <-] & Hchain' & Hin)]; [by left|right].
    by rewrite (baseChain_functional plugins plugin _ _ Hchain Hchain').
Qed.

Lemma matches_selects depName c :
  c ∈ getRawProviderConfigs (garden this) →
  matches plugins depName c = Ok (selects plugins depName c).
Proof.
  intros Hc. destruct (Hloaded c Hc) as (plugin & bases & Hplugin & Hchain).
  unfold matches, selects, getPluginBaseNames. rewrite Hplugin.
  rewrite (proj2 (getPluginBases_chain plugins plugin bases) Hchain).
  by case_bool_decide.
Qed.

Lemma dependencyTasks_selects depName :
  dependencyTasks this plugins depName =
    let matched := List.filter (selects plugins depName) (getRawProviderConfigs (garden this)) in
    if bool_decide (matched = []) then Throw (missingDependency this depName)
    else Ok (map (fun c => mk (garden this) (plugins !! depName) c (version this)
                              (forceInit this)) matched).
Proof.
  unfold dependencyTasks.
  rewrite (filterM_ok _ (selects plugins depName)) by (intros; by apply matches_selects).
  simpl. destruct (List.filter _ _); by simpl.
Qed.

End GetDependencies.

Lemma mjoin_Forall2 {A B} (h : A → list B) (l : list A) (ks : list (list B)) :
  Forall2 (fun x k => k = h x) l ks → mjoin ks = l ≫= h.
Proof. induction 1 as [|x k l ks -> _ IH]; [done|]. simpl. by rewrite IH. Qed.

(** C3.  Let every configured provider have a loaded plugin with a base
    chain.  For each dependency name [D] of the provider, in order,
    [getDependencies] yields one resolve-provider task for each configured
    provider that has the name [D] or whose plugin has [D] in its base chain,
    in the order of the configuration; and when some dependency name is
    answered by no configured provider, it raises the ConfigurationError
    about a missing provider dependency. *)
Theorem getDependencies_matches_bases (I : Imports) (this : ResolveProviderTask.t)
    (depNames : list string) (loaded : list GardenPlugin) :
  let raw := getRawProviderConfigs (ResolveProviderTask.garden this) in
  let plugins := keyBy loaded in
  let task := fun D c =>
    ResolveProviderTask.mk (ResolveProviderTask.garden this) (plugins !! D) c
      (ResolveProviderTask.version this) (ResolveProviderTask.forceInit this) in
  getAllProviderDependencyNames I (ResolveProviderTask.plugin this)
    (ResolveProviderTask.config this) = Ok depNames →
  getPlugins (ResolveProviderTask.garden this) = Ok loaded →
  (∀ c, c ∈ raw →
        ∃ plugin bases, plugins !! pc_name c = Some plugin ∧ baseChain plugins plugin bases) →
  ∃ sel : string → ProviderConfig → bool,
    (∀ D c, c ∈ raw → sel D c = true ↔ inherits plugins c D) ∧
    ((∀ D, D ∈ depNames → ∃ c, c ∈ raw ∧ inherits plugins c D) →
     ResolveProviderTask.getDependencies I this =
       Ok (depNames ≫= fun D => map (task D) (List.filter (sel D) raw))) ∧
    (∀ D, D ∈ depNames → (∀ c, c ∈ raw → ¬ inherits plugins c D) →
     ∃ D', D' ∈ depNames ∧ (∀ c, c ∈ raw → ¬ inherits plugins c D') ∧
           ResolveProviderTask.getDependencies I this =
             Throw (ResolveProviderTask.missingDependency this D') ∧
           kind (ResolveProviderTask.missingDependency this D') = ConfigurationError).
Proof.
  intros raw plugins task Hnames Hloaded Hwf.
  exists (selects plugins). split; [|split].
  - intros D c Hc. by apply (selects_inherits this plugins Hwf).
  - intros Hall. unfold ResolveProviderTask.getDependencies.
    rewrite Hnames, Hloaded. simpl. fold plugins.
    assert (mapM (ResolveProviderTask.dependencyTasks this plugins) depNames =
            Ok (map (fun D => map (task D) (List.filter (selects plugins D) raw)) depNames))
      as ->.
    { apply mapM_Exc_ok. apply Forall2_fmap_r, Forall_Forall2_diag, Forall_forall.
      intros D HD. rewrite (dependencyTasks_selects this plugins Hwf). simpl.
      rewrite bool_decide_false; [done|].
      destruct (Hall D HD) as (c & Hc & Hinh).
      apply (selects_inherits this plugins Hwf) in Hinh; [|done].
      intros Hnil. assert (c ∈ List.filter (selects plugins D) raw) as Hin.
      { apply list_elem_of_In, filter_In. split; [by apply list_elem_of_In|done]. }
      fold raw in Hnil. rewrite Hnil in Hin. by apply elem_of_nil in Hin. }
    simpl. f_equal. apply mjoin_Forall2.
    apply Forall2_fmap_r, Forall_Forall2_diag, Forall_forall. done.
  - intros D HD Hnone. unfold ResolveProviderTask.getDependencies.
    rewrite Hnames, Hloaded. simpl. fold plugins.
    destruct (mapM_Exc_throw (ResolveProviderTask.dependencyTasks this plugins)
                (fun D' => ∀ c, c ∈ raw → ¬ inherits plugins c D')
                (ResolveProviderTask.missingDependency this) depNames)
      as (D' & HD' & Hnone' & Hthrow).
    + intros D' HD'. rewrite (dependencyTasks_selects this plugins Hwf). simpl.
      case_bool_decide as Hnil; [right|by left]. split; [|done].
      intros c Hc Hinh. apply (selects_inherits this plugins Hwf) in Hinh; [|done].
      assert (c ∈ List.filter (selects plugins D') raw) as Hin.
      { apply list_elem_of_In, filter_In. split; [by apply list_elem_of_In|done]. }
      fold raw in Hnil. rewrite Hnil in Hin. by apply elem_of_nil in Hin.
    + exists D. split; [done|].
      rewrite (dependencyTasks_selects this plugins Hwf). simpl.
      rewrite bool_decide_true; [done|].
      destruct (List.filter (selects plugins D) raw) as [|c l] eqn:Hfilter; [done|].
      assert (c ∈ List.filter (selects plugins D) raw) as Hin
        by (rewrite Hfilter; constructor).
      apply list_elem_of_In, filter_In in Hin as [Hc Hsel].
      apply list_elem_of_In in Hc.
      apply (selects_inherits this plugins Hwf) in Hsel; [|done].
      by destruct (Hnone c Hc).
    + exists D'. rewrite Hthrow. done.
Qed.

(** The provider-inheritance scenario: [test-b] depends on [base-a], which is
    not configured itself; the dependency is answered by [test-a], whose
    plugin has [base-a] as its base.  A dependency on [postgres], which no
    configured provider answers to, raises the ConfigurationError. *)
Lemma getDependencies_matches_bases_witness :
  ResolveProviderTask.getDependencies Sample.imports (Sample.taskB false) =
    Ok [ResolveProviderTask.mk Sample.garden (Some Sample.baseA) Sample.configA
          Sample.version0 false] ∧
  ∃ e, ResolveProviderTask.getDependencies Sample.imports Sample.taskB' = Throw e ∧
       kind e = ConfigurationError.
Proof.
  set (plugins := keyBy [Sample.baseA; Sample.testA; Sample.testB]).
  assert (baseChain plugins Sample.testA [Sample.baseA]) as HchainA.
  { eapply baseChain_cons; [reflexivity | reflexivity | by constructor]. }
  assert (baseChain plugins Sample.testB []) as HchainB by (by constructor).
  assert (∀ c, c ∈ [Sample.configA; Sample.configB] →
               ∃ plugin bases,
                 plugins !! pc_name c = Some plugin ∧ baseChain plugins plugin bases) as Hwf.
  { intros c Hc.
    apply elem_of_cons in Hc as [-> | Hc]; [by exists Sample.testA, [Sample.baseA]|].
    apply elem_of_cons in Hc as [-> | Hc]; [by exists Sample.testB, []|].
    by apply elem_of_nil in Hc. }
  assert (inherits plugins Sample.configA "base-a") as HinhA.
  { right. exists Sample.testA, [Sample.baseA]. split; [reflexivity|]. split; [done|].
    simpl. constructor. }
  assert (∀ D, D ≠ "test-b" → ¬ inherits plugins Sample.configB D) as HinhB.
  { intros D HD [Hname | (plugin & bases & Hplugin & Hchain & Hin)]; [done|].
    injection Hplugin as <-.
    rewrite (baseChain_functional _ _ _ _ Hchain HchainB) in Hin.
    by apply elem_of_nil in Hin. }
  split.
  - destruct (getDependencies_matches_bases Sample.imports (Sample.taskB false) ["base-a"]
                [Sample.baseA; Sample.testA; Sample.testB])
      as (sel & Hsel & Hok & _); [reflexivity | reflexivity | exact Hwf |].
    rewrite Hok.
    + assert (sel "base-a" Sample.configA = true) as HselA.
      { apply Hsel; [constructor | done]. }
      assert (sel "base-a" Sample.configB = false) as HselB.
      { apply not_true_is_false. intros Htrue. apply (HinhB "base-a"); [done|].
        apply (Hsel "base-a" Sample.configB); [|done]. do 2 constructor. }
      simpl. by rewrite HselA, HselB.
    + intros D HD. apply list_elem_of_singleton in HD as ->.
      exists Sample.configA. split; [constructor | done].
  - destruct (getDependencies_matches_bases Sample.imports Sample.taskB' ["postgres"]
                [Sample.baseA; Sample.testA; Sample.testB])
      as (_ & _ & _ & Hthrow); [reflexivity | reflexivity | exact Hwf |].
    destruct (Hthrow "postgres") as (D' & _ & _ & -> & Hkind); [constructor | | by eexists].
    intros c Hc.
    apply elem_of_cons in Hc as [-> | Hc].
    + intros [Hname | (plugin & bases & Hplugin & Hchain & Hin)]; [done|].
      injection Hplugin as <-.
      rewrite (baseChain_functional _ _ _ _ Hchain HchainA) in Hin.
      simpl in Hin. apply list_elem_of_singleton in Hin. done.
    + apply elem_of_cons in Hc as [-> | Hc]; [by apply HinhB|].
      by apply elem_of_nil in Hc.
Defined.

(** ** ResolveProviderTask.process: validation *)

Lemma validations_app (tr tr' : list RPEvent) :
  validations (tr ++ tr') = validations tr ++ validations tr'.
Proof. apply omap_app. Qed.

Section ProcessValidation.
Import ResolveProviderTask.
Variable I : Imports.
Variable this : ResolveProviderTask.t.

Local Abbreviation root := (projectRoot (garden this)).
Local Abbreviation V := (validateWithPath I).

Lemma validateConfig_returns c tr out :
  validateConfig I this c = (tr, Ok out) →
  ∃ p, plugin this = Some p ∧
       V (omit_path c) (default joi_object (plugin_configSchema p)) root root
         "provider configuration" ConfigurationError = Ok out ∧
       tr = [Validate (default joi_object (plugin_configSchema p)) (omit_path c)
               "provider configuration"].
Proof.
  unfold validateConfig, thePlugin. destruct (plugin this) as [p|]; [|done].
  rewrite bind_lift_ok. intros [= <- Hout]. by exists p.
Qed.

Lemma validateBases_chained providerName bases c tr c' :
  foldM (validateAgainstBase I this providerName) c bases = (tr, Ok c') →
  map (fun v => v.1.1) (validations tr) = omap plugin_configSchema bases ∧
  chained V root c (validations tr) c'.
Proof.
  revert c tr. induction bases as [|base bases IH]; intros c tr; simpl.
  - intros [= <- <-]. split; [done | constructor].
  - intros H. apply bind_returns in H as (out & tr1 & tr2 & Hout & Hrest & ->).
    rewrite validations_app. destruct (IH out tr2 Hrest) as [IHs IHc].
    unfold validateAgainstBase in Hout.
    destruct (plugin_configSchema base) as [schema|].
    + rewrite bind_emit in Hout. injection Hout as <- Hout. simpl.
      split; [by f_equal|]. by econstructor.
    + injection Hout as <- <-. done.
Qed.

(** [ensurePrepared] validates nothing. *)
Lemma ensurePrepared_validates_nothing tmp :
  validations (trace (ensurePrepared I this tmp)) = [].
Proof.
  unfold ensurePrepared.
  destruct (getActionHelper (garden this)) as [e|actions]; [done|].
  rewrite bind_lift_ok. cbv zeta. rewrite bind_emit.
  destruct (getActionHandler (getEnvironmentStatusHandler actions) _ _ _) as [e|s]; [done|].
  rewrite bind_call_ok.
  destruct (forceInit this || negb (ready s)); simpl.
  - destruct (getActionHandler (prepareEnvironmentHandler actions) _ _ _) as [e|res];
      [done|]. simpl. by destruct (ready (pe_result_status res)).
  - by destruct (ready s).
Qed.

End ProcessValidation.

(** C8, as the code has it.  Let the task's plugin have a base chain among
    the loaded plugins.  When [process] returns a provider, its validations
    were, in this order: the config with its template strings resolved
    against the plugin's own config schema ([joi.object()] when it has none);
    when the plugin has a [configureProvider] handler, the config that
    handler returned (having been given the first validation's output with
    the project root as path) against the own schema again; and then one
    validation against the config schema of each base of the chain that
    declares one, in the order of the chain.  Every validation was of the
    config named with its path omitted and accepted it, each base validation
    being given the output of the validation before it.  The published config
    is the output of the last of them, with the path set again when no base
    schema was applied. *)
Theorem process_validates_in_order (I : Imports) (this : ResolveProviderTask.t)
    (deps : TaskResults) (prov : Provider) (p : GardenPlugin) (loaded bases : list GardenPlugin) :
  let root := projectRoot (ResolveProviderTask.garden this) in
  let own := default joi_object (plugin_configSchema p) in
  let resolvedProviders := map (fun r : string * option TaskResult => tr_output <$> r.2) deps in
  let context :=
    {| pcc_environmentName := environmentName (ResolveProviderTask.garden this);
       pcc_projectName := projectName (ResolveProviderTask.garden this);
       pcc_resolvedProviders := resolvedProviders |} in
  let vs := validations (trace (ResolveProviderTask.process I this deps)) in
  ResolveProviderTask.plugin this = Some p →
  getPlugins (ResolveProviderTask.garden this) = Ok loaded →
  baseChain (keyBy loaded) p bases →
  outcome (ResolveProviderTask.process I this deps) = Ok prov →
  ∃ resolved validated baseVals c0,
    resolveTemplateStrings I (ResolveProviderTask.config this) context = Ok resolved ∧
    validateWithPath I (omit_path resolved) own root root "provider configuration"
      ConfigurationError = Ok validated ∧
    match plugin_handlers p ≫= configureProvider with
    | Some handler =>
        ∃ output validated',
          handler {| cpp_config := set_path root validated;
                     cpp_projectName := projectName (ResolveProviderTask.garden this);
                     cpp_projectRoot := root;
                     cpp_dependencies := resolvedProviders |} = Ok output ∧
          validateWithPath I (omit_path (cpr_config output)) own root root
            "provider configuration" ConfigurationError = Ok validated' ∧
          c0 = set_path root validated' ∧
          vs = (own, omit_path resolved, "provider configuration") ::
               (own, omit_path (cpr_config output), "provider configuration") :: baseVals
    | None =>
        c0 = set_path root validated ∧
        vs = (own, omit_path resolved, "provider configuration") :: baseVals
    end ∧
    map (fun v => v.1.1) baseVals = omap plugin_configSchema bases ∧
    chained (validateWithPath I) root c0 baseVals (p_config prov).
Proof.
  intros root own resolvedProviders context vs Hplugin Hloaded Hchain Hp.
  subst root own resolvedProviders context vs.
  destruct (ResolveProviderTask.process I this deps) as [tr o] eqn:Hrun.
  simpl in Hp. subst o. unfold trace. simpl.
  unfold ResolveProviderTask.process in Hrun.
  apply bind_returns in Hrun as ([] & ? & ? & [= <-] & Hrun & ->).
  apply bind_returns in Hrun as (resolved & ? & ? & [= <- Hresolved] & Hrun & ->).
  apply bind_returns in Hrun as ([] & ? & ? & [= <-] & Hrun & ->).
  apply bind_returns in Hrun as (rc1 & tr1 & ? & Hv1 & Hrun & ->).
  apply validateConfig_returns in Hv1 as (p0 & Hplugin0 & Hv1 & ->).
  assert (p0 = p) as -> by congruence.
  apply bind_returns in Hrun as (p' & ? & ? & [= <- Hp'] & Hrun & ->).
  unfold ResolveProviderTask.thePlugin in Hp'. rewrite Hplugin in Hp'.
  injection Hp' as <-.
  apply bind_returns in Hrun as ([rc2 mcs] & trc & ? & Hconf & Hrun & ->).
  apply bind_returns in Hrun as (loaded' & ? & ? & [= <- Hloaded'] & Hrun & ->).
  assert (loaded' = loaded) as -> by congruence.
  apply bind_returns in Hrun as (bases' & ? & ? & [= <- Hbases] & Hrun & ->).
  apply bind_returns in Hrun as (rc3 & trb & ? & Hfold & Hrun & ->).
  apply bind_returns in Hrun as ([] & ? & ? & [= <-] & Hrun & ->).
  apply bind_returns in Hrun as (status & tre & ? & Hens & [= <- <-] & ->).
  apply validateBases_chained in Hfold as [Hschemas Hchained].
  apply getPluginBases_chain in Hbases.
  assert (bases' = bases) as -> by (by eapply baseChain_functional).
  pose proof (ensurePrepared_validates_nothing I this
                (providerFromConfig rc3
                   (map (fun r : string * option TaskResult => tr_output <$> r.2) deps)
                   mcs (defaultEnvironmentStatus I))) as Hnone.
  rewrite Hens in Hnone. unfold trace in Hnone. simpl in Hnone.
  exists resolved, rc1, (validations trb).
  rewrite !validations_app, Hnone. simpl.
  replace (plugin_handlers p ≫= configureProvider)
    with (default None (configureProvider <$> plugin_handlers p))
    by (by destruct (plugin_handlers p)).
  destruct (default None (configureProvider <$> plugin_handlers p)) as [handler|].
  - apply bind_returns in Hconf as ([] & ? & ? & [= <-] & Hconf & ->).
    apply bind_returns in Hconf as (output & ? & ? & [= <- Houtput] & Hconf & ->).
    apply bind_returns in Hconf as ([] & ? & ? & [= <-] & Hconf & ->).
    apply bind_returns in Hconf as (rc2' & ? & ? & Hv2 & [= <- <- <-] & ->).
    apply validateConfig_returns in Hv2 as (p' & Hplugin' & Hv2 & ->).
    assert (p' = p) as -> by congruence.
    eexists. simpl. rewrite !app_nil_r.
    split; [done|]. split; [done|]. split; [|done].
    exists output, rc2'. done.
  - injection Hconf as <- <- <-.
    eexists. simpl. rewrite !app_nil_r. done.
Qed.

(** In the sample, [test-c] is validated against its own schema and then
    against the schema of its base, and the published config is the output
    of that second validation. *)
Lemma process_validates_in_order_witness :
  ∃ validated baseVals,
    validateWithPath_model (omit_path Sample.configC) Sample.schemaC "/project" "/project"
      "provider configuration" ConfigurationError = Ok validated ∧
    validations (trace (ResolveProviderTask.process Sample.imports Sample.taskC [])) =
      (Sample.schemaC, omit_path Sample.configC, "provider configuration") :: baseVals ∧
    map (fun v => v.1.1) baseVals = [Sample.schemaBaseC] ∧
    chained validateWithPath_model "/project" (set_path "/project" validated) baseVals
      Sample.publishedC.
Proof.
  destruct (process_validates_in_order Sample.imports Sample.taskC []
              (providerFromConfig Sample.publishedC [] []
                 (defaultEnvironmentStatus Sample.imports))
              Sample.testC [Sample.baseC; Sample.testC] [Sample.baseC])
    as (resolved & validated & baseVals & c0 & Hresolved & Hvalidated & Hown & Hschemas &
        Hchained);
    [reflexivity | reflexivity
    | eapply baseChain_cons; [reflexivity | reflexivity | by constructor]
    | reflexivity |].
  injection Hresolved as <-.
  change (plugin_handlers Sample.testC ≫= configureProvider) with
    (@None (ConfigureProviderParams → Exc ConfigureProviderResult)) in Hown.
  cbv beta iota in Hown. destruct Hown as [-> Hvs].
  exists validated, baseVals. split; [exact Hvalidated|]. split; [exact Hvs|].
  split; [exact Hschemas | exact Hchained].
Defined.

(** Against C8 as stated: in the sample, the config published for [test-c]
    is the output of the validation against the base's schema, which filled
    in the base's default for [mode]; the plugin's own schema, which the
    resolved config did pass, does not accept it. *)
Lemma process_publishes_what_own_schema_rejects :
  plugin_configSchema Sample.testC = Some Sample.schemaC ∧
  satisfies validateWithPath_model "/project" Sample.schemaC Sample.configC ∧
  outcome (ResolveProviderTask.process Sample.imports Sample.taskC []) =
    Ok (providerFromConfig Sample.publishedC [] [] (defaultEnvironmentStatus Sample.imports)) ∧
  ¬ satisfies validateWithPath_model "/project" Sample.schemaC Sample.publishedC.
Proof.
  split; [reflexivity|]. split; [by eexists|]. split; [reflexivity|].
  by intros [c' [=]].
Qed.

(** ** The build-version file: write, then read *)

Section VcsRoundTrip.
Import Vcs.

Lemma string_app_assoc (a b c : string) : (a +:+ b) +:+ c = a +:+ (b +:+ c).
Proof.
  induction a as [|x a IH]; [done|].
  cbv [String.append] in *. fold String.append in *. by f_equal.
Qed.

Lemma string_app_nil_r (a : string) : a +:+ "" = a.
Proof.
  induction a as [|x a IH]; [done|].
  cbv [String.append] in *. fold String.append in *. by f_equal.
Qed.

Lemma string_of_list_ascii_snoc (l : list ascii) (c : ascii) (s : string) :
  string_of_list_ascii (l ++ [c]) +:+ s = string_of_list_ascii l +:+ String c s.
Proof.
  induction l as [|x l IH]; [done|]. simpl.
  cbv [String.append] in *. fold String.append in *. by f_equal.
Qed.

(** Reading an escaped character gives the character back. *)
Lemma lex_escapeChar (c : ascii) buf acc rest :
  lex (InString buf) acc (escapeChar c +:+ rest) = lex (InString (c :: buf)) acc rest.
Proof.
  destruct c as [[] [] [] [] [] [] [] []]; reflexivity.
Qed.

(** Reading an escaped string up to its closing quote gives the string
    back. *)
Lemma lex_escape (s : string) buf acc rest :
  lex (InString buf) acc (escape s +:+ String quote rest) =
    lex Outside (Str (string_of_list_ascii (rev buf) +:+ s) :: acc) rest.
Proof.
  revert buf. induction s as [|c s IH]; intros buf.
  - by rewrite string_app_nil_r.
  - cbn [escape]. rewrite string_app_assoc, lex_escapeChar, IH. simpl.
    by rewrite string_of_list_ascii_snoc.
Qed.

Lemma lex_printTokens (ts : list Token) acc :
  lex Outside acc (printTokens ts) = Some (rev acc ++ ts).
Proof.
  revert acc. induction ts as [|t ts IH]; intros acc.
  - simpl. by rewrite app_nil_r.
  - cbn [printTokens].
    assert (∀ t', rev (t' :: acc) ++ ts = rev acc ++ t' :: ts) as Hrev
      by (intros; simpl; by rewrite <- app_assoc).
    destruct t; rewrite <- Hrev, <- IH; try reflexivity.
    change (printToken (Str s) +:+ printTokens ts)
      with (String quote ((escape s +:+ String quote "") +:+ printTokens ts)).
    rewrite string_app_assoc.
    change (String quote "" +:+ printTokens ts) with (String quote (printTokens ts)).
    change (lex Outside acc (String quote (escape s +:+ String quote (printTokens ts))))
      with (lex (InString []) acc (escape s +:+ String quote (printTokens ts))).
    by rewrite lex_escape.
Qed.

Lemma parseElems_commaSep (l : list string) (x : string) rest :
  parseElems (commaSep (map (fun s => [Str s]) (x :: l)) ++ RBracket :: rest) =
    Some (x :: l, rest).
Proof.
  revert x. induction l as [|y l IH]; intros x; [done|].
  change (commaSep (map (fun s => [Str s]) (x :: y :: l)))
    with (Str x :: Comma :: commaSep (map (fun s => [Str s]) (y :: l))).
  cbn [app parseElems]. by rewrite IH.
Qed.

Lemma parseArray_arrayTokens (l : list string) rest :
  parseArray (arrayTokens l ++ rest) = Some (l, rest).
Proof.
  destruct l as [|x l]; [done|].
  unfold arrayTokens. rewrite <- app_comm_cons, <- app_assoc.
  change ([RBracket] ++ rest) with (RBracket :: rest).
  pose proof (parseElems_commaSep l x rest) as H.
  destruct l; exact H.
Qed.

Lemma parseEntries_commaSep (l : list (string * string)) (e : string * string) rest :
  parseEntries (commaSep (map (fun e => [Str e.1; Colon; Str e.2]) (e :: l)) ++
                RBrace :: rest) = Some (e :: l, rest).
Proof.
  revert e. induction l as [|e' l IH]; intros [k v]; [done|].
  change (commaSep (map (fun e => [Str e.1; Colon; Str e.2]) ((k, v) :: e' :: l)))
    with (Str k :: Colon :: Str v :: Comma ::
          commaSep (map (fun e => [Str e.1; Colon; Str e.2]) (e' :: l))).
  cbn [app parseEntries]. by rewrite IH.
Qed.

Lemma parseObject_objectTokens (l : list (string * string)) rest :
  parseObject (objectTokens l ++ rest) = Some (l, rest).
Proof.
  destruct l as [|e l]; [done|].
  unfold objectTokens. rewrite <- app_comm_cons, <- app_assoc.
  change ([RBrace] ++ rest) with (RBrace :: rest).
  pose proof (parseEntries_commaSep l e rest) as H.
  destruct e as [k v]. destruct l; exact H.
Qed.

(** The entries written for a map, read back in any order of equal keys, are
    the map. *)
Lemma list_to_map_sortedEntries (m : gmap string string) :
  list_to_map (reverse (sortedEntries m)) = m.
Proof.
  rewrite <- (list_to_map_to_list m) at 2.
  apply list_to_map_proper.
  - assert (reverse (sortedEntries m) ≡ₚ map_to_list m) as ->.
    { rewrite reverse_Permutation. apply merge_sort_Permutation. }
    apply NoDup_fst_map_to_list.
  - rewrite reverse_Permutation. apply merge_sort_Permutation.
Qed.

Lemma parseDocument_versionTokens (v : ModuleVersion) :
  parseDocument (versionTokens v) = Some v.
Proof.
  unfold versionTokens.
  set (es := sortedEntries (dependencyVersions v)).
  set (tail := [Comma; Str "versionString"; Colon; Str (versionString v); RBrace]).
  set (mid := [Comma; Str "files"; Colon] ++ arrayTokens (files v) ++ tail).
  change ([LBrace; Str "dependencyVersions"; Colon] ++ objectTokens es ++ mid)
    with (LBrace :: (Str "dependencyVersions" :: Colon :: objectTokens es ++ mid)).
  cbn [parseDocument].
  set (ts := Str "dependencyVersions" :: Colon :: objectTokens es ++ mid).
  assert (∃ n, length ts = S (S (S n))) as [n ->].
  { subst ts mid tail. simpl. rewrite !length_app. simpl.
    rewrite !length_app. simpl. eexists.
    rewrite !Nat.add_succ_r, Nat.add_succ_l. reflexivity. }
  assert (parseFields (S (S (S n))) ts =
          Some [FDependencyVersions es; FFiles (files v); FVersionString (versionString v)])
    as ->.
  { subst ts. cbn [parseFields parseField String.eqb Ascii.eqb Bool.eqb].
    rewrite parseObject_objectTokens. subst mid.
    cbn [app parseField String.eqb Ascii.eqb Bool.eqb].
    rewrite parseArray_arrayTokens. subst tail. reflexivity. }
  simpl. subst es. rewrite list_to_map_sortedEntries. by destruct v.
Qed.

Lemma parse_serialize (v : ModuleVersion) : parse (serialize v) = Some v.
Proof.
  unfold parse, serialize. rewrite lex_printTokens. simpl.
  apply parseDocument_versionTokens.
Qed.

End VcsRoundTrip.

(** C7.  Reading a path right after a [ModuleVersion] was written to it
    gives that version back, version string, dependency versions and files;
    so after [buildExecModule] has returned, the module's build-version file
    reads as the module's current version, and [getExecModuleBuildStatus]
    finds the module ready. *)
Theorem write_then_read_module_version :
  (∀ path version w,
     let w' := (Vcs.writeModuleVersionFile path version w).2 in
     (Vcs.writeModuleVersionFile path version w).1 = Ok tt ∧
     Vcs.readModuleVersionFile path w' = (Ok (Some version), w')) ∧
  (∀ I module w out w',
     readModuleVersionFile I = Vcs.readModuleVersionFile →
     writeModuleVersionFile I = Vcs.writeModuleVersionFile →
     buildExecModule I module w = (Ok out, w') →
     readModuleVersionFile I
       (join I (m_buildMetadataPath module) (GARDEN_BUILD_VERSION_FILENAME I)) w' =
       (Ok (Some (m_version module)), w') ∧
     getExecModuleBuildStatus I module w' = (Ok {| bst_ready := true |}, w')).
Proof.
  assert (∀ path version w,
            Vcs.readModuleVersionFile path (Vcs.writeModuleVersionFile path version w).2 =
              (Ok (Some version), (Vcs.writeModuleVersionFile path version w).2)) as Hrt.
  { intros path version w. unfold Vcs.readModuleVersionFile, Vcs.writeModuleVersionFile.
    simpl. by rewrite lookup_insert_eq, parse_serialize. }
  split; [intros path version w; split; [done | apply Hrt]|].
  intros I module w out w' Hread Hwrite Hbuild.
  assert (readModuleVersionFile I
            (join I (m_buildMetadataPath module) (GARDEN_BUILD_VERSION_FILENAME I)) w' =
          (Ok (Some (m_version module)), w')) as Hfile.
  { unfold buildExecModule, mbind, IO_bind in Hbuild.
    rewrite Hread, Hwrite in *.
    match type of Hbuild with
    | context [match ?stage with _ => _ end] => destruct stage as [[e|built] w1]; [done|]
    end.
    injection Hbuild as _ <-. apply Hrt. }
  split; [done|].
  unfold getExecModuleBuildStatus, mbind, IO_bind, ignoringErrors.
  rewrite Hfile. by rewrite bool_decide_true.
Qed.

(** In the sample, building [module-a] in an empty world runs [echo A] and
    leaves a build-version file that reads as the version of the module. *)
Lemma write_then_read_module_version_witness :
  let path := "/project/.garden/build-metadata/module-a/garden-build-version" in
  let w' := (Vcs.writeModuleVersionFile path Sample.version0
               (Sample.tick Sample.emptyWorld)).2 in
  buildExecModule Sample.execImports Sample.moduleA Sample.emptyWorld =
    (Ok {| br_fresh := Some true; br_buildLog := Some ("A" +:+ newline) |}, w') ∧
  Vcs.readModuleVersionFile path w' = (Ok (Some Sample.version0), w').
Proof.
  split; [reflexivity|].
  eapply proj1.
  apply (proj2 write_then_read_module_version Sample.execImports Sample.moduleA
           Sample.emptyWorld
           {| br_fresh := Some true; br_buildLog := Some ("A" +:+ newline) |});
    reflexivity.
Defined.

Section TestProcessInvariant.
Import TestTask.

Lemma run_returns I this deps r :
  outcome (run I this deps) = Ok r →
  res_success r = true ∧
  ∃ actions rc,
    getActionHelper (garden this) = Ok actions ∧
    actions_testModule actions
      {| tm_interactive := false; tm_module := module this; tm_runtimeContext := rc;
         tm_silent := true; tm_testConfig := testConfig this;
         tm_testVersion := version this |} = Ok r.
Proof.
  unfold run. intros H.
  apply bind_ok_inv in H as ([] & _ & H & _).
  apply bind_ok_inv in H as (d & _ & H & _).
  apply bind_ok_inv in H as (rc & _ & H & _).
  apply bind_ok_inv in H as (actions & Ha & H & _).
  apply bind_ok_inv in H as (res & Hres & H & _).
  unfold lift, outcome in Ha. simpl in Ha.
  unfold rethrowing, call, outcome in Hres. simpl in Hres.
  destruct (actions_testModule actions _) as [e|res'] eqn:Hh; simpl in Hres; [done|].
  injection Hres as ->.
  destruct (res_success res) eqn:Hs; [|done].
  apply bind_ok_inv in H as ([] & _ & H & _). injection H as <-.
  split; [done|]. by exists actions, rc.
Qed.

End TestProcessInvariant.

(** X1.  [TestTask.process] never returns a result that failed: whatever it
    returns has [success] set, and is either the stored result that the
    lookup found (with [force] off) or the result the [testModule] handler
    returned for this test. *)
Theorem process_returns_only_passed (I : TestImports) (this : TestTask.t)
    (deps : TestTaskResults) (r : TestResult) :
  outcome (TestTask.process I this deps) = Ok r →
  res_success r = true ∧
  ∃ actions,
    getActionHelper (TestTask.garden this) = Ok actions ∧
    ((TestTask.force this = false ∧
      actions_getTestResult actions
        {| gtr_module := TestTask.module this;
           gtr_testName := tc_name (TestTask.testConfig this);
           gtr_testVersion := TestTask.version this |} = Ok (Some r)) ∨
     ∃ rc,
       actions_testModule actions
         {| tm_interactive := false; tm_module := TestTask.module this;
            tm_runtimeContext := rc; tm_silent := true;
            tm_testConfig := TestTask.testConfig this;
            tm_testVersion := TestTask.version this |} = Ok r).
Proof.
  unfold TestTask.process. intros H.
  apply bind_ok_inv in H as (stored & Hlookup & H & _).
  assert (outcome (TestTask.run I this deps) = Ok r →
          res_success r = true ∧ ∃ actions,
            getActionHelper (TestTask.garden this) = Ok actions ∧
            ((TestTask.force this = false ∧
              actions_getTestResult actions
                {| gtr_module := TestTask.module this;
                   gtr_testName := tc_name (TestTask.testConfig this);
                   gtr_testVersion := TestTask.version this |} = Ok (Some r)) ∨
             ∃ rc,
               actions_testModule actions
                 {| tm_interactive := false; tm_module := TestTask.module this;
                    tm_runtimeContext := rc; tm_silent := true;
                    tm_testConfig := TestTask.testConfig this;
                    tm_testVersion := TestTask.version this |} = Ok r)) as Hrun.
  { intros Hr. apply run_returns in Hr as (Hs & actions & rc & Ha & Hh).
    split; [done|]. exists actions. split; [done|]. right. by exists rc. }
  destruct stored as [s|]; [|by apply Hrun].
  destruct (res_success s) eqn:Hs; [|by apply Hrun].
  apply bind_ok_inv in H as ([] & _ & H & _).
  apply bind_ok_inv in H as ([] & _ & H & _).
  injection H as <-. split; [done|].
  unfold TestTask.getTestResult in Hlookup.
  destruct (TestTask.force this) eqn:Hf; [done|].
  apply bind_ok_inv in Hlookup as (actions & Ha & Hl & _).
  exists actions. split; [by destruct (getActionHelper _) as [|a]; [|injection Ha as ->]|].
  left. split; [done|]. exact Hl.
Qed.

Lemma process_returns_only_passed_witness :
  res_success Sample.storedSuccess = true ∧ res_success Sample.freshSuccess = true.
Proof.
  split.
  - apply (process_returns_only_passed Sample.testImports
             (Sample.testTask (Some Sample.storedSuccess) false) [] Sample.storedSuccess).
    reflexivity.
  - apply (process_returns_only_passed Sample.testImports
             (Sample.testTask (Some Sample.storedFailure) false) [] Sample.freshSuccess).
    reflexivity.
Defined.

(** ** Validation failures end [process] *)

Section StopsAtFailure.
Variable I : Imports.
Variable root : string.

Local Abbreviation V := (validateWithPath I).

(** The invariant of a run: every validation but possibly the last call was
    accepted, all of them were if the run returned, and a run whose last call
    is a rejected validation raises the error of that validation. *)
Local Abbreviation failFast m :=
  (Forall (validationPassed I root) (removelast (trace m)) ∧
   (is_Ok (outcome m) = true → Forall (validationPassed I root) (trace m)) ∧
   (∀ pre schema config configType e,
      trace m = pre ++ [Validate schema config configType] →
      V config schema root root configType ConfigurationError = Throw e →
      outcome m = Throw e)).

Lemma failFast_bind {A B} (m : Eff RPEvent A) (f : A → Eff RPEvent B) :
  failFast m → (∀ a, failFast (f a)) → failFast (m ≫= f).
Proof.
  intros (Hm1 & Hm2 & Hm3) Hf.
  destruct m as [tr [e|a]]; unfold mbind, Eff_bind, trace, outcome in *; simpl in *.
  { repeat split; [done|done|]. intros pre schema config configType e' Htr Hthrow.
    specialize (Hm3 _ _ _ _ _ Htr Hthrow). by injection Hm3 as ->. }
  specialize (Hm2 eq_refl). destruct (Hf a) as (Hf1 & Hf2 & Hf3).
  destruct (f a) as [tr' o]; simpl in *.
  destruct (decide (tr' = [])) as [->|Hne].
  - rewrite app_nil_r. repeat split; [done|done|].
    intros pre schema config configType e -> Hthrow.
    apply Forall_app in Hm2 as [_ Hlast]. rewrite Forall_singleton in Hlast.
    unfold validationPassed in Hlast. by rewrite Hthrow in Hlast.
  - repeat split.
    + rewrite removelast_app by done. by apply Forall_app.
    + intros Hok. apply Forall_app. auto.
    + intros pre schema config configType e Htr Hthrow.
      destruct (exists_last Hne) as (init & lst & ->).
      rewrite app_assoc in Htr. apply app_inj_tail in Htr as [_ ->].
      by eapply Hf3.
Qed.

Lemma failFast_ret {A} (a : A) : failFast (mret a : Eff RPEvent A).
Proof. repeat split; try done. intros [|??] ?????; simplify_list_eq. Qed.

Lemma failFast_lift {A} (m : Exc A) : failFast (lift m : Eff RPEvent A).
Proof. repeat split; try done. intros [|??] ?????; simplify_list_eq. Qed.

Lemma failFast_throw {A} e : failFast (throw e : Eff RPEvent A).
Proof. repeat split; try done. intros [|??] ?????; simplify_list_eq. Qed.

Lemma failFast_log msg : failFast (emit (Log msg)).
Proof.
  repeat split; [done|by repeat constructor|].
  intros [|? [|??]] ?????; simplify_list_eq.
Qed.

Lemma failFast_handler {A} ev (r : Exc A) :
  isHandlerCall ev = true → failFast (call ev r).
Proof.
  intros Hev. repeat split; [done| |].
  - intros _. constructor; [by destruct ev|done].
  - intros [|? [|??]] ?????; simplify_list_eq.
Qed.

Lemma failFast_validate schema config configType :
  failFast (call (Validate schema config configType)
              (V config schema root root configType ConfigurationError)).
Proof.
  repeat split; [done| |].
  - intros Hok. by constructor.
  - intros [|? [|??]] ?????; simplify_list_eq. done.
Qed.

Lemma failFast_foldM {A B} (f : A → B → Eff RPEvent A) (a : A) (l : list B) :
  (∀ a b, failFast (f a b)) → failFast (foldM f a l).
Proof.
  intros Hf. revert a. induction l as [|b l IH]; intros a; simpl.
  - apply failFast_ret.
  - apply failFast_bind; [apply Hf|]. intros a'. apply IH.
Qed.

End StopsAtFailure.

Section ProcessFailFast.
Import ResolveProviderTask.
Variable I : Imports.
Variable this : ResolveProviderTask.t.

Local Abbreviation root := (projectRoot (garden this)).

Local Abbreviation failFast m :=
  (Forall (validationPassed I root) (removelast (trace m)) ∧
   (is_Ok (outcome m) = true → Forall (validationPassed I root) (trace m)) ∧
   (∀ pre schema config configType e,
      trace m = pre ++ [Validate schema config configType] →
      validateWithPath I config schema root root configType ConfigurationError = Throw e →
      outcome m = Throw e)).

Local Ltac failFast_step :=
  first
    [ apply failFast_ret | apply failFast_lift | apply failFast_throw | apply failFast_log
    | apply failFast_validate | (apply failFast_handler; reflexivity)
    | (apply failFast_bind; [|intros ?]) ].

Lemma validateConfig_failFast c : failFast (validateConfig I this c).
Proof. unfold validateConfig. repeat failFast_step. Qed.

Lemma validateAgainstBase_failFast providerName c base :
  failFast (validateAgainstBase I this providerName c base).
Proof.
  unfold validateAgainstBase. destruct (plugin_configSchema base); repeat failFast_step.
Qed.

Lemma ensurePrepared_failFast tmp : failFast (ensurePrepared I this tmp).
Proof.
  unfold ensurePrepared. repeat failFast_step.
  - destruct (_ || _); repeat failFast_step.
  - destruct (negb _); failFast_step.
Qed.

Lemma process_failFast deps : failFast (process I this deps).
Proof.
  unfold process. cbv zeta.
  repeat first
    [ apply validateConfig_failFast | apply ensurePrepared_failFast
    | (apply failFast_foldM; intros; apply validateAgainstBase_failFast)
    | failFast_step ].
  - destruct (default None _);
      repeat first [ apply validateConfig_failFast | failFast_step ].
  - match goal with p : (ProviderConfig * list ModuleConfigRef)%type |- _ => destruct p end.
    repeat first
      [ apply ensurePrepared_failFast
      | (apply failFast_foldM; intros; apply validateAgainstBase_failFast)
      | failFast_step ].
Qed.

End ProcessFailFast.

(** X2.  [ResolveProviderTask.process] stops at the first validation that is
    rejected: a validation that is followed by any further call was accepted,
    so were all validations of a run that returned, and a run that ends in a
    rejected validation raises the error of that validation.  In particular
    a plugin handler ([configureProvider], [getEnvironmentStatus],
    [prepareEnvironment]) is only called once every validation made before it
    has been accepted. *)
Theorem process_stops_at_rejected_validation (I : Imports) (this : ResolveProviderTask.t)
    (deps : TaskResults) :
  let root := projectRoot (ResolveProviderTask.garden this) in
  let run := ResolveProviderTask.process I this deps in
  (∀ pre schema config configType post,
     trace run = pre ++ Validate schema config configType :: post →
     post ≠ [] ∨ is_Ok (outcome run) = true →
     is_Ok (validateWithPath I config schema root root configType ConfigurationError) = true) ∧
  (∀ pre schema config configType e,
     trace run = pre ++ [Validate schema config configType] →
     validateWithPath I config schema root root configType ConfigurationError = Throw e →
     outcome run = Throw e) ∧
  (∀ pre ev post,
     trace run = pre ++ ev :: post → isHandlerCall ev = true →
     Forall (validationPassed I root) pre).
Proof.
  intros root run. destruct (process_failFast I this deps) as (Hinit & Hok & Hlast).
  fold run in Hinit, Hok, Hlast. split; [|split].
  - intros pre schema config configType post Htr [Hpost | Hret].
    + rewrite Htr in Hinit. rewrite removelast_app in Hinit by done.
      apply Forall_app in Hinit as [_ Hinit].
      destruct post as [|ev post]; [done|]. simpl in Hinit.
      by apply Forall_cons in Hinit as [Hv _].
    + specialize (Hok Hret). rewrite Htr in Hok.
      apply Forall_app in Hok as [_ Hok]. by apply Forall_cons in Hok as [Hv _].
  - exact Hlast.
  - intros pre ev post Htr Hev. rewrite Htr in Hinit.
    rewrite removelast_app in Hinit by done. by apply Forall_app in Hinit as [Hpre _].
Qed.

Lemma process_stops_at_rejected_validation_witness :
  outcome (ResolveProviderTask.process Sample.imports SampleMore.taskSlow []) =
    Throw (mkError ConfigurationError "Error validating provider configuration") ∧
  List.filter isHandlerCall
    (trace (ResolveProviderTask.process Sample.imports SampleMore.taskSlow [])) = [].
Proof.
  split; [|reflexivity].
  apply (proj1 (proj2 (process_stops_at_rejected_validation Sample.imports
                         SampleMore.taskSlow []))
           [Log "Resolving template strings for plugin test-c"; Log "Validating test-c config"]
           Sample.schemaC (omit_path SampleMore.configSlow) "provider configuration");
    reflexivity.
Defined.

Lemma trace_bind {Ev A B} (m : Eff Ev A) (f : A → Eff Ev B) :
  trace (m ≫= f) =
    trace m ++ match outcome m with Ok a => trace (f a) | Throw _ => [] end.
Proof.
  destruct m as [tr [e|a]]; unfold mbind, Eff_bind, trace, outcome; simpl; [|done].
  by rewrite app_nil_r.
Qed.

Lemma configureCalls_app (tr tr' : list RPEvent) :
  configureCalls (tr ++ tr') = configureCalls tr ++ configureCalls tr'.
Proof. apply omap_app. Qed.

Section ProcessConfigure.
Import ResolveProviderTask.
Variable I : Imports.
Variable this : ResolveProviderTask.t.

Lemma validateAgainstBase_configures_nothing providerName c base :
  configureCalls (trace (validateAgainstBase I this providerName c base)) = [].
Proof. unfold validateAgainstBase. by destruct (plugin_configSchema base). Qed.

Lemma validateBases_configures_nothing providerName bases c :
  configureCalls (trace (foldM (validateAgainstBase I this providerName) c bases)) = [].
Proof.
  revert c. induction bases as [|base bases IH]; intros c; [done|]. simpl.
  rewrite trace_bind, configureCalls_app, validateAgainstBase_configures_nothing.
  destruct (outcome _); [done | apply IH].
Qed.

Lemma ensurePrepared_configures_nothing tmp :
  configureCalls (trace (ensurePrepared I this tmp)) = [].
Proof.
  unfold ensurePrepared.
  destruct (getActionHelper (garden this)) as [e|actions]; [done|].
  rewrite bind_lift_ok. cbv zeta. rewrite bind_emit.
  destruct (getActionHandler (getEnvironmentStatusHandler actions) _ _ _) as [e|s]; [done|].
  rewrite bind_call_ok.
  destruct (forceInit this || negb (ready s)); simpl.
  - destruct (getActionHandler (prepareEnvironmentHandler actions) _ _ _) as [e|res];
      [done|]. simpl. by destruct (ready (pe_result_status res)).
  - by destruct (ready s).
Qed.

End ProcessConfigure.

(** X3.  When [process] returns a provider for a plugin with a
    [configureProvider] handler, that handler was called exactly once: with
    the output of validating the config with its template strings resolved
    against the plugin's own schema, its path set to the project root, and
    with the project name and root and the providers of the dependency
    results in their order; the module configs of the returned provider are
    the ones the handler returned (none when it returned none).  Without such
    a handler nothing is called and the provider has no module configs.  In
    both cases the provider's dependencies are the providers of the
    dependency results. *)
Theorem process_configures_once (I : Imports) (this : ResolveProviderTask.t)
    (deps : TaskResults) (prov : Provider) :
  let root := projectRoot (ResolveProviderTask.garden this) in
  let run := ResolveProviderTask.process I this deps in
  let resolvedProviders := map (fun r : string * option TaskResult => tr_output <$> r.2) deps in
  let context :=
    {| pcc_environmentName := environmentName (ResolveProviderTask.garden this);
       pcc_projectName := projectName (ResolveProviderTask.garden this);
       pcc_resolvedProviders := resolvedProviders |} in
  outcome run = Ok prov →
  ∃ p resolved validated,
    ResolveProviderTask.plugin this = Some p ∧
    resolveTemplateStrings I (ResolveProviderTask.config this) context = Ok resolved ∧
    validateWithPath I (omit_path resolved) (default joi_object (plugin_configSchema p))
      root root "provider configuration" ConfigurationError = Ok validated ∧
    match plugin_handlers p ≫= configureProvider with
    | Some handler =>
        ∃ output c' status,
          configureCalls (trace run) = [set_path root validated] ∧
          handler {| cpp_config := set_path root validated;
                     cpp_projectName := projectName (ResolveProviderTask.garden this);
                     cpp_projectRoot := root;
                     cpp_dependencies := resolvedProviders |} = Ok output ∧
          prov = providerFromConfig c' resolvedProviders
                   (default [] (cpr_moduleConfigs output)) status
    | None =>
        configureCalls (trace run) = [] ∧
        ∃ c' status, prov = providerFromConfig c' resolvedProviders [] status
    end.
Proof.
  intros root run resolvedProviders context Hp. subst run context.
  destruct (ResolveProviderTask.process I this deps) as [tr o] eqn:Hrun.
  simpl in Hp. subst o. unfold trace. simpl.
  unfold ResolveProviderTask.process in Hrun.
  apply bind_returns in Hrun as ([] & ? & ? & [= <-] & Hrun & ->).
  apply bind_returns in Hrun as (resolved & ? & ? & [= <- Hresolved] & Hrun & ->).
  apply bind_returns in Hrun as ([] & ? & ? & [= <-] & Hrun & ->).
  apply bind_returns in Hrun as (rc1 & tr1 & ? & Hv1 & Hrun & ->).
  apply validateConfig_returns in Hv1 as (p & Hplugin & Hv1 & ->).
  apply bind_returns in Hrun as (p' & ? & ? & [= <- Hp'] & Hrun & ->).
  unfold ResolveProviderTask.thePlugin in Hp'. rewrite Hplugin in Hp'.
  injection Hp' as <-.
  apply bind_returns in Hrun as ([rc2 mcs] & trc & ? & Hconf & Hrun & ->).
  apply bind_returns in Hrun as (loaded & ? & ? & [= <- Hloaded] & Hrun & ->).
  apply bind_returns in Hrun as (bases & ? & ? & [= <- Hbases] & Hrun & ->).
  apply bind_returns in Hrun as (rc3 & trb & ? & Hfold & Hrun & ->).
  apply bind_returns in Hrun as ([] & ? & ? & [= <-] & Hrun & ->).
  apply bind_returns in Hrun as (status & tre & ? & Hens & [= <- <-] & ->).
  pose proof (validateBases_configures_nothing I this (pc_name resolved) bases
                (rc2, mcs).1) as Hb.
  simpl in Hb. rewrite Hfold in Hb. unfold trace in Hb. simpl in Hb.
  pose proof (ensurePrepared_configures_nothing I this
                (providerFromConfig rc3 resolvedProviders mcs
                   (defaultEnvironmentStatus I))) as He.
  subst resolvedProviders. rewrite Hens in He. unfold trace in He. simpl in He.
  exists p, resolved, rc1. split; [done|]. split; [done|]. split; [done|].
  replace (plugin_handlers p ≫= configureProvider)
    with (default None (configureProvider <$> plugin_handlers p))
    by (by destruct (plugin_handlers p)).
  rewrite !configureCalls_app, Hb, He. simpl.
  destruct (default None (configureProvider <$> plugin_handlers p)) as [handler|].
  - apply bind_returns in Hconf as ([] & ? & ? & [= <-] & Hconf & ->).
    apply bind_returns in Hconf as (output & ? & ? & [= <- Houtput] & Hconf & ->).
    apply bind_returns in Hconf as ([] & ? & ? & [= <-] & Hconf & ->).
    apply bind_returns in Hconf as (rc2' & ? & ? & Hv2 & [= <- <- <-] & ->).
    apply validateConfig_returns in Hv2 as (p' & Hplugin' & Hv2 & ->).
    simpl. exists output, rc3, status. split; [done|]. split; [done|]. done.
  - injection Hconf as <- <- <-. simpl. split; [done|]. by exists rc3, status.
Qed.

(** In the sample, [test-d] is configured once, with its own config (which
    its schemaless plugin lets through as it is) at the project root, and
    the provider has the module config its handler returned. *)
Lemma process_configures_once_witness :
  ∃ output c' status,
    configureCalls (trace (ResolveProviderTask.process Sample.imports SampleMore.taskD [])) =
      [set_path "/project" SampleMore.configD] ∧
    SampleMore.configureD
      {| cpp_config := set_path "/project" SampleMore.configD; cpp_projectName := "test";
         cpp_projectRoot := "/project"; cpp_dependencies := [] |} = Ok output ∧
    providerFromConfig
      {| pc_name := "test-d"; pc_path := Some "/project";
         pc_fields := {[ "region" := VStr "eu" ]} |} [] [ {| mc_name := "registry" |} ]
      (defaultEnvironmentStatus Sample.imports) =
    providerFromConfig c' [] (default [] (cpr_moduleConfigs output)) status.
Proof.
  destruct (process_configures_once Sample.imports SampleMore.taskD []
              (providerFromConfig
                 {| pc_name := "test-d"; pc_path := Some "/project";
                    pc_fields := {[ "region" := VStr "eu" ]} |} []
                 [ {| mc_name := "registry" |} ] (defaultEnvironmentStatus Sample.imports)))
    as (p & resolved & validated & Hp & Hresolved & Hvalidated & Hcalls); [reflexivity|].
  injection Hp as <-. injection Hresolved as <-.
  change (validateWithPath Sample.imports (omit_path SampleMore.configD)
            (default joi_object (plugin_configSchema SampleMore.testD)) "/project"
            "/project" "provider configuration" ConfigurationError)
    with (Ok (omit_path SampleMore.configD)) in Hvalidated.
  injection Hvalidated as <-. exact Hcalls.
Defined.

Lemma baseChain_NoDup (plugins : PluginMap) plugin bases :
  baseChain plugins plugin bases → NoDup (plugin :: bases).
Proof.
  intros Hchain. apply NoDup_alt. intros i j x Hi Hj.
  destruct (decide (i = j)) as [|Hne]; [done|]. exfalso.
  pose proof (baseChain_at plugins plugin bases i x Hchain Hi) as Hci.
  pose proof (baseChain_at plugins plugin bases j x Hchain Hj) as Hcj.
  pose proof (baseChain_functional plugins _ _ _ Hci Hcj) as Heq.
  apply (f_equal length) in Heq. rewrite !length_drop in Heq.
  apply lookup_lt_Some in Hi, Hj. simpl in Hi, Hj. lia.
Qed.

Lemma baseChain_loaded (plugins : PluginMap) plugin bases :
  baseChain plugins plugin bases →
  ∀ b, b ∈ bases → ∃ k, plugins !! k = Some b.
Proof.
  induction 1 as [|plugin baseName base bases Hn Hl _ IH]; intros b Hb.
  - by apply elem_of_nil in Hb.
  - apply elem_of_cons in Hb as [->|Hb]; [by exists baseName | by apply IH].
Qed.

Lemma baseChain_last (plugins : PluginMap) plugin bases l :
  baseChain plugins plugin bases → last (plugin :: bases) = Some l → namedBase l = None.
Proof.
  induction 1 as [plugin Hn|plugin baseName base bases Hn Hl _ IH].
  - by intros [= <-].
  - rewrite last_cons_cons. apply IH.
Qed.

(** X4.  Let the base names be read as the map has them (no plugin names a
    base that the object of loaded plugins only inherits, such as
    [constructor]).  Then the bases [getPluginBases] returns form a chain
    without repetition: the plugin is not among its own bases, no base is
    listed twice, every base is a loaded plugin, there are at most as many as
    loaded plugins, and the chain ends at a plugin without base. *)
Theorem getPluginBases_no_repetition (plugin : GardenPlugin) (loadedPlugins : PluginMap)
    (bases : list GardenPlugin) :
  baseReadsOwn loadedPlugins plugin → basesReadOwn loadedPlugins →
  getPluginBases plugin loadedPlugins = Ok bases →
  NoDup (plugin :: bases) ∧
  (length bases ≤ size loadedPlugins)%nat ∧
  (∀ b, b ∈ bases → ∃ k, loadedPlugins !! k = Some b) ∧
  (∀ l, last (plugin :: bases) = Some l → namedBase l = None).
Proof.
  intros _ _ Hchain%getPluginBases_chain. split; [|split; [|split]].
  - by eapply baseChain_NoDup.
  - by eapply baseChain_length.
  - by eapply baseChain_loaded.
  - intros l. by eapply baseChain_last.
Qed.

Lemma getPluginBases_no_repetition_witness :
  NoDup [Sample.testA; Sample.baseA] ∧
  (length [Sample.baseA] ≤ size (keyBy [Sample.baseA; Sample.testA; Sample.testB]))%nat.
Proof.
  destruct (getPluginBases_no_repetition Sample.testA
              (keyBy [Sample.baseA; Sample.testA; Sample.testB]) [Sample.baseA])
    as (Hnodup & Hlen & _);
    [by apply (bool_decide_unpack _); vm_compute ..| reflexivity |].
  by split.
Defined.

(** ** [getPluginBases]: bases that are not loaded *)

Lemma brokenChain_missing (plugins : PluginMap) plugin bases missing :
  brokenChain plugins plugin bases missing → plugins !! missing = None.
Proof. by induction 1. Qed.

(** With the missing base put in as a plugin without base, a broken chain is
    a base chain. *)
Lemma brokenChain_mended (plugins : PluginMap) plugin bases missing stub :
  brokenChain plugins plugin bases missing → namedBase stub = None →
  baseChain (<[missing := stub]> plugins) plugin (bases ++ [stub]).
Proof.
  intros Hbroken Hstub.
  induction Hbroken as [plugin missing Hn Hl|plugin baseName base bases missing Hn Hl Hb IH].
  - eapply baseChain_cons; [done | apply lookup_insert_eq | by constructor].
  - eapply baseChain_cons; [done | | done].
    rewrite lookup_insert_ne; [done|]. intros <-.
    apply brokenChain_missing in Hb. congruence.
Qed.

Lemma brokenChain_length (plugins : PluginMap) plugin bases missing :
  brokenChain plugins plugin bases missing → (length bases ≤ size plugins)%nat.
Proof.
  intros Hbroken.
  pose (stub := mkPlugin "" None None None None).
  pose proof (brokenChain_mended plugins plugin bases missing stub Hbroken eq_refl) as Hc.
  apply baseChain_length in Hc.
  rewrite length_app in Hc.
  pose proof (brokenChain_missing _ _ _ _ Hbroken) as Hm.
  rewrite (map_size_insert_None _ _ _ Hm) in Hc.
  simpl in Hc. lia.
Qed.

Lemma getPluginBases_rec_broken (plugins : PluginMap) n plugin bases missing :
  brokenChain plugins plugin bases missing → (length bases < n)%nat →
  getPluginBases_rec n plugin plugins =
    Throw (baseNotFound missing (default plugin (last bases))).
Proof.
  intros Hbroken. revert n.
  induction Hbroken as [plugin missing Hn Hl|plugin baseName base bases missing Hn Hl Hb IH];
    intros [|n] Hlen; simpl in *; try lia; rewrite Hn, Hl.
  - reflexivity.
  - rewrite IH by lia.
    destruct bases as [|b bases]; [done|]. rewrite last_cons_cons.
    destruct (last (b :: bases)) eqn:Hlast; [done|]. by apply last_None in Hlast.
Qed.

Lemma getPluginBases_rec_throws (plugins : PluginMap) n plugin e :
  getPluginBases_rec n plugin plugins = Throw e →
  (∃ bases missing,
     brokenChain plugins plugin bases missing ∧
     e = baseNotFound missing (default plugin (last bases))) ∨
  e = mkError RangeError "Maximum call stack size exceeded".
Proof.
  revert plugin e. induction n as [|n IH]; intros plugin e; simpl; [intros [= <-]; by right|].
  destruct (namedBase plugin) as [baseName|] eqn:Hn; [|done].
  destruct (plugins !! baseName) as [base|] eqn:Hl.
  - destruct (getPluginBases_rec n base plugins) as [e'|rest] eqn:Hrec; [|done].
    intros [= <-]. destruct (IH base e' Hrec) as [(bases & missing & Hb & ->) | ->]; [|by right].
    left. exists (base :: bases), missing. split; [by econstructor|].
    destruct bases as [|b bases]; [done|]. rewrite last_cons_cons.
    destruct (last (b :: bases)) eqn:Hlast; [done|]. by apply last_None in Hlast.
  - intros [= <-]. left. exists [], baseName. split; [by constructor|done].
Qed.

(** X5.  Let the base names be read as the map has them (no plugin names a
    base that the object of loaded plugins only inherits).  Then
    [getPluginBases] raises a RuntimeError exactly when following the [base]
    names leads, possibly through several loaded bases, to a name that is not
    loaded; the error names that base and the plugin that declares it.  The
    only other way for it not to return is an endless (cyclic) chain of
    bases, on which the recursion overflows the call stack. *)
Theorem getPluginBases_missing_base (plugin : GardenPlugin) (loadedPlugins : PluginMap) :
  baseReadsOwn loadedPlugins plugin → basesReadOwn loadedPlugins →
  (∀ bases missing,
     brokenChain loadedPlugins plugin bases missing →
     getPluginBases plugin loadedPlugins =
       Throw (baseNotFound missing (default plugin (last bases)))) ∧
  (∀ e,
     getPluginBases plugin loadedPlugins = Throw e →
     (kind e = RuntimeError ∧
      ∃ bases missing,
        brokenChain loadedPlugins plugin bases missing ∧
        e = baseNotFound missing (default plugin (last bases))) ∨
     (kind e = RangeError ∧
      (∀ bases, ¬ baseChain loadedPlugins plugin bases) ∧
      (∀ bases missing, ¬ brokenChain loadedPlugins plugin bases missing))).
Proof.
  intros _ _. split.
  - intros bases missing Hbroken. apply getPluginBases_rec_broken; [done|].
    apply brokenChain_length in Hbroken. lia.
  - intros e He. destruct (getPluginBases_rec_throws _ _ _ _ He)
      as [(bases & missing & Hb & ->)| ->].
    + left. split; [done|]. by exists bases, missing.
    + right. split; [done|]. split.
      * intros bases Hc%getPluginBases_chain. congruence.
      * intros bases missing Hb. unfold getPluginBases in He.
        rewrite (getPluginBases_rec_broken _ _ _ _ _ Hb) in He;
          [done | apply brokenChain_length in Hb; lia].
Qed.

Lemma getPluginBases_missing_base_witness :
  getPluginBases SampleMore.grandchild (keyBy [SampleMore.child; SampleMore.grandchild]) =
    Throw (mkError RuntimeError "Unable to find base plugin 'ghost' for plugin 'child'").
Proof.
  refine (proj1 (getPluginBases_missing_base SampleMore.grandchild
                   (keyBy [SampleMore.child; SampleMore.grandchild]) _ _)
            [SampleMore.child] "ghost" _);
    [by apply (bool_decide_unpack _); vm_compute ..|].
  eapply brokenChain_later; [reflexivity | reflexivity |].
  by apply brokenChain_here.
Defined.

(** ** Plugins keyed by name *)

Lemma keyBy_lookup (loaded : list GardenPlugin) k p :
  keyBy loaded !! k = Some p → plugin_name p = k ∧ p ∈ loaded.
Proof.
  unfold keyBy.
  assert (∀ m : PluginMap,
            (∀ k p, m !! k = Some p → plugin_name p = k ∧ p ∈ loaded) →
            ∀ l, l ⊆ loaded →
            foldl (fun m p => <[plugin_name p := p]> m) m l !! k = Some p →
            plugin_name p = k ∧ p ∈ loaded) as Hgen.
  { intros m Hm l. revert m Hm. induction l as [|q l IH]; intros m Hm Hsub; simpl.
    - apply Hm.
    - apply IH; [|by intros x Hx; apply Hsub; right]. intros k' p'.
      destruct (decide (plugin_name q = k')) as [<-|Hne].
      + rewrite lookup_insert_eq. intros [= <-]. split; [done|]. apply Hsub. by left.
      + rewrite lookup_insert_ne by done. apply Hm. }
  apply (Hgen ∅); [by intros ?? ?%lookup_empty_Some|done].
Qed.

(** X6.  Let the plugins be keyed by name (as [getDependencies] and
    [process] key them), and let the name asked for and the base names be
    read as the map has them (none of them is a name that the object only
    inherits).  Then the base names of a loaded plugin never contain the
    plugin's own name nor any name twice, every one of them is the name of a
    loaded plugin, and the first is the plugin's own [base]; asking for the
    bases of a name that is not loaded is a TypeError. *)
Theorem getPluginBaseNames_no_repetition (loaded : list GardenPlugin) (name : string) :
  readsOwn (keyBy loaded) name → basesReadOwn (keyBy loaded) →
  (∀ names,
     getPluginBaseNames name (keyBy loaded) = Ok names →
     NoDup (name :: names) ∧
     (∀ n, n ∈ names → ∃ p, keyBy loaded !! n = Some p ∧ plugin_name p = n) ∧
     head names = keyBy loaded !! name ≫= namedBase) ∧
  (keyBy loaded !! name = None →
   ∃ e, getPluginBaseNames name (keyBy loaded) = Throw e ∧ kind e = TypeError).
Proof.
  intros _ _. unfold getPluginBaseNames. split; [|by intros ->; eexists].
  intros names. destruct (keyBy loaded !! name) as [plugin|] eqn:Hplugin; [|done].
  destruct (getPluginBases plugin (keyBy loaded)) as [e|bases] eqn:Hbases; [done|].
  intros [= <-]. apply getPluginBases_chain in Hbases.
  assert (∀ b, b ∈ plugin :: bases → keyBy loaded !! plugin_name b = Some b) as Hkeyed.
  { intros b [->|Hb]%elem_of_cons.
    - by apply keyBy_lookup in Hplugin as Hname; destruct Hname as [<- _].
    - destruct (baseChain_loaded _ _ _ Hbases b Hb) as [k Hk].
      by apply keyBy_lookup in Hk as Hname; destruct Hname as [<- _]. }
  split; [|split].
  - apply keyBy_lookup in Hplugin as Hname. destruct Hname as [<- _].
    change (NoDup (map plugin_name (plugin :: bases))).
    apply NoDup_fmap_2_strong; [|by eapply baseChain_NoDup].
    intros b b' Hb Hb' Heq.
    apply Hkeyed in Hb, Hb'. rewrite Heq in Hb. congruence.
  - intros n (b & -> & Hb)%list_elem_of_fmap. exists b. split; [|done].
    apply Hkeyed. by right.
  - simpl. inversion Hbases as [? Hn|? baseName base rest Hn Hl Hrest]; subst; simpl.
    + by rewrite Hn.
    + rewrite Hn. f_equal. by apply keyBy_lookup in Hl as [? _].
Qed.

Lemma getPluginBaseNames_no_repetition_witness :
  NoDup ["test-a"; "base-a"] ∧
  ∃ e, getPluginBaseNames "postgres" (keyBy [Sample.baseA; Sample.testA; Sample.testB]) =
         Throw e ∧ kind e = TypeError.
Proof.
  destruct (getPluginBaseNames_no_repetition [Sample.baseA; Sample.testA; Sample.testB]
              "test-a") as [Hnames _];
    [by apply (bool_decide_unpack _); vm_compute ..|].
  destruct (getPluginBaseNames_no_repetition [Sample.baseA; Sample.testA; Sample.testB]
              "postgres") as [_ Hmissing];
    [by apply (bool_decide_unpack _); vm_compute ..|].
  split.
  - by apply (Hnames ["base-a"]).
  - by apply Hmissing.
Defined.

(** ** lodash [uniq] *)

Section Uniq.

Local Abbreviation step :=
  (fun (seen : list GardenPlugin) (p : GardenPlugin) =>
     if bool_decide (plugin_name p ∈ map plugin_name seen) then seen else seen ++ [p]).

Lemma uniq_from seen l :
  NoDup (map plugin_name seen) →
  NoDup (map plugin_name (foldl step seen l)) ∧
  (∀ x, x ∈ foldl step seen l → x ∈ seen ∨ x ∈ l) ∧
  (∀ x, x ∈ seen → x ∈ foldl step seen l) ∧
  (∀ x, x ∈ l → plugin_name x ∈ map plugin_name (foldl step seen l)).
Proof.
  revert seen. induction l as [|p l IH]; intros seen Hseen; simpl.
  - repeat split; [done|by left|done|]. by intros x ?%elem_of_nil.
  - case_bool_decide as Hin.
    + destruct (IH seen Hseen) as (H1 & H2 & H3 & H4). repeat split; [done| | done|].
      * intros x Hx. destruct (H2 x Hx) as [Hs | Hl]; [by left | right; by right].
      * intros x [->|Hx]%elem_of_cons; [|by apply H4].
        apply list_elem_of_fmap in Hin as (y & Hy & Hyin).
        rewrite Hy. apply list_elem_of_fmap_2, H3, Hyin.
    + assert (NoDup (map plugin_name (seen ++ [p]))) as Hseen'.
      { rewrite map_app. apply NoDup_app. split; [done|]. split; [|apply NoDup_singleton].
        intros n Hn [->|[]%elem_of_nil]%elem_of_cons. done. }
      destruct (IH _ Hseen') as (H1 & H2 & H3 & H4). repeat split; [done| | |].
      * intros x Hx. destruct (H2 x Hx) as [[Hs | ->%list_elem_of_singleton]%elem_of_app | Hl];
          [by left | right; by left | right; by right].
      * intros x Hx. apply H3, elem_of_app. by left.
      * intros x [->|Hx]%elem_of_cons; [|by apply H4].
        apply list_elem_of_fmap_2, H3, elem_of_app. right. by left.
Qed.

Lemma uniq_NoDup l : NoDup (map plugin_name (uniq l)).
Proof. apply (uniq_from [] l). constructor. Qed.

Lemma uniq_elem_of l x : x ∈ uniq l → x ∈ l.
Proof.
  intros Hx. destruct (uniq_from [] l (NoDup_nil_2)) as (_ & H2 & _).
  by destruct (H2 x Hx) as [?%elem_of_nil|?].
Qed.

Lemma uniq_named l x : x ∈ l → plugin_name x ∈ map plugin_name (uniq l).
Proof. intros Hx. by apply (uniq_from [] l (NoDup_nil_2)). Qed.

End Uniq.

(** ** [getPluginDependencies] *)

Section PluginDependencies.

(** The callback of the [map] over the declared dependencies, at a depth. *)
Local Abbreviation row loaded n plugin :=
  (fun depName : string =>
     match (loaded : PluginMap) !! depName with
     | None => Throw (dependencyNotFound depName plugin)
     | Some depPlugin =>
         rest ← getPluginDependencies_rec n depPlugin loaded;
         mret (depPlugin :: rest)
     end).

Lemma dependencyRow_ok (loaded : PluginMap) n plugin depName r :
  row loaded n plugin depName = Ok r ↔
  ∃ dep rest, loaded !! depName = Some dep ∧
              getPluginDependencies_rec n dep loaded = Ok rest ∧ r = dep :: rest.
Proof.
  cbv beta.
  destruct (loaded !! depName) as [dep|]; [|split; [done | by intros (? & ? & ? & _)]].
  destruct (getPluginDependencies_rec n dep loaded) as [e|rest] eqn:Hrec; simpl.
  - split; [done | intros (? & ? & [= <-] & ? & _); congruence].
  - split; [intros [= <-]; by exists dep, rest|].
    intros (? & ? & [= <-] & Hr & ->). rewrite Hrec in Hr. by injection Hr as ->.
Qed.

Lemma getPluginDependencies_rec_ok (loaded : PluginMap) n plugin deps :
  getPluginDependencies_rec (S n) plugin loaded = Ok deps ↔
  ∃ rows, Forall2 (fun depName r => row loaded n plugin depName = Ok r)
            (declaredDependencies plugin) rows ∧
          deps = uniq (mjoin rows).
Proof.
  simpl. split.
  - intros (rows & Hrows & [= <-])%exc_bind_ok_inv. exists rows.
    by apply mapM_Exc_ok in Hrows.
  - intros (rows & Hrows%mapM_Exc_ok & ->). by rewrite Hrows.
Qed.

(** More depth does not change a result. *)
Lemma getPluginDependencies_rec_S (loaded : PluginMap) n plugin deps :
  getPluginDependencies_rec n plugin loaded = Ok deps →
  getPluginDependencies_rec (S n) plugin loaded = Ok deps.
Proof.
  revert plugin deps. induction n as [|n IH]; intros plugin deps; [done|].
  intros (rows & Hrows & ->)%getPluginDependencies_rec_ok.
  apply getPluginDependencies_rec_ok. exists rows. split; [|done].
  eapply Forall2_impl; [exact Hrows|]. intros d r; cbv beta.
  intros (dep & rest & Hl & Hrec & ->)%dependencyRow_ok.
  apply dependencyRow_ok. exists dep, rest. eauto.
Qed.

Lemma getPluginDependencies_rec_le (loaded : PluginMap) n n' plugin deps :
  (n ≤ n')%nat →
  getPluginDependencies_rec n plugin loaded = Ok deps →
  getPluginDependencies_rec n' plugin loaded = Ok deps.
Proof. induction 1; [done|]. intros. by apply getPluginDependencies_rec_S, IHle. Qed.

(** More loaded plugins do not change a result. *)
Lemma getPluginDependencies_rec_weaken (loaded loaded' : PluginMap) n plugin deps :
  loaded ⊆ loaded' →
  getPluginDependencies_rec n plugin loaded = Ok deps →
  getPluginDependencies_rec n plugin loaded' = Ok deps.
Proof.
  intros Hsub. revert plugin deps. induction n as [|n IH]; intros plugin deps; [done|].
  intros (rows & Hrows & ->)%getPluginDependencies_rec_ok.
  apply getPluginDependencies_rec_ok. exists rows. split; [|done].
  eapply Forall2_impl; [exact Hrows|]. intros d r; cbv beta.
  intros (dep & rest & Hl & Hrec & ->)%dependencyRow_ok.
  apply dependencyRow_ok. exists dep, rest.
  split; [by eapply lookup_weaken|]. eauto.
Qed.

(** A run that returns at a depth at which the plugin under [depName] does
    not, never looked [depName] up. *)
Lemma getPluginDependencies_rec_avoids (loaded : PluginMap) n plugin deps depName dep :
  loaded !! depName = Some dep →
  (∀ r, getPluginDependencies_rec n dep loaded ≠ Ok r) →
  getPluginDependencies_rec n plugin loaded = Ok deps →
  getPluginDependencies_rec n plugin (delete depName loaded) = Ok deps.
Proof.
  intros Hdep. revert plugin deps. induction n as [|n IH]; intros plugin deps Hnot; [done|].
  intros (rows & Hrows & ->)%getPluginDependencies_rec_ok.
  apply getPluginDependencies_rec_ok. exists rows. split; [|done].
  assert (∀ r, getPluginDependencies_rec n dep loaded ≠ Ok r) as Hnot'.
  { intros r Hr. by apply getPluginDependencies_rec_S, Hnot in Hr. }
  eapply Forall2_impl; [exact Hrows|]. intros d r; cbv beta.
  intros (dep' & rest & Hl & Hrec & ->)%dependencyRow_ok.
  apply dependencyRow_ok. exists dep', rest.
  assert (d ≠ depName) as Hne.
  { intros ->. rewrite Hdep in Hl. injection Hl as <-. by apply Hnot' in Hrec. }
  split; [by rewrite lookup_delete_ne|]. split; [|done]. by apply IH.
Qed.

Lemma getPluginDependencies_rec_least (loaded : PluginMap) n plugin deps :
  getPluginDependencies_rec n plugin loaded = Ok deps →
  ∃ k, getPluginDependencies_rec (S k) plugin loaded = Ok deps ∧
       ∀ r, getPluginDependencies_rec k plugin loaded ≠ Ok r.
Proof.
  induction n as [|n IH]; [done|]. intros Hrec.
  destruct (getPluginDependencies_rec n plugin loaded) as [e|r] eqn:Hn.
  - exists n. split; [done|]. by rewrite Hn.
  - apply IH. apply getPluginDependencies_rec_S in Hn. congruence.
Qed.

(** A run that returns at some depth returns within the depth
    [getPluginDependencies] allows. *)
Lemma getPluginDependencies_rec_enough (loaded : PluginMap) n plugin deps :
  getPluginDependencies_rec n plugin loaded = Ok deps →
  getPluginDependencies plugin loaded = Ok deps.
Proof.
  unfold getPluginDependencies.
  remember (size loaded) as s eqn:Hs. revert loaded Hs n plugin deps.
  induction s as [|s IH]; intros loaded Hs [|n] plugin deps; try done.
  - intros (rows & Hrows & ->)%getPluginDependencies_rec_ok.
    apply getPluginDependencies_rec_ok. exists rows. split; [|done].
    eapply Forall2_impl; [exact Hrows|]. intros d r; cbv beta.
    intros (dep & rest & Hl & _)%dependencyRow_ok.
    symmetry in Hs. apply map_size_empty_inv in Hs. subst loaded.
    by rewrite lookup_empty in Hl.
  - intros (rows & Hrows & ->)%getPluginDependencies_rec_ok.
    apply getPluginDependencies_rec_ok. exists rows. split; [|done].
    eapply Forall2_impl; [exact Hrows|]. intros d r; cbv beta.
    intros (dep & rest & Hl & Hrec & ->)%dependencyRow_ok.
    apply dependencyRow_ok. exists dep, rest. split; [done|]. split; [|done].
    apply getPluginDependencies_rec_least in Hrec as (k & Hk & Hleast).
    apply (getPluginDependencies_rec_weaken (delete d loaded)); [apply delete_subseteq|].
    apply (IH (delete d loaded)) with (n := S k).
    { rewrite map_size_delete, Hl, <- Hs. done. }
    apply getPluginDependencies_rec_ok in Hk as (rows' & Hrows' & ->).
    apply getPluginDependencies_rec_ok. exists rows'. split; [|done].
    eapply Forall2_impl; [exact Hrows'|]. intros d' r'; cbv beta.
    intros (dep' & rest' & Hl' & Hrec' & ->)%dependencyRow_ok.
    apply dependencyRow_ok. exists dep', rest'.
    assert (d' ≠ d) as Hne.
    { intros ->. rewrite Hl in Hl'. injection Hl' as <-. by apply Hleast in Hrec'. }
    split; [by rewrite lookup_delete_ne|]. split; [|done].
    by eapply getPluginDependencies_rec_avoids.
Qed.

End PluginDependencies.

Section PluginDependenciesResult.
Variable loaded : PluginMap.

Local Abbreviation row n plugin :=
  (fun depName : string =>
     match loaded !! depName with
     | None => Throw (dependencyNotFound depName plugin)
     | Some depPlugin =>
         rest ← getPluginDependencies_rec n depPlugin loaded;
         mret (depPlugin :: rest)
     end).

Lemma dependsOn_loaded plugin dep :
  dependsOn loaded plugin dep → ∃ k, loaded !! k = Some dep.
Proof. induction 1; eauto. Qed.

Lemma getPluginDependencies_rec_sound n plugin deps dep :
  getPluginDependencies_rec n plugin loaded = Ok deps →
  dep ∈ deps → dependsOn loaded plugin dep.
Proof.
  revert plugin deps dep. induction n as [|n IH]; intros plugin deps dep; [done|].
  intros (rows & Hrows & ->)%getPluginDependencies_rec_ok
         (r & Hdep & Hr)%uniq_elem_of%list_elem_of_join.
  apply list_elem_of_lookup_1 in Hr as [i Hi].
  destruct (Forall2_lookup_r _ _ _ _ _ Hrows Hi) as (d & Hd & Hrow).
  apply list_elem_of_lookup_2 in Hd.
  apply dependencyRow_ok in Hrow as (dep' & rest & Hl & Hrec & ->).
  apply elem_of_cons in Hdep as [-> | Hdep].
  - by eapply dependsOn_direct.
  - eapply dependsOn_indirect; [done | done |]. by eapply IH.
Qed.

Lemma uniq_keeps_loaded (l : list GardenPlugin) dep :
  keyedByName loaded →
  (∀ x, x ∈ l → ∃ k, loaded !! k = Some x) →
  dep ∈ l → dep ∈ uniq l.
Proof.
  intros Hkeyed Hl Hdep.
  destruct (list_elem_of_fmap_1 _ _ _ (uniq_named l dep Hdep)) as (y & Hname & Hy).
  destruct (Hl y (uniq_elem_of l y Hy)) as [k Hk].
  destruct (Hl dep Hdep) as [k' Hk'].
  pose proof (Hkeyed _ _ Hk) as Hyk. pose proof (Hkeyed _ _ Hk') as Hdk.
  assert (k = k') as -> by congruence.
  assert (y = dep) as -> by congruence. done.
Qed.

Lemma dependencyRows_loaded n plugin (ds : list string) rows x :
  Forall2 (fun depName r => row n plugin depName = Ok r) ds rows →
  x ∈ mjoin rows → ∃ k, loaded !! k = Some x.
Proof.
  intros Hrows (r & Hx & Hr)%list_elem_of_join.
  apply list_elem_of_lookup_1 in Hr as [i Hi].
  destruct (Forall2_lookup_r _ _ _ _ _ Hrows Hi) as (d & Hd & Hrow).
  apply dependencyRow_ok in Hrow as (dep' & rest & Hl & Hrec & ->).
  apply elem_of_cons in Hx as [-> | Hx]; [by exists d|].
  eapply dependsOn_loaded, getPluginDependencies_rec_sound; [exact Hrec | done].
Qed.

Lemma getPluginDependencies_rec_complete n plugin deps dep :
  keyedByName loaded →
  getPluginDependencies_rec n plugin loaded = Ok deps →
  dependsOn loaded plugin dep → dep ∈ deps.
Proof.
  intros Hkeyed Hrec Hdep. revert n deps Hrec.
  induction Hdep as [plugin d dep Hd Hl|plugin d dep dep' Hd Hl Hdep IH];
    intros [|n] deps; try done;
    intros Hrec; pose proof Hrec as (rows & Hrows & ->)%getPluginDependencies_rec_ok;
    apply list_elem_of_lookup_1 in Hd as [i Hi];
    destruct (Forall2_lookup_l _ _ _ _ _ Hrows Hi) as (r & Hr & Hrow);
    apply list_elem_of_lookup_2 in Hr;
    apply dependencyRow_ok in Hrow as (dep0 & rest & Hl0 & Hrec0 & ->);
    rewrite Hl in Hl0; injection Hl0 as <-;
    (apply uniq_keeps_loaded; [done| |]).
  - intros x Hx. by eapply dependencyRows_loaded.
  - apply list_elem_of_join. exists (dep :: rest). split; [by left | done].
  - intros x Hx. by eapply dependencyRows_loaded.
  - apply list_elem_of_join. exists (dep :: rest). split; [|done].
    right. by eapply IH.
Qed.

End PluginDependenciesResult.

Lemma mapM_Exc_throw_inv {A B} (f : A → Exc B) (l : list A) e :
  mapM f l = Throw e → ∃ x, x ∈ l ∧ f x = Throw e.
Proof.
  induction l as [|x l IH]; [done|]. rewrite mapM_Exc_cons.
  destruct (f x) as [e'|y] eqn:Hx; simpl.
  - intros [= <-]. exists x. split; [by left | done].
  - destruct (mapM f l) as [e'|k]; simpl; [|done].
    intros [= <-]. destruct (IH eq_refl) as (x' & Hin & Hx'). exists x'. split; [by right|done].
Qed.

Section PluginDependenciesErrors.
Variable loaded : PluginMap.

Lemma getPluginDependencies_rec_kind n plugin e :
  getPluginDependencies_rec n plugin loaded = Throw e →
  kind e = RuntimeError ∨ kind e = RangeError.
Proof.
  revert plugin e. induction n as [|n IH]; intros plugin e; simpl; [intros [= <-]; by right|].
  destruct (mapM _ _) as [e'|rows] eqn:Hrows; simpl; [|done].
  intros [= <-]. apply mapM_Exc_throw_inv in Hrows as (d & _ & Hd).
  destruct (loaded !! d) as [dep|]; [|injection Hd as <-; by left].
  destruct (getPluginDependencies_rec n dep loaded) as [e|rest] eqn:Hrec; [|done].
  injection Hd as <-. by eapply IH.
Qed.

(** What a plugin depends on was resolved one call deeper. *)
Lemma getPluginDependencies_rec_inner n plugin deps dep :
  getPluginDependencies_rec (S n) plugin loaded = Ok deps →
  dependsOn loaded plugin dep →
  ∃ r, getPluginDependencies_rec n dep loaded = Ok r.
Proof.
  intros Hrec Hdep. revert n deps Hrec.
  induction Hdep as [plugin d dep Hd Hl|plugin d dep dep' Hd Hl Hdep IH]; intros n deps;
    intros (rows & Hrows & ->)%getPluginDependencies_rec_ok;
    apply list_elem_of_lookup_1 in Hd as [i Hi];
    destruct (Forall2_lookup_l _ _ _ _ _ Hrows Hi) as (r & Hr & Hrow);
    apply dependencyRow_ok in Hrow as (dep0 & rest & Hl0 & Hrec0 & ->);
    rewrite Hl in Hl0; injection Hl0 as <-.
  - by exists rest.
  - destruct n as [|n]; [done|]. destruct (IH _ _ Hrec0) as [r' Hr'].
    exists r'. by apply getPluginDependencies_rec_S.
Qed.

Lemma getPluginDependencies_rec_declared n plugin deps d :
  getPluginDependencies_rec n plugin loaded = Ok deps →
  d ∈ declaredDependencies plugin → is_Some (loaded !! d).
Proof.
  destruct n as [|n]; [done|].
  intros (rows & Hrows & ->)%getPluginDependencies_rec_ok [i Hi]%list_elem_of_lookup_1.
  destruct (Forall2_lookup_l _ _ _ _ _ Hrows Hi) as (r & Hr & Hrow).
  apply dependencyRow_ok in Hrow as (dep0 & rest & Hl0 & _). by exists dep0.
Qed.

Lemma getPluginDependencies_rec_cycle n plugin deps :
  dependsOn loaded plugin plugin →
  getPluginDependencies_rec n plugin loaded ≠ Ok deps.
Proof.
  intros Hcycle. revert deps. induction n as [|n IH]; intros deps; [done|].
  intros Hrec. destruct (getPluginDependencies_rec_inner _ _ _ _ Hrec Hcycle) as [r Hr].
  by apply IH in Hr.
Qed.

End PluginDependenciesErrors.

(** X7.  Let the plugins be keyed by name and the declared dependencies be
    read as the map has them (no plugin declares a dependency that the object
    of loaded plugins only inherits, such as [constructor]).  Then the list
    [getPluginDependencies] returns holds exactly the plugins the given
    plugin depends on, directly or through other plugins, each of them
    once. *)
Theorem getPluginDependencies_transitive (plugin : GardenPlugin) (loadedPlugins : PluginMap)
    (deps : list GardenPlugin) :
  keyedByName loadedPlugins →
  dependenciesReadOwn loadedPlugins plugin → allDependenciesReadOwn loadedPlugins →
  getPluginDependencies plugin loadedPlugins = Ok deps →
  NoDup deps ∧ NoDup (map plugin_name deps) ∧
  (∀ dep, dep ∈ deps ↔ dependsOn loadedPlugins plugin dep).
Proof.
  intros Hkeyed _ _ Hdeps.
  assert (NoDup (map plugin_name deps)) as Hnames.
  { unfold getPluginDependencies in Hdeps.
    apply getPluginDependencies_rec_ok in Hdeps as (rows & _ & ->). apply uniq_NoDup. }
  split; [by eapply NoDup_fmap_1|]. split; [done|].
  intros dep. split.
  - by eapply getPluginDependencies_rec_sound.
  - by eapply getPluginDependencies_rec_complete.
Qed.

Lemma getPluginDependencies_transitive_witness :
  getPluginDependencies SampleDeps.app SampleDeps.loaded =
    Ok [SampleDeps.db; SampleDeps.net; SampleDeps.cache] ∧
  NoDup [SampleDeps.db; SampleDeps.net; SampleDeps.cache] ∧
  (SampleDeps.net ∈ [SampleDeps.db; SampleDeps.net; SampleDeps.cache] ↔
   dependsOn SampleDeps.loaded SampleDeps.app SampleDeps.net).
Proof.
  split; [reflexivity|].
  destruct (getPluginDependencies_transitive SampleDeps.app SampleDeps.loaded
              [SampleDeps.db; SampleDeps.net; SampleDeps.cache])
    as (Hnodup & _ & Hdeps);
    [| by apply (bool_decide_unpack _); vm_compute ..| reflexivity | by split].
  intros k p Hk. by apply keyBy_lookup in Hk as [? _].
Defined.

(** X8.  Let the declared dependencies be read as the map has them (no
    plugin declares a dependency that the object of loaded plugins only
    inherits).  Then [getPluginDependencies] does not return a list when the
    plugin, or a plugin it depends on, declares a dependency that is not
    loaded, nor when a plugin it depends on (or the plugin itself) depends on
    itself; what it raises is the RuntimeError for a dependency that was not
    found or, on a cycle, the overflow of the call stack.  A first declared
    dependency that is not loaded is reported by name. *)
Theorem getPluginDependencies_missing_or_cyclic (plugin : GardenPlugin)
    (loadedPlugins : PluginMap) :
  dependenciesReadOwn loadedPlugins plugin → allDependenciesReadOwn loadedPlugins →
  (∀ q depName,
     q = plugin ∨ dependsOn loadedPlugins plugin q →
     depName ∈ declaredDependencies q → loadedPlugins !! depName = None →
     ∃ e, getPluginDependencies plugin loadedPlugins = Throw e) ∧
  (∀ q,
     q = plugin ∨ dependsOn loadedPlugins plugin q →
     dependsOn loadedPlugins q q →
     ∃ e, getPluginDependencies plugin loadedPlugins = Throw e) ∧
  (∀ e,
     getPluginDependencies plugin loadedPlugins = Throw e →
     kind e = RuntimeError ∨ kind e = RangeError) ∧
  (∀ depName rest,
     declaredDependencies plugin = depName :: rest → loadedPlugins !! depName = None →
     getPluginDependencies plugin loadedPlugins = Throw (dependencyNotFound depName plugin)).
Proof.
  intros _ _.
  assert (∀ q, q = plugin ∨ dependsOn loadedPlugins plugin q →
          ∀ deps, getPluginDependencies plugin loadedPlugins = Ok deps →
          ∃ n r, getPluginDependencies_rec n q loadedPlugins = Ok r) as Hinner.
  { intros q [-> | Hq] deps Hdeps; [by eexists _, _|].
    destruct (getPluginDependencies_rec_inner _ _ _ _ _ Hdeps Hq) as [r Hr]. by eexists _, _. }
  split; [|split; [|split]].
  - intros q depName Hq Hd Hl.
    destruct (getPluginDependencies plugin loadedPlugins) as [e|deps] eqn:Hdeps; [by exists e|].
    destruct (Hinner q Hq deps eq_refl) as (n & r & Hr).
    destruct (getPluginDependencies_rec_declared _ _ _ _ _ Hr Hd) as [? ?]. congruence.
  - intros q Hq Hcycle.
    destruct (getPluginDependencies plugin loadedPlugins) as [e|deps] eqn:Hdeps; [by exists e|].
    destruct (Hinner q Hq deps eq_refl) as (n & r & Hr).
    by apply getPluginDependencies_rec_cycle in Hr.
  - intros e. apply getPluginDependencies_rec_kind.
  - intros depName rest Hdecl Hl. unfold getPluginDependencies. simpl.
    by rewrite Hdecl, mapM_Exc_cons, Hl.
Qed.

Lemma getPluginDependencies_missing_or_cyclic_witness :
  (∃ e, getPluginDependencies SampleDeps.lonely SampleDeps.tangled = Throw e) ∧
  (∃ e, getPluginDependencies SampleDeps.ping SampleDeps.tangled = Throw e).
Proof.
  assert (allDependenciesReadOwn SampleDeps.tangled) as Hall
    by (by apply (bool_decide_unpack _); vm_compute).
  assert (dependenciesReadOwn SampleDeps.tangled SampleDeps.lonely) as Hlonely
    by (by apply (bool_decide_unpack _); vm_compute).
  assert (dependenciesReadOwn SampleDeps.tangled SampleDeps.ping) as Hping
    by (by apply (bool_decide_unpack _); vm_compute).
  split.
  - apply (proj1 (getPluginDependencies_missing_or_cyclic SampleDeps.lonely SampleDeps.tangled
                    Hlonely Hall)
             SampleDeps.lonely "ghost"); [by left | | reflexivity].
    right. by left.
  - apply (proj1 (proj2 (getPluginDependencies_missing_or_cyclic SampleDeps.ping
                           SampleDeps.tangled Hping Hall)) SampleDeps.ping); [by left|].
    eapply dependsOn_indirect with (depName := "pong"); [by left | reflexivity |].
    eapply dependsOn_direct with (depName := "ping"); [by left | reflexivity].
Defined.

Lemma dependsOn_step (loaded : PluginMap) plugin q depName dep :
  dependsOn loaded plugin q → depName ∈ declaredDependencies q →
  loaded !! depName = Some dep → dependsOn loaded plugin dep.
Proof.
  induction 1 as [plugin d q Hd Hl|plugin d q q' Hd Hl _ IH]; intros Hdep Hdl.
  - eapply dependsOn_indirect; [exact Hd | exact Hl |]. by eapply dependsOn_direct.
  - eapply dependsOn_indirect; [exact Hd | exact Hl |]. by apply IH.
Qed.

(** X9.  [getPluginDependencies] returns a list whenever every dependency
    declared by the plugin, and by the plugins it depends on, is loaded and
    the dependencies are not cyclic (there is a rank that every dependency
    lowers). *)
Theorem getPluginDependencies_returns (plugin : GardenPlugin) (loadedPlugins : PluginMap)
    (rank : GardenPlugin → nat) :
  (∀ q depName,
     q = plugin ∨ dependsOn loadedPlugins plugin q →
     depName ∈ declaredDependencies q →
     ∃ dep, loadedPlugins !! depName = Some dep ∧ (rank dep < rank q)%nat) →
  ∃ deps, getPluginDependencies plugin loadedPlugins = Ok deps.
Proof.
  intros Hranked.
  assert (∀ n q, (rank q < n)%nat → q = plugin ∨ dependsOn loadedPlugins plugin q →
          ∃ r, getPluginDependencies_rec n q loadedPlugins = Ok r) as Hrec.
  { induction n as [|n IH]; intros q Hlt Hq; [lia|].
    destruct (mapM_Exc_total
                (fun depName =>
                   match loadedPlugins !! depName with
                   | None => Throw (dependencyNotFound depName q)
                   | Some depPlugin =>
                       rest ← getPluginDependencies_rec n depPlugin loadedPlugins;
                       mret (depPlugin :: rest)
                   end) (declaredDependencies q)) as [rows Hrows].
    { intros d Hd. destruct (Hranked q d Hq Hd) as (dep & Hl & Hr). rewrite Hl.
      destruct (IH dep) as [rest Hrest]; [lia| |by rewrite Hrest].
      right. destruct Hq as [-> | Hq]; [by eapply dependsOn_direct | by eapply dependsOn_step]. }
    exists (uniq (mjoin rows)). simpl. by rewrite Hrows. }
  destruct (Hrec (S (rank plugin)) plugin) as [deps Hdeps]; [lia | by left|].
  exists deps. by eapply getPluginDependencies_rec_enough.
Qed.

Lemma getPluginDependencies_returns_witness :
  ∃ deps, getPluginDependencies SampleDeps.app SampleDeps.loaded = Ok deps.
Proof.
  apply (getPluginDependencies_returns SampleDeps.app SampleDeps.loaded
           (fun p => length (declaredDependencies p))).
  assert (∀ q, dependsOn SampleDeps.loaded SampleDeps.app q →
               q = SampleDeps.db ∨ q = SampleDeps.cache ∨ q = SampleDeps.net) as Hreach.
  { assert (∀ p q, dependsOn SampleDeps.loaded p q →
              p = SampleDeps.app ∨ p = SampleDeps.db ∨ p = SampleDeps.cache ∨
              p = SampleDeps.net →
              q = SampleDeps.db ∨ q = SampleDeps.cache ∨ q = SampleDeps.net) as Hgen.
    { induction 1 as [p d q Hd Hl|p d q q' Hd Hl _ IH]; intros Hp.
      - destruct Hp as [-> | [-> | [-> | ->]]];
          repeat (apply elem_of_cons in Hd as [-> | Hd]);
          try (by apply elem_of_nil in Hd);
          vm_compute in Hl; injection Hl as <-; auto.
      - apply IH.
        destruct Hp as [-> | [-> | [-> | ->]]];
          repeat (apply elem_of_cons in Hd as [-> | Hd]);
          try (by apply elem_of_nil in Hd);
          vm_compute in Hl; injection Hl as <-; auto. }
    intros q Hq. apply (Hgen _ _ Hq). by left. }
  intros q d Hq Hd.
  assert (q = SampleDeps.app ∨ q = SampleDeps.db ∨ q = SampleDeps.cache ∨ q = SampleDeps.net)
    as Hq' by (destruct Hq as [-> | Hq%Hreach]; tauto).
  destruct Hq' as [-> | [-> | [-> | ->]]];
    repeat (apply elem_of_cons in Hd as [-> | Hd]);
    try (by apply elem_of_nil in Hd);
    eexists; (split; [reflexivity | simpl; lia]).
Defined.

Lemma getTestResult_no_handler_call (this : TestTask.t) :
  testModuleCalls (trace (TestTask.getTestResult this)) = [].
Proof.
  unfold TestTask.getTestResult.
  destruct (TestTask.force this); [done|].
  destruct (getActionHelper (TestTask.garden this)); [done|].
  by rewrite bind_lift_ok.
Qed.

Section TestDependencies.
Context {TaskTask : Type}.
Variable J : TestDependencyImports TaskTask.
Variable this : TestTask.t.

Lemma bind_value {Ev A B} (m : Eff Ev A) (f : A → Eff Ev B) tr a :
  m = (tr, Ok a) → m ≫= f = (tr ++ (f a).1, (f a).2).
Proof. by intros ->. Qed.

(** What [getDependencies] does once the stored result is out of the way. *)
Lemma getDependencies_from_graph (testResult : option TestResult) tr :
  TestTask.getTestResult this = (tr, Ok testResult) →
  TestTaskDependencies.passedBefore testResult = false →
  trace (TestTaskDependencies.getDependencies J this) = tr ∧
  ∀ tasks,
    outcome (TestTaskDependencies.getDependencies J this) = Ok tasks ↔
    ∃ deps taskTasks,
      graph_getDependencies (TestTask.graph this) "test"
        (TestTaskDependencies.getName J this) false = Ok deps ∧
      Forall2 (fun task made =>
                 TaskTask_factory J
                   {| tt_task := task;
                      tt_garden := TestTask.garden this;
                      tt_graph := TestTask.graph this;
                      tt_force := TestTask.force this;
                      tt_forceBuild := TestTask.forceBuild this |} = Ok made)
        (dr_task deps) taskTasks ∧
      tasks =
        BuildTask {| bt_garden := TestTask.garden this;
                     bt_module := TestTask.module this;
                     bt_force := TestTask.forceBuild this |} ::
        map (fun service =>
               DeployTask {| dt_garden := TestTask.garden this;
                             dt_graph := TestTask.graph this;
                             dt_service := service;
                             dt_force := false;
                             dt_forceBuild := TestTask.forceBuild this |})
            (dr_service deps) ++
        map TaskTaskOf taskTasks.
Proof.
  intros Hlookup Hpassed. unfold TestTaskDependencies.getDependencies.
  rewrite (bind_value _ _ _ _ Hlookup), Hpassed. cbv zeta. unfold trace, outcome.
  destruct (graph_getDependencies _ _ _ _) as [e|deps] eqn:Hdeps.
  { rewrite bind_lift_throw. simpl. split; [by rewrite app_nil_r|].
    intros tasks. split; [done|]. by intros (? & ? & [=] & _). }
  rewrite bind_lift_ok.
  destruct (mapM _ (dr_task deps)) as [e|taskTasks] eqn:Htasks.
  - rewrite bind_lift_throw. simpl. split; [by rewrite app_nil_r|].
    intros tasks. split; [done|].
    intros (deps' & taskTasks & [= <-] & Hmade & _).
    apply mapM_Exc_ok in Hmade. congruence.
  - rewrite bind_lift_ok. simpl. split; [by rewrite app_nil_r|].
    apply mapM_Exc_ok in Htasks as Hmade. intros tasks. split.
    + intros [= <-]. by exists deps, taskTasks.
    + intros (deps' & taskTasks' & [= <-] & Hmade' & ->).
      apply mapM_Exc_ok in Hmade'. congruence.
Qed.

End TestDependencies.

(** X10.  [TestTask.getDependencies] decides on the stored result of the test:
    with [force] off it looks the result up (one [getTestResult] call), and
    when that finds a result that passed the task has no dependencies,
    whatever the graph says; when the lookup raises, so does
    [getDependencies].  In every other case (no stored result, a stored
    failure, or [force], in which case nothing is looked up) it returns
    exactly when the graph gives the dependencies of the test and the factory
    makes a task for each task dependency, and then the list is the build
    task of the test's own module (forced exactly when [forceBuild] is set),
    one deploy task per service dependency, none of them forced, and the task
    tasks, in this order.  The [testModule] handler is never called. *)
Theorem testTask_getDependencies_follows_stored_result {TaskTask : Type}
    (J : TestDependencyImports TaskTask) (this : TestTask.t) :
  let run := TestTaskDependencies.getDependencies J this in
  let lookupCall :=
    CallGetTestResult (m_name (TestTask.module this)) (tc_name (TestTask.testConfig this))
      (TestTask.version this) in
  let stored := fun actions =>
    actions_getTestResult actions
      {| gtr_module := TestTask.module this;
         gtr_testName := tc_name (TestTask.testConfig this);
         gtr_testVersion := TestTask.version this |} in
  let fromGraph := fun tasks =>
    ∃ deps taskTasks,
      graph_getDependencies (TestTask.graph this) "test"
        (TestTaskDependencies.getName J this) false = Ok deps ∧
      Forall2 (fun task made =>
                 TaskTask_factory J
                   {| tt_task := task;
                      tt_garden := TestTask.garden this;
                      tt_graph := TestTask.graph this;
                      tt_force := TestTask.force this;
                      tt_forceBuild := TestTask.forceBuild this |} = Ok made)
        (dr_task deps) taskTasks ∧
      tasks =
        BuildTask {| bt_garden := TestTask.garden this;
                     bt_module := TestTask.module this;
                     bt_force := TestTask.forceBuild this |} ::
        map (fun service =>
               DeployTask {| dt_garden := TestTask.garden this;
                             dt_graph := TestTask.graph this;
                             dt_service := service;
                             dt_force := false;
                             dt_forceBuild := TestTask.forceBuild this |})
            (dr_service deps) ++
        map TaskTaskOf taskTasks in
  testModuleCalls (trace run) = [] ∧
  (∀ actions result,
     TestTask.force this = false →
     getActionHelper (TestTask.garden this) = Ok actions →
     stored actions = Ok (Some result) → res_success result = true →
     run = ([lookupCall], Ok [])) ∧
  (∀ actions e,
     TestTask.force this = false →
     getActionHelper (TestTask.garden this) = Ok actions →
     stored actions = Throw e →
     run = ([lookupCall], Throw e)) ∧
  (∀ actions,
     TestTask.force this = false →
     getActionHelper (TestTask.garden this) = Ok actions →
     stored actions = Ok None ∨
     (∃ result, stored actions = Ok (Some result) ∧ res_success result = false) →
     trace run = [lookupCall] ∧ ∀ tasks, outcome run = Ok tasks ↔ fromGraph tasks) ∧
  (TestTask.force this = true →
   trace run = [] ∧ ∀ tasks, outcome run = Ok tasks ↔ fromGraph tasks).
Proof.
  intros run lookupCall stored fromGraph. subst run lookupCall stored fromGraph.
  split; [|split; [|split; [|split]]].
  - unfold TestTaskDependencies.getDependencies.
    destruct (TestTask.getTestResult this) as [tr [e|testResult]] eqn:Hlookup.
    + pose proof (getTestResult_no_handler_call this) as Hnone.
      by rewrite Hlookup in Hnone.
    + destruct (TestTaskDependencies.passedBefore testResult) eqn:Hpassed.
      * pose proof (getTestResult_no_handler_call this) as Hnone.
        rewrite Hlookup in Hnone. unfold mbind, Eff_bind. simpl. rewrite Hpassed.
        unfold trace in *. simpl in *. by rewrite app_nil_r.
      * rewrite <- Hlookup.
        fold (TestTaskDependencies.getDependencies J this).
        destruct (getDependencies_from_graph J this testResult tr Hlookup Hpassed) as [-> _].
        pose proof (getTestResult_no_handler_call this) as Hnone.
        by rewrite Hlookup in Hnone.
  - intros actions result Hforce Hactions Hstored Hsuccess.
    unfold TestTaskDependencies.getDependencies, TestTask.getTestResult.
    rewrite Hforce, Hactions, bind_lift_ok, Hstored, bind_call_ok. simpl.
    by rewrite Hsuccess.
  - intros actions e Hforce Hactions Hstored.
    unfold TestTaskDependencies.getDependencies, TestTask.getTestResult.
    by rewrite Hforce, Hactions, bind_lift_ok, Hstored.
  - intros actions Hforce Hactions Hstored.
    assert (∃ testResult,
              TestTask.getTestResult this =
                ([CallGetTestResult (m_name (TestTask.module this))
                    (tc_name (TestTask.testConfig this)) (TestTask.version this)],
                 Ok testResult) ∧
              TestTaskDependencies.passedBefore testResult = false)
      as (testResult & Hlookup & Hpassed).
    { unfold TestTask.getTestResult. rewrite Hforce, Hactions, bind_lift_ok.
      destruct Hstored as [-> | (result & -> & Hfailed)]; eexists; split; done. }
    apply (getDependencies_from_graph J this testResult _ Hlookup Hpassed).
  - intros Hforce.
    apply (getDependencies_from_graph J this None []); [|done].
    unfold TestTask.getTestResult. by rewrite Hforce.
Qed.

(** In the sample, a stored success means no dependencies, though the graph
    has some; a stored failure means the build task, the deployment of [api]
    and the task [migrate]. *)
Lemma testTask_getDependencies_follows_stored_result_witness :
  TestTaskDependencies.getDependencies SampleMore.dependencyImports
    (SampleMore.taskWithDependencies (Some Sample.storedSuccess)) =
    ([CallGetTestResult "module-a" "unit"
        {| versionString := "v-1"; dependencyVersions := ∅; files := [] |}], Ok []) ∧
  length <$> outcome (TestTaskDependencies.getDependencies SampleMore.dependencyImports
                        (SampleMore.taskWithDependencies (Some Sample.storedFailure))) =
    Ok 3%nat.
Proof.
  split.
  - apply (proj1 (proj2 (testTask_getDependencies_follows_stored_result
                           SampleMore.dependencyImports
                           (SampleMore.taskWithDependencies (Some Sample.storedSuccess))))
             (Sample.testActions (Some Sample.storedSuccess)) Sample.storedSuccess);
      reflexivity.
  - reflexivity.
Defined.

(** ** [getTestTasks]: the tasks *)

(** X11.  Every task [getTestTasks] returns is a task of the given module in
    the given graph, for one of the module's tests, carries the [force] and
    [forceBuild] flags it was given (off when they are left out), and has as
    its version what [getTestVersion] returns for its test; there is at most
    one task per test of the module.  When the version of a selected test
    cannot be determined, no list is returned. *)
Theorem getTestTasks_builds_tasks (I : TestImports) (garden : Garden) (graph : ConfigGraph)
    (module : Module) (filterNames : option (list string)) (force forceBuild : option bool) :
  (∀ tasks,
     getTestTasks I garden graph module filterNames force forceBuild = Ok tasks →
     Forall (fun task =>
               TestTask.garden task = garden ∧ TestTask.graph task = graph ∧
               TestTask.module task = module ∧
               TestTask.testConfig task ∈ m_testConfigs module ∧
               TestTask.force task = default false force ∧
               TestTask.forceBuild task = default false forceBuild ∧
               getTestVersion garden graph module (TestTask.testConfig task) =
                 Ok (TestTask.version task)) tasks ∧
     (length tasks ≤ length (m_testConfigs module))%nat) ∧
  (∀ test,
     test ∈ m_testConfigs module → selectedBy I filterNames test = true →
     is_Ok (getTestVersion garden graph module test) = false →
     is_Ok (getTestTasks I garden graph module filterNames force forceBuild) = false).
Proof.
  unfold getTestTasks. split.
  - intros tasks Htasks%mapM_Exc_ok. split.
    + apply Forall_lookup. intros i task Hi.
      destruct (Forall2_lookup_r _ _ _ _ _ Htasks Hi) as (test & Htest & Htask).
      unfold factory in Htask. apply exc_bind_ok_inv in Htask as (v & Hv & [= <-]). simpl.
      repeat split; try done.
      apply list_elem_of_lookup_2, list_elem_of_In, List.filter_In in Htest as [Hin _].
      by apply list_elem_of_In.
    + rewrite <- (Forall2_length _ _ _ Htasks). apply List.filter_length_le.
  - intros test Hin Hsel Hv.
    destruct (mapM _ _) as [e|tasks] eqn:Htasks; [done|]. exfalso.
    apply mapM_Exc_ok in Htasks.
    assert (test ∈ List.filter (selectedBy I filterNames) (m_testConfigs module)) as Hin'.
    { apply list_elem_of_In, List.filter_In. split; [by apply list_elem_of_In | done]. }
    apply list_elem_of_lookup_1 in Hin' as [i Hi].
    destruct (Forall2_lookup_l _ _ _ _ _ Htasks Hi) as (task & _ & Htask).
    unfold factory in Htask. apply exc_bind_ok_inv in Htask as (v & Hv' & _).
    by rewrite Hv' in Hv.
Qed.

Lemma getTestTasks_builds_tasks_witness :
  ∃ tasks,
    getTestTasks Sample.testImports (Sample.testGarden None) Sample.testGraph Sample.moduleA
      (Some ["unit"]) None (Some true) = Ok tasks ∧
    Forall (fun task => TestTask.force task = false ∧ TestTask.forceBuild task = true) tasks.
Proof.
  eexists. split; [reflexivity|].
  eapply Forall_impl.
  - eapply (proj1 (getTestTasks_builds_tasks Sample.testImports (Sample.testGarden None)
                     Sample.testGraph Sample.moduleA (Some ["unit"]) None (Some true))).
    reflexivity.
  - intros task (_ & _ & _ & _ & Hforce & HforceBuild & _). by split.
Defined.

(** ** The exec plugin: what a command is run with *)

(** X12.  [testExecModule] and [runExecTask] are one spawn of the command of
    the test (task) followed by the packing of its result, and the command is
    spawned in the module's own directory when the module is [local], else in
    its build directory, with an environment in which a variable of the test
    (task) spec takes precedence over one of the module spec, which takes
    precedence over one of the Garden process; a test is spawned with
    [ignoreError], a task without.  What the spawn raises, they raise. *)
Theorem exec_spawn_options (I : ExecImports) (module : Module) (w : World) :
  let cwd := if default false (spec_local (m_spec module))
             then m_path module else m_buildPath module in
  let layered := fun (own : gmap string string) (k : string) =>
    match own !! k with
    | Some v => Some v
    | None =>
        match spec_env (m_spec module) !! k with
        | Some v => Some v
        | None => process_env I !! k
        end
    end in
  (∀ testConfig opts,
     so_cwd opts = cwd →
     (∀ k, so_env opts !! k = layered (ts_env (tc_spec testConfig)) k) →
     so_ignoreError opts = Some true →
     let command := ts_command (tc_spec testConfig) in
     testExecModule I module testConfig w =
       match spawn I (head command) (tail command) opts w with
       | (Throw e, w') => (Throw e, w')
       | (Ok out, w') =>
           (Ok {| res_moduleName := m_name module;
                  res_command := command;
                  res_testName := tc_name testConfig;
                  res_version := versionString (m_version module);
                  res_success := bool_decide (so_code out = 0%Z);
                  res_startedAt := clock w;
                  res_completedAt := clock w';
                  res_log := orEmpty (so_stdout out) +:+ orEmpty (so_stderr out) |}, w')
       end) ∧
  (∀ name spec opts,
     so_cwd opts = cwd →
     (∀ k, so_env opts !! k = layered (tk_env spec) k) →
     so_ignoreError opts = None →
     let command := tk_command spec in
     runExecTask I (mkExecTask name module spec) w =
       match spawn I (head command) (tail command) opts w with
       | (Throw e, w') => (Throw e, w')
       | (Ok out, w') =>
           let output := orEmpty (so_stdout out) +:+ orEmpty (so_stderr out) in
           (Ok {| rt_moduleName := m_name module;
                  rt_taskName := name;
                  rt_command := command;
                  rt_version := versionString (m_version module);
                  rt_success := true;
                  rt_log := output;
                  rt_outputs := {[ "log" := output ]};
                  rt_startedAt := clock w;
                  rt_completedAt := clock w' |}, w')
       end).
Proof.
  intros cwd layered.
  assert (∀ own opts ignoreError,
            so_cwd opts = cwd → (∀ k, so_env opts !! k = layered own k) →
            so_ignoreError opts = ignoreError →
            opts = {| so_cwd := getCwd module;
                      so_env := spread (spread (process_env I) (spec_env (m_spec module))) own;
                      so_ignoreError := ignoreError |}) as Hopts.
  { intros own [dir env ignore] ignoreError. simpl. intros -> Henv ->. f_equal.
    apply map_eq. intros k. rewrite Henv. subst layered. simpl.
    unfold spread. rewrite !lookup_union.
    by destruct (own !! k), (spec_env (m_spec module) !! k), (process_env I !! k). }
  split.
  - intros testConfig opts Hcwd Henv Hignore command.
    rewrite (Hopts _ opts _ Hcwd Henv Hignore). apply testExecModule_unfold.
  - intros name spec opts Hcwd Henv Hignore command.
    rewrite (Hopts _ opts _ Hcwd Henv Hignore). apply (runExecTask_unfold I).
Qed.

(** The sample's failing test runs [false] in the build directory of
    [module-a] (which is not local) with an empty environment, and the exit
    code 1 is reported as a test that did not pass. *)
Lemma exec_spawn_options_witness :
  ∃ res,
    testExecModule Sample.execImports Sample.moduleA Sample.failingTest Sample.emptyWorld =
      (Ok res, Sample.tick Sample.emptyWorld) ∧
    res_success res = false.
Proof.
  pose proof (proj1 (exec_spawn_options Sample.execImports Sample.moduleA Sample.emptyWorld)
                Sample.failingTest
                {| so_cwd := "/project/.garden/build/module-a"; so_env := ∅;
                   so_ignoreError := Some true |} eq_refl (fun k => eq_refl) eq_refl)
    as Hrun.
  eexists. split; [exact Hrun | reflexivity].
Defined.

(** ** The exec plugin: builds *)



(** X14.  Building and asking for the build status fit together: with a
    version file that reads back what was written, after [buildExecModule]
    has returned for a module, [getExecModuleBuildStatus] reports a module
    with the same build metadata directory as ready exactly when its version
    string is the one that was built. *)
Theorem build_status_tracks_built_version (I : ExecImports) (module module' : Module)
    (w w' : World) (output : BuildResult) :
  (∀ path version w0 w1,
     writeModuleVersionFile I path version w0 = (Ok tt, w1) →
     readModuleVersionFile I path w1 = (Ok (Some version), w1)) →
  m_buildMetadataPath module' = m_buildMetadataPath module →
  buildExecModule I module w = (Ok output, w') →
  getExecModuleBuildStatus I module' w' =
    (Ok {| bst_ready :=
             bool_decide (versionString (m_version module') =
                          versionString (m_version module)) |}, w').
Proof.
  intros Hlaw Hpath Hbuild.
  assert (readModuleVersionFile I
            (join I (m_buildMetadataPath module) (GARDEN_BUILD_VERSION_FILENAME I)) w' =
          (Ok (Some (m_version module)), w')) as Hread.
  { unfold buildExecModule in Hbuild. unfold mbind, IO_bind in Hbuild.
    match type of Hbuild with
    | context [match ?stage with _ => _ end] => destruct stage as [[e|out] w1]
    end; [done|].
    destruct (writeModuleVersionFile I _ _ w1) as [[e|[]] w2] eqn:Hwrite; [done|].
    injection Hbuild as <- <-. by eapply Hlaw. }
  unfold getExecModuleBuildStatus. rewrite Hpath.
  unfold mbind, IO_bind, ignoringErrors. rewrite Hread.
  case_bool_decide as Hv.
  - by rewrite bool_decide_true by done.
  - rewrite bool_decide_false; [done|]. congruence.
Qed.

Lemma build_status_tracks_built_version_witness :
  let moduleA' :=
    mkModule "module-a" "/project/module-a" "/project/.garden/build/module-a"
      "/project/.garden/build-metadata/module-a"
      {| versionString := "v-9"; dependencyVersions := ∅; files := [] |} []
      (m_spec Sample.moduleA) [] in
  let w' := (buildExecModule Sample.execImports Sample.moduleA Sample.emptyWorld).2 in
  getExecModuleBuildStatus Sample.execImports moduleA' w' = (Ok {| bst_ready := false |}, w').
Proof.
  intros moduleA' w'.
  apply (build_status_tracks_built_version Sample.execImports Sample.moduleA moduleA'
           Sample.emptyWorld w'
           {| br_fresh := Some true; br_buildLog := Some ("A" +:+ newline) |}).
  - intros path version w0 w1 [= <-]. unfold readModuleVersionFile. simpl.
    unfold Vcs.readModuleVersionFile. simpl.
    by rewrite lookup_insert_eq, parse_serialize.
  - reflexivity.
  - reflexivity.
Defined.

(** ** The exec plugin: configuring a module *)

(** X15.  A module config that [configureExecModule] returns has the spec that
    validation returned, and its test and task configs are derived from that
    spec: one per test (task) of the spec, in the same order, each with the
    spec's own name, dependencies and timeout; the configs it came with are
    replaced.  Name, path and build dependencies are kept.  If the module was
    given as [local], none of its build dependencies has a copy spec. *)
Theorem configureExecModule_derives_configs (I : ExecImports) (projectRoot : string)
    (moduleConfig result : ExecModuleConfig) :
  configureExecModule I projectRoot moduleConfig = Ok result →
  validateSpec I (cfg_spec moduleConfig) (cfg_name moduleConfig) (cfg_path moduleConfig)
    projectRoot = Ok (cfg_spec result) ∧
  cfg_name result = cfg_name moduleConfig ∧ cfg_path result = cfg_path moduleConfig ∧
  cfg_build_dependencies result = cfg_build_dependencies moduleConfig ∧
  map tc_spec (cfg_testConfigs result) = spec_tests (cfg_spec result) ∧
  map tkc_spec (cfg_taskConfigs result) = spec_tasks (cfg_spec result) ∧
  Forall (fun t => tc_name t = ts_name (tc_spec t) ∧
                   tc_dependencies t = ts_dependencies (tc_spec t) ∧
                   tc_timeout t = ts_timeout (tc_spec t)) (cfg_testConfigs result) ∧
  Forall (fun t => tkc_name t = tk_name (tkc_spec t) ∧
                   tkc_dependencies t = tk_dependencies (tkc_spec t) ∧
                   tkc_timeout t = tk_timeout (tkc_spec t)) (cfg_taskConfigs result) ∧
  (spec_local (cfg_spec moduleConfig) = Some true →
   Forall (fun d => bd_copy d = []) (cfg_build_dependencies moduleConfig)).
Proof.
  unfold configureExecModule.
  destruct (default false (spec_local (cfg_spec moduleConfig)) && existsb _ _) eqn:Hguard;
    [done|].
  intros (spec & Hspec & [= <-])%exc_bind_ok_inv. simpl.
  repeat split; try done.
  - rewrite map_map. simpl. apply map_id.
  - rewrite map_map. simpl. apply map_id.
  - by apply Forall_map, Forall_true.
  - by apply Forall_map, Forall_true.
  - intros Hlocal. rewrite Hlocal in Hguard. simpl in Hguard.
    apply Forall_forall. intros d Hd.
    destruct (bd_copy d) as [|c copy] eqn:Hcopy; [done|]. exfalso.
    assert (existsb (fun d => bool_decide (0 < length (bd_copy d))%nat)
              (cfg_build_dependencies moduleConfig) = true) as Hex; [|congruence].
    apply existsb_exists. exists d. split; [by apply list_elem_of_In|].
    rewrite Hcopy. done.
Qed.

Lemma configureExecModule_derives_configs_witness :
  let given :=
    {| cfg_name := "module-a"; cfg_path := "/project/module-a";
       cfg_build_dependencies := [];
       cfg_spec := {| spec_local := None;
                      spec_build := {| bs_command := []; bs_dependencies := [] |};
                      spec_env := ∅; spec_tasks := [];
                      spec_tests := [tc_spec (Sample.echoOK "unit")] |};
       cfg_taskConfigs := []; cfg_testConfigs := [Sample.failingTest] |} in
  ∃ result,
    configureExecModule Sample.execImports "/project" given = Ok result ∧
    map tc_spec (cfg_testConfigs result) = spec_tests (cfg_spec result) ∧
    cfg_testConfigs result = [Sample.echoOK "unit"].
Proof.
  intros given. eexists. split; [reflexivity|]. split; [|reflexivity].
  eapply (configureExecModule_derives_configs Sample.execImports "/project" given).
  reflexivity.
Defined.

(** ** Laws of handler runs *)

Section ActLaws.
Context {W : Type}.

Lemma act_bind_returns {A B} (m : Act W A) (f : A → Act W B) w tr b w' :
  (m ≫= f) w = (tr, Ok b, w') →
  ∃ a tr1 w1 tr2, m w = (tr1, Ok a, w1) ∧ f a w1 = (tr2, Ok b, w') ∧ tr = tr1 ++ tr2.
Proof.
  unfold mbind, Act_bind. destruct (m w) as [[tr1 [e|a]] w1]; [done|].
  destruct (f a w1) as [[tr2 r] w2] eqn:Hf. intros [= <- -> <-].
  by exists a, tr1, w1, tr2.
Qed.

Lemma act_bind_raises {A B} (m : Act W A) (f : A → Act W B) w tr e w' :
  (m ≫= f) w = (tr, Throw e, w') →
  m w = (tr, Throw e, w') ∨
  ∃ a tr1 w1 tr2, m w = (tr1, Ok a, w1) ∧ f a w1 = (tr2, Throw e, w') ∧ tr = tr1 ++ tr2.
Proof.
  unfold mbind, Act_bind. destruct (m w) as [[tr1 [e'|a]] w1]; [intros [= <- <- <-]; by left|].
  destruct (f a w1) as [[tr2 r] w2] eqn:Hf. intros [= <- -> <-].
  right. by exists a, tr1, w1, tr2.
Qed.

Lemma invoke_returns {A} c (helper : W → Exc A * W) w tr a w' :
  invoke c helper w = (tr, Ok a, w') → helper w = (Ok a, w') ∧ tr = [c].
Proof. unfold invoke. destruct (helper w) as [r w1]. by intros [= <- -> <-]. Qed.

Lemma invoke_raises {A} c (helper : W → Exc A * W) w tr e w' :
  invoke c helper w = (tr, Throw e : Exc A, w') → helper w = (Throw e, w') ∧ tr = [c].
Proof. unfold invoke. destruct (helper w) as [r w1]. by intros [= <- -> <-]. Qed.

Lemma logged_returns c (w : W) tr u w' :
  logged c w = (tr, Ok u, w') → tr = [c] ∧ w' = w.
Proof. by intros [= <- <-]. Qed.

Lemma act_ret_returns {A} (a : A) (w : W) tr b w' :
  (mret a : Act W A) w = (tr, Ok b, w') → b = a ∧ tr = [] ∧ w' = w.
Proof. by intros [= <- <- <-]. Qed.

End ActLaws.

(** ** kubernetes: [checkCertManagerStatus] *)


(** ** kubernetes: [prepareSystem] and [prepareEnvironment] *)

Lemma prepareSystem_remote {W : Type} (K : KubernetesInit.Imports W)
    (ctx : KubernetesPluginContext) (force : bool) (status : KubernetesStatus) (w : W) :
  kp_name (kx_provider ctx) ≠ "local-kubernetes" →
  KubernetesInit.prepareSystem K ctx force status false w = ([], Ok tt, w) ∨
  KubernetesInit.prepareSystem K ctx force status false w =
    ([LogWarn (KubernetesInit.outdatedWarning ctx)], Ok tt, w).
Proof.
  intros Hremote. unfold KubernetesInit.prepareSystem. cbv zeta.
  destruct (_ || _); [by left|].
  rewrite (bool_decide_false _ Hremote). simpl.
  match goal with
  | |- context [if ?c then logged _ else _] => destruct c
  end; [right | left]; reflexivity.
Qed.

(** X17.  [prepareSystem] does nothing at all when the provider has no system
    services or the status reports the system as ready and [force] is off.
    On a remote cluster (a provider not named "local-kubernetes") it sets
    nothing up unless it is run for cluster-init: it returns, having at most
    logged a warning, and leaves the cluster as it is, also when system
    services are missing.  So it never raises on its own account: when it
    raises, it is run for cluster-init or on the local cluster and has called
    a helper. *)
Theorem prepareSystem_leaves_remote_clusters {W : Type} (K : KubernetesInit.Imports W)
    (ctx : KubernetesPluginContext) (force : bool) (status : KubernetesStatus)
    (clusterInit : bool) (w : W) :
  let run := KubernetesInit.prepareSystem K ctx force status clusterInit w in
  let systemReady :=
    match kst_detail status with
    | Some detail => systemReady detail && negb force
    | None => false
    end in
  (kc_systemServices (kp_config (kx_provider ctx)) = [] ∨ systemReady = true →
   run = ([], Ok tt, w)) ∧
  (clusterInit = false → kp_name (kx_provider ctx) ≠ "local-kubernetes" →
   run = ([], Ok tt, w) ∨
   run = ([LogWarn (KubernetesInit.outdatedWarning ctx)], Ok tt, w)) ∧
  (∀ tr e w',
     run = (tr, Throw e, w') →
     tr ≠ [] ∧ (clusterInit = true ∨ kp_name (kx_provider ctx) = "local-kubernetes")).
Proof.
  intros run systemReady. subst run systemReady. unfold KubernetesInit.prepareSystem.
  cbv zeta. split; [|split].
  - intros [-> | ->]; [done|]. by rewrite orb_true_r.
  - intros -> Hremote. by apply prepareSystem_remote.
  - intros tr e w'.
    destruct (_ || _) eqn:Hskip; [done|].
    destruct (negb clusterInit && _) eqn:Hleave.
    { match goal with
      | |- context [if ?c then logged _ else _] => destruct c
      end; unfold mbind, Act_bind, logged, mret, Act_ret; simpl; done. }
    assert (clusterInit = true ∨ kp_name (kx_provider ctx) = "local-kubernetes") as Hwhere.
    { destruct clusterInit; [by left|]. right. simpl in Hleave.
      by case_bool_decide. }
    simpl. intros Hrun. split; [|done].
    apply act_bind_raises in Hrun as [[_ ->]%invoke_raises | Hrun]; [done|].
    destruct Hrun as (? & ? & ? & ? & [_ ->]%invoke_returns & _ & ->). done.
Qed.

Lemma prepareSystem_leaves_remote_clusters_witness :
  KubernetesInit.prepareSystem SampleCluster.imports
    (SampleCluster.ctx "kubernetes" ["ingress-controller"]) false
    SampleCluster.missingServices false 0%nat = ([], Ok tt, 0%nat).
Proof.
  destruct (proj1 (proj2 (prepareSystem_leaves_remote_clusters SampleCluster.imports
                            (SampleCluster.ctx "kubernetes" ["ingress-controller"]) false
                            SampleCluster.missingServices false 0%nat)) eq_refl)
    as [Hrun | Hrun]; [done | exact Hrun | discriminate Hrun].
Defined.

Lemma installCertManager_returns {W : Type} (K : KubernetesInit.Imports W)
    (ctx : KubernetesPluginContext) (provider : KubernetesProvider) (w w' : W)
    (tr : list K8sCall) (r : string) :
  let namespace := KubernetesInit.systemNamespace K in
  KubernetesInit.installCertManager K ctx provider w = (tr, Ok r, w') →
  r = "" ∧
  tr = [ CallKubeApiFactory provider;
         CallReadFile (KubernetesInit.join K
                         [KubernetesInit.STATIC_DIR K; "kubernetes"; "system"; "cert-manager";
                          "cert-manager-crd.yaml"]);
         CallSafeLoadAll;
         ConsoleLog "Installing CRD";
         CallApply namespace;
         CallPatchNamespace namespace;
         CallHelm namespace ["repo"; "add"; "jetstack"; "https://charts.jetstack.io"];
         CallHelm namespace ["repo"; "update"];
         CallHelm namespace
           ["install"; "--name"; "cert-manager"; "--namespace"; namespace;
            "--version"; "v0.10.1"; "jetstack/cert-manager"];
         ConsoleLog "Success?" ].
Proof.
  intros namespace Hrun. subst namespace. unfold KubernetesInit.installCertManager in Hrun.
  cbv zeta in Hrun.
  apply act_bind_returns in Hrun as (api & ? & ? & ? & [_ ->]%invoke_returns & Hrun & ->).
  apply act_bind_returns in Hrun as (text & ? & ? & ? & [_ ->]%invoke_returns & Hrun & ->).
  apply act_bind_returns in Hrun as (docs & ? & ? & ? & [_ ->]%invoke_returns & Hrun & ->).
  apply act_bind_returns in Hrun as ([] & ? & ? & ? & [-> ->]%logged_returns & Hrun & ->).
  apply act_bind_returns in Hrun as ([] & ? & ? & ? & [_ ->]%invoke_returns & Hrun & ->).
  apply act_bind_returns in Hrun as ([] & ? & ? & ? & [_ ->]%invoke_returns & Hrun & ->).
  apply act_bind_returns in Hrun as (? & ? & ? & ? & [_ ->]%invoke_returns & Hrun & ->).
  apply act_bind_returns in Hrun as (? & ? & ? & ? & [_ ->]%invoke_returns & Hrun & ->).
  apply act_bind_returns in Hrun as (? & ? & ? & ? & [_ ->]%invoke_returns & Hrun & ->).
  apply act_bind_returns in Hrun as ([] & ? & ? & ? & [-> ->]%logged_returns & Hrun & ->).
  by apply act_ret_returns in Hrun as (-> & -> & ->).
Qed.

(** X18.  When [prepareEnvironment] returns, the status it returns is ready and
    has the outputs of the status it was given, and nothing else.  It has
    installed Tiller in the project namespace first and then cert-manager
    (whatever the provider's [tlsManager] is).  On a remote cluster it has
    not set up the system services. *)
Theorem prepareEnvironment_reports_ready {W : Type} (K : KubernetesInit.Imports W)
    (ctx : KubernetesPluginContext) (force : bool) (status result : KubernetesStatus)
    (w w' : W) (tr : list K8sCall) :
  let namespace := KubernetesInit.systemNamespace K in
  KubernetesInit.prepareEnvironment K ctx force status w = (tr, Ok result, w') →
  result = {| kst_ready := true; kst_detail := None; kst_dashboardPages := None;
              kst_outputs := kst_outputs status |} ∧
  (∃ rest, tr = CallInstallTiller ctx force :: CallKubeApiFactory (kx_provider ctx) :: rest) ∧
  CallHelm namespace
    ["install"; "--name"; "cert-manager"; "--namespace"; namespace;
     "--version"; "v0.10.1"; "jetstack/cert-manager"] ∈ tr ∧
  (kp_name (kx_provider ctx) ≠ "local-kubernetes" → List.filter isSystemSetup tr = []).
Proof.
  intros namespace Hrun. subst namespace. unfold KubernetesInit.prepareEnvironment in Hrun.
  apply act_bind_returns in Hrun as ([] & ? & w1 & ? & [_ ->]%invoke_returns & Hrun & ->).
  apply act_bind_returns in Hrun as (r & trc & w2 & ? & Hcert & Hrun & ->).
  apply installCertManager_returns in Hcert as [-> ->].
  apply act_bind_returns in Hrun as ([] & trs & w3 & ? & Hsystem & Hrun & ->).
  apply act_ret_returns in Hrun as (-> & -> & ->).
  split; [done|]. split; [by eexists|]. split.
  - simpl. do 9 right. by left.
  - intros Hremote.
    destruct (prepareSystem_remote K ctx force status w2 Hremote) as [Hs | Hs];
      rewrite Hs in Hsystem; by injection Hsystem as <- <-.
Qed.

Lemma prepareEnvironment_reports_ready_witness :
  let run :=
    KubernetesInit.prepareEnvironment SampleCluster.imports
      (SampleCluster.ctx "kubernetes" ["ingress-controller"]) false
      SampleCluster.missingServices 0%nat in
  resultOf run =
    Ok {| kst_ready := true; kst_detail := None; kst_dashboardPages := None;
          kst_outputs := {[ "app-namespace" := Some "project" ]} |} ∧
  List.filter isSystemSetup (callsOf run) = [].
Proof.
  intros run. split; [reflexivity|].
  apply (prepareEnvironment_reports_ready SampleCluster.imports
           (SampleCluster.ctx "kubernetes" ["ingress-controller"]) false
           SampleCluster.missingServices
           {| kst_ready := true; kst_detail := None; kst_dashboardPages := None;
              kst_outputs := {[ "app-namespace" := Some "project" ]} |}
           0%nat run.2 (callsOf run)); [reflexivity | done].
Defined.

(** ** kubernetes: [getEnvironmentStatus] *)

(** X19.  The status [getEnvironmentStatus] returns is ready exactly when all
    four readiness flags of its detail are set: the project's Tiller, the
    system's Tiller, cert-manager and the system services.  The project flag
    says whether Tiller answered "ready" in the project namespace.  When the
    provider has no system services, or is itself the provider of the system
    namespace, nothing but the namespaces and that Tiller is looked at and the
    three system flags stay set.  cert-manager is only checked when the
    provider's [tlsManager] is "cert-manager". *)
Theorem getEnvironmentStatus_ready_iff_all_ready {W : Type} (K : KubernetesInit.Imports W)
    (ctx : KubernetesPluginContext) (w w' : W) (tr : list K8sCall)
    (status : KubernetesStatus) :
  let config := kp_config (kx_provider ctx) in
  KubernetesInit.getEnvironmentStatus K ctx w = (tr, Ok status, w') →
  ∃ detail namespaces w1 tiller w2,
    kst_detail status = Some detail ∧
    kst_ready status =
      projectReady detail && systemTillerReady detail && systemCertManagerReady detail &&
      systemReady detail ∧
    KubernetesInit.prepareNamespaces K ctx w = (Ok namespaces, w1) ∧
    KubernetesInit.checkTillerStatus K ctx w1 = (Ok tiller, w2) ∧
    projectReady detail = bool_decide (tiller = "ready") ∧
    (kc_systemServices config = [] ∨
     kc_namespace config = Some (KubernetesInit.systemNamespace K) →
     tr = [CallPrepareNamespaces ctx; CallCheckTillerStatus ctx] ∧ w' = w2 ∧
     systemTillerReady detail = true ∧ systemCertManagerReady detail = true ∧
     systemReady detail = true) ∧
    (kc_tlsManager config ≠ Some "cert-manager" →
     systemCertManagerReady detail = true ∧
     CallListNamespacedPod (KubernetesInit.systemNamespace K) ∉ tr).
Proof.
  intros config Hrun. subst config. unfold KubernetesInit.getEnvironmentStatus in Hrun.
  cbv zeta in Hrun.
  apply act_bind_returns in Hrun as (namespaces & ? & w1 & ? & [Hns ->]%invoke_returns & Hrun & ->).
  apply act_bind_returns in Hrun as (tiller & ? & w2 & ? & [Htiller ->]%invoke_returns & Hrun & ->).
  assert ((if negb (bool_decide (tiller = "ready")) then false else true) =
          bool_decide (tiller = "ready")) as Hproject
    by (by destruct (bool_decide (tiller = "ready"))).
  rewrite Hproject in Hrun.
  destruct (bool_decide (length _ = 0%nat) || bool_decide (kc_namespace _ = _)) eqn:Hearly.
  - apply act_ret_returns in Hrun as (-> & -> & ->). simpl.
    eexists _, namespaces, w1, tiller, w2. repeat split; try done.
    + simpl. by rewrite !andb_true_r.
    + intros Hin. repeat (apply elem_of_cons in Hin as [[=] | Hin]).
      by apply elem_of_nil in Hin.
  - apply orb_false_iff in Hearly as [Hnames%bool_decide_eq_false Hsys%bool_decide_eq_false].
    apply act_bind_returns in Hrun as (sysGarden & ? & ? & ? & [_ ->]%invoke_returns & Hrun & ->).
    apply act_bind_returns in Hrun as (sysProvider & ? & ? & ? & [_ ->]%invoke_returns & Hrun & ->).
    apply act_bind_returns in Hrun as (sysCtx & ? & ? & ? & [_ ->]%invoke_returns & Hrun & ->).
    apply act_bind_returns in Hrun
      as (tillerStatus & ? & ? & ? & [_ ->]%invoke_returns & Hrun & ->).
    match type of Hrun with
    | (let '(_, _) := ?p in _) _ = _ => remember p as start eqn:Hstart
    end.
    assert (start.1 = projectReady start.2 && systemTillerReady start.2 &&
                      systemCertManagerReady start.2 && systemReady start.2 ∧
            projectReady start.2 = bool_decide (tiller = "ready") ∧
            systemCertManagerReady start.2 = true ∧
            systemReady start.2 = true) as (Hready1 & Hp1 & Hc1 & Hs1).
    { subst start. by destruct (negb _), (bool_decide (tiller = "ready")). }
    clear Hstart. destruct start as [ready1 detail1]. simpl in Hready1, Hp1, Hc1, Hs1.
    apply act_bind_returns in Hrun as ([ready detail] & trc & ? & ? & Hcert & Hrun & ->).
    apply act_bind_returns in Hrun as (api & ? & ? & ? & [_ ->]%invoke_returns & Hrun & ->).
    apply act_bind_returns in Hrun as (upToDate & ? & ? & ? & [_ ->]%invoke_returns & Hrun & ->).
    apply act_bind_returns in Hrun as (sys & ? & ? & ? & [_ ->]%invoke_returns & Hrun & ->).
    assert (ready = projectReady detail && systemTillerReady detail &&
                    systemCertManagerReady detail && systemReady detail ∧
            projectReady detail = bool_decide (tiller = "ready") ∧
            systemReady detail = true ∧
            (kc_tlsManager (kp_config (kx_provider ctx)) ≠ Some "cert-manager" →
             systemCertManagerReady detail = true ∧ trc = [])) as (Hready & Hp & Hs & Htls).
    { destruct (bool_decide (kc_tlsManager _ = _)) eqn:Htls.
      - apply bool_decide_eq_true in Htls.
        apply act_bind_returns in Hcert as (certStatus & ? & ? & ? & _ & Hcert & ->).
        destruct (bool_decide (certStatus = "ready")); simpl in Hcert.
        + apply act_ret_returns in Hcert as ([= -> ->] & -> & ->). done.
        + apply act_bind_returns in Hcert as ([] & ? & ? & ? & _ & Hcert & ->).
          apply act_ret_returns in Hcert as ([= -> ->] & -> & ->). simpl.
          repeat split; try done. by rewrite andb_false_r.
      - apply bool_decide_eq_false in Htls.
        apply act_ret_returns in Hcert as ([= -> ->] & -> & ->). done. }
    assert (¬ (kc_systemServices (kp_config (kx_provider ctx)) = [] ∨
               kc_namespace (kp_config (kx_provider ctx)) =
                 Some (KubernetesInit.systemNamespace K))) as Hlate.
    { intros [Hno | Hno]; [by rewrite Hno in Hnames | done]. }
    match type of Hrun with
    | (let '(_, _) := ?p in _) _ = _ => remember p as final eqn:Hfinal
    end.
    assert (final.1 = projectReady final.2 && systemTillerReady final.2 &&
                      systemCertManagerReady final.2 && systemReady final.2 ∧
            projectReady final.2 = projectReady detail ∧
            systemCertManagerReady final.2 = systemCertManagerReady detail)
      as (Hready2 & Hp2 & Hc2).
    { subst final. destruct (_ || _); simpl; [|done]. by rewrite andb_false_r. }
    clear Hfinal. destruct final as [ready2 detail2]. simpl in Hrun, Hready2, Hp2, Hc2.
    apply act_bind_returns in Hrun as ([] & ? & ? & ? & [-> ->]%logged_returns & Hrun & ->).
    apply act_ret_returns in Hrun as (-> & -> & ->). simpl.
    eexists _, namespaces, w1, tiller, w2.
    split; [done|]. split; [done|]. split; [done|]. split; [done|].
    split; [by rewrite <- Hp|]. split; [by intros ?%Hlate|].
    intros Hnot. destruct (Htls Hnot) as [Hc ->]. split; [by rewrite <- Hc|].
    simpl. intros Hin. repeat (apply elem_of_cons in Hin as [[=] | Hin]).
    by apply elem_of_nil in Hin.
Qed.

Lemma getEnvironmentStatus_ready_iff_all_ready_witness :
  ∃ status detail,
    resultOf (KubernetesInit.getEnvironmentStatus SampleCluster.imports
              (SampleCluster.ctx "kubernetes" ["ingress-controller"]) 0%nat) = Ok status ∧
    kst_detail status = Some detail ∧
    kst_ready status =
      projectReady detail && systemTillerReady detail && systemCertManagerReady detail &&
      systemReady detail ∧
    systemCertManagerReady detail = false.
Proof.
  destruct (KubernetesInit.getEnvironmentStatus SampleCluster.imports
              (SampleCluster.ctx "kubernetes" ["ingress-controller"]) 0%nat)
    as [[tr [e|status]] w'] eqn:Hrun; [by vm_compute in Hrun|].
  destruct (getEnvironmentStatus_ready_iff_all_ready _ _ _ _ _ _ Hrun)
    as (detail & _ & _ & _ & _ & Hdetail & Hready & _).
  exists status, detail. split; [done|]. split; [done|]. split; [done|].
  vm_compute in Hrun. injection Hrun as _ <- _. by injection Hdetail as <-.
Defined.


Lemma filterM_throws {A} (p : A → Exc bool) (l : list A) x :
  x ∈ l → is_Ok (p x) = false → is_Ok (filterM p l) = false.
Proof.
  intros Hx Hp. induction l as [|y l IH]; [by apply elem_of_nil in Hx|]. simpl.
  apply elem_of_cons in Hx as [<- | Hx].
  - by destruct (p x).
  - destruct (p y); [done|]. simpl. specialize (IH Hx). by destruct (filterM p l).
Qed.

Lemma mapM_Exc_throws {A B} (f : A → Exc B) (l : list A) x :
  x ∈ l → is_Ok (f x) = false → is_Ok (mapM f l) = false.
Proof.
  intros Hx Hf. destruct (mapM f l) as [e|k] eqn:Hk; [done|]. exfalso.
  apply mapM_Exc_ok in Hk. apply list_elem_of_lookup_1 in Hx as [i Hi].
  destruct (Forall2_lookup_l _ _ _ _ _ Hk Hi) as (y & _ & Hy). by rewrite Hy in Hf.
Qed.

(** X20.  [getDependencies] looks the plugin of every configured provider up
    whose name is not the dependency's own, to read its bases.  Let the names
    be read as the map of loaded plugins has them (none of them is a name
    that the object only inherits, such as [constructor]).  Then, when the
    task's plugin declares a dependency and some provider with another name
    is configured for which no plugin is loaded, [getDependencies] does not
    return; if that provider is the first one configured and the dependency
    the first one declared, what it raises is the TypeError of reading [base]
    of undefined. *)
Theorem getDependencies_needs_loaded_plugins (I : Imports) (this : ResolveProviderTask.t)
    (depNames : list string) (loaded : list GardenPlugin) (depName : string)
    (c : ProviderConfig) :
  let raw := getRawProviderConfigs (ResolveProviderTask.garden this) in
  getAllProviderDependencyNames I (ResolveProviderTask.plugin this)
    (ResolveProviderTask.config this) = Ok depNames →
  getPlugins (ResolveProviderTask.garden this) = Ok loaded →
  providersReadOwn (keyBy loaded) depNames raw →
  pc_name c ≠ depName → keyBy loaded !! pc_name c = None →
  (depName ∈ depNames → c ∈ raw →
   is_Ok (ResolveProviderTask.getDependencies I this) = false) ∧
  (head depNames = Some depName → head raw = Some c →
   ResolveProviderTask.getDependencies I this =
     Throw (mkError TypeError "Cannot read property 'base' of undefined")).
Proof.
  intros raw Hnames Hloaded _ Hne Hnone. subst raw.
  assert (ResolveProviderTask.matches (keyBy loaded) depName c =
          Throw (mkError TypeError "Cannot read property 'base' of undefined")) as Hmatch.
  { unfold ResolveProviderTask.matches, getPluginBaseNames.
    rewrite bool_decide_false by done. by rewrite Hnone. }
  unfold ResolveProviderTask.getDependencies. rewrite Hnames, Hloaded. simpl. split.
  - intros Hdep Hc.
    assert (is_Ok (mapM (ResolveProviderTask.dependencyTasks this (keyBy loaded)) depNames) =
            false) as Hmap; [|by destruct (mapM _ _)].
    apply (mapM_Exc_throws _ _ depName Hdep).
    unfold ResolveProviderTask.dependencyTasks.
    assert (is_Ok (filterM (ResolveProviderTask.matches (keyBy loaded) depName)
                     (getRawProviderConfigs (ResolveProviderTask.garden this))) = false)
      as Hfilter; [|by destruct (filterM _ _)].
    apply (filterM_throws _ _ c Hc). by rewrite Hmatch.
  - intros Hdep Hc.
    destruct depNames as [|D depNames]; [done|]. injection Hdep as ->.
    assert (ResolveProviderTask.dependencyTasks this (keyBy loaded) depName =
            Throw (mkError TypeError "Cannot read property 'base' of undefined")) as Htasks.
    { unfold ResolveProviderTask.dependencyTasks.
      destruct (getRawProviderConfigs _) as [|c0 raw]; [done|]. injection Hc as ->.
      cbn [filterM]. by rewrite Hmatch. }
    rewrite mapM_Exc_cons. by rewrite Htasks.
Qed.

Lemma getDependencies_needs_loaded_plugins_witness :
  ResolveProviderTask.getDependencies Sample.imports
    (SampleUnloaded.taskB [SampleUnloaded.configExtra; Sample.configB]) =
    Throw (mkError TypeError "Cannot read property 'base' of undefined").
Proof.
  apply (getDependencies_needs_loaded_plugins Sample.imports
           (SampleUnloaded.taskB [SampleUnloaded.configExtra; Sample.configB])
           ["base-a"] [Sample.testB] "base-a" SampleUnloaded.configExtra);
    [reflexivity | reflexivity | by apply (bool_decide_unpack _); vm_compute
    | done | reflexivity | reflexivity | reflexivity].
Defined.

Lemma filterM_selected {A} (p : A → Exc bool) (l m : list A) x :
  filterM p l = Ok m → x ∈ m → x ∈ l ∧ p x = Ok true.
Proof.
  revert m. induction l as [|y l IH]; intros m; simpl; [intros [= <-] Hx; by apply elem_of_nil in Hx|].
  destruct (p y) as [e|[|]] eqn:Hy; [done| |]; simpl;
    (destruct (filterM p l) as [e|r]; [done|]); simpl; intros [= <-] Hx.
  - apply elem_of_cons in Hx as [-> | Hx]; [split; [left | done]|].
    destruct (IH r eq_refl Hx). split; [by right | done].
  - destruct (IH r eq_refl Hx). split; [by right | done].
Qed.

(** Nothing inherits from a name under which no plugin is loaded. *)
Lemma matches_unloaded (loaded : list GardenPlugin) depName c :
  keyBy loaded !! depName = None →
  ResolveProviderTask.matches (keyBy loaded) depName c = Ok true → pc_name c = depName.
Proof.
  intros Hnone. unfold ResolveProviderTask.matches. case_bool_decide as Hname; [done|].
  unfold getPluginBaseNames.
  destruct (keyBy loaded !! pc_name c) as [plugin|]; [|done].
  destruct (getPluginBases plugin (keyBy loaded)) as [e|bases] eqn:Hbases; [done|].
  simpl. intros [= Hin]. apply bool_decide_eq_true in Hin.
  apply list_elem_of_fmap in Hin as (b & -> & Hb).
  apply getPluginBases_chain in Hbases.
  destruct (baseChain_loaded _ _ _ Hbases b Hb) as [k Hk].
  destruct (keyBy_lookup _ _ _ Hk) as [<- _]. by rewrite Hk in Hnone.
Qed.

Lemma process_without_plugin (I : Imports) (this : ResolveProviderTask.t) (deps : TaskResults) :
  ResolveProviderTask.plugin this = None →
  ∃ e, outcome (ResolveProviderTask.process I this deps) = Throw e ∧
       (e = mkError TypeError "Cannot read property 'configSchema' of undefined" ∨
        ∃ context, resolveTemplateStrings I (ResolveProviderTask.config this) context = Throw e).
Proof.
  intros Hplugin. unfold ResolveProviderTask.process. cbv zeta.
  unfold ResolveProviderTask.validateConfig, ResolveProviderTask.thePlugin.
  rewrite Hplugin.
  destruct (resolveTemplateStrings I _ _) as [e|resolved] eqn:Hresolved.
  - exists e. split; [by cbv|]. right. eexists. exact Hresolved.
  - eexists. split; [by cbv|]. by left.
Qed.

(** X21.  [getDependencies] gives every task it creates for a dependency the
    plugin loaded under the dependency's name, loaded or not.  Let the names
    be read as the map of loaded plugins has them (none of them is a name
    that the object only inherits, such as [constructor]).  Then, when the
    task's plugin declares a dependency under whose name no plugin is loaded
    and [getDependencies] returns, a provider of that very name is configured
    and the list holds a task for it that has no plugin; [process] of that
    task never returns a provider: it raises the TypeError of reading
    [configSchema] of undefined (or before that, what resolving the template
    strings of the config raised). *)
Theorem getDependencies_unloaded_dependency (I : Imports) (this : ResolveProviderTask.t)
    (depNames : list string) (loaded : list GardenPlugin) (depName : string)
    (tasks : list ResolveProviderTask.t) :
  getAllProviderDependencyNames I (ResolveProviderTask.plugin this)
    (ResolveProviderTask.config this) = Ok depNames →
  getPlugins (ResolveProviderTask.garden this) = Ok loaded →
  providersReadOwn (keyBy loaded) depNames
    (getRawProviderConfigs (ResolveProviderTask.garden this)) →
  depName ∈ depNames → keyBy loaded !! depName = None →
  ResolveProviderTask.getDependencies I this = Ok tasks →
  ∃ task,
    task ∈ tasks ∧
    ResolveProviderTask.config task ∈ getRawProviderConfigs (ResolveProviderTask.garden this) ∧
    pc_name (ResolveProviderTask.config task) = depName ∧
    ResolveProviderTask.plugin task = None ∧
    ∀ deps, ∃ e,
      outcome (ResolveProviderTask.process I task deps) = Throw e ∧
      (e = mkError TypeError "Cannot read property 'configSchema' of undefined" ∨
       ∃ context,
         resolveTemplateStrings I (ResolveProviderTask.config task) context = Throw e).
Proof.
  intros Hnames Hloaded _ Hdep Hnone Hdeps.
  unfold ResolveProviderTask.getDependencies in Hdeps.
  rewrite Hnames, Hloaded in Hdeps. simpl in Hdeps.
  destruct (mapM _ depNames) as [e|rows] eqn:Hrows; [done|]. injection Hdeps as <-.
  apply mapM_Exc_ok in Hrows. apply list_elem_of_lookup_1 in Hdep as [i Hi].
  destruct (Forall2_lookup_l _ _ _ _ _ Hrows Hi) as (row & Hrow & Htasks).
  unfold ResolveProviderTask.dependencyTasks in Htasks.
  destruct (filterM _ _) as [e|matched] eqn:Hmatched; [done|]. simpl in Htasks.
  case_bool_decide as Hlen; [done|]. injection Htasks as Htasks.
  destruct matched as [|c matched]; [done|].
  destruct (filterM_selected _ _ _ c Hmatched) as [Hc Hmatch]; [by left|].
  eexists (ResolveProviderTask.mk _ _ c _ _). split; [|split; [|split; [|split]]].
  - apply list_elem_of_join. exists row. split; [|by eapply list_elem_of_lookup_2].
    rewrite <- Htasks. left.
  - exact Hc.
  - by eapply matches_unloaded.
  - exact Hnone.
  - intros deps. by apply process_without_plugin.
Qed.

Lemma getDependencies_unloaded_dependency_witness :
  ∃ task,
    task ∈ [ResolveProviderTask.mk (SampleUnloaded.garden [SampleUnloaded.configBaseA]) None
              SampleUnloaded.configBaseA Sample.version0 false] ∧
    ResolveProviderTask.plugin task = None ∧
    ∀ deps, ∃ e, outcome (ResolveProviderTask.process Sample.imports task deps) = Throw e.
Proof.
  destruct (getDependencies_unloaded_dependency Sample.imports
              (SampleUnloaded.taskB [SampleUnloaded.configBaseA]) ["base-a"] [Sample.testB]
              "base-a"
              [ResolveProviderTask.mk (SampleUnloaded.garden [SampleUnloaded.configBaseA]) None
                 SampleUnloaded.configBaseA Sample.version0 false])
    as (task & Hin & _ & _ & Hplugin & Hprocess);
    [reflexivity | reflexivity | by apply (bool_decide_unpack _); vm_compute
    | by left | reflexivity | reflexivity |].
  exists task. split; [done|]. split; [done|].
  intros deps. destruct (Hprocess deps) as (e & He & _). by exists e.
Defined.
